(** * An address book with validated fields and a birthday reminder

    A shallow embedding of [No.2.py]: the validated field classes
    ([Field], [Name], [Phone], [Birthday]), the [Record] aggregate, the
    [AddressBook] dictionary and its [get_upcoming_birthdays] query,
    together with the parts of the Python runtime they rest on (text as
    sequences of code points, [str.isdigit], [datetime.strptime] and
    [strftime] for the format [%d.%m.%Y], proleptic Gregorian dates). *)

From Stdlib Require Import Strings.String Strings.Ascii.
From Stdlib Require Import ZArith NArith Bool List Lia.
Import ListNotations.

Local Open Scope Z_scope.

(** ** Python text

    A Python [str] is a sequence of Unicode code points.  Literals of the
    source are written as UTF-8 string literals and decoded by [py]. *)

Module PyStr.

Definition codepoint := N.
Definition str := list codepoint.

Definition eqb (a b : str) : bool :=
  if list_eq_dec N.eq_dec a b then true else false.

(** [x in xs] for a list of strings. *)
Definition mem (x : str) (xs : list str) : bool := existsb (eqb x) xs.

(** UTF-8 decoding of the bytes of a source literal. *)
Fixpoint utf8 (fuel : nat) (bs : list N) : str :=
  match fuel with
  | O => []
  | S fuel =>
      match bs with
      | [] => []
      | b0 :: r0 =>
          if (b0 <? 128)%N then b0 :: utf8 fuel r0
          else if (b0 <? 224)%N then
            match r0 with
            | b1 :: r1 => ((b0 - 192) * 64 + (b1 - 128))%N :: utf8 fuel r1
            | _ => []
            end
          else if (b0 <? 240)%N then
            match r0 with
            | b1 :: b2 :: r2 =>
                ((b0 - 224) * 4096 + (b1 - 128) * 64 + (b2 - 128))%N
                  :: utf8 fuel r2
            | _ => []
            end
          else
            match r0 with
            | b1 :: b2 :: b3 :: r3 =>
                ((b0 - 240) * 262144 + (b1 - 128) * 4096
                 + (b2 - 128) * 64 + (b3 - 128))%N :: utf8 fuel r3
            | _ => []
            end
      end
  end.

Definition py (s : string) : str :=
  let bs := map N_of_ascii (list_ascii_of_string s) in
  utf8 (List.length bs) bs.

(** [sep.join(parts)] *)
Fixpoint join (sep : str) (parts : list str) : str :=
  match parts with
  | [] => []
  | [p] => p
  | p :: ps => p ++ sep ++ join sep ps
  end.

(** [bool(s)]: a string is true when it is not empty. *)
Definition truthy (s : str) : bool :=
  match s with [] => false | _ :: _ => true end.

End PyStr.

Import PyStr.

(** ** Unicode character classes

    The two numeric classes of the Unicode database (version 14.0.0, the
    one of CPython 3.11) that the program consults: the decimal digits
    (general category [Nd]; [str.isdecimal], and [\d] in a [str]
    pattern), and the further characters of numeric type [Digit] that
    [str.isdigit] accepts as well, such as the superscript digits. *)

Module Unicode.

Definition decimal_ranges : list (N * N) :=
  [ (48, 57); (1632, 1641); (1776, 1785); (1984, 1993); (2406, 2415);
    (2534, 2543); (2662, 2671); (2790, 2799); (2918, 2927); (3046, 3055);
    (3174, 3183); (3302, 3311); (3430, 3439); (3558, 3567); (3664, 3673);
    (3792, 3801); (3872, 3881); (4160, 4169); (4240, 4249); (6112, 6121);
    (6160, 6169); (6470, 6479); (6608, 6617); (6784, 6793); (6800, 6809);
    (6992, 7001); (7088, 7097); (7232, 7241); (7248, 7257); (42528, 42537);
    (43216, 43225); (43264, 43273); (43472, 43481); (43504, 43513);
    (43600, 43609); (44016, 44025); (65296, 65305); (66720, 66729);
    (68912, 68921); (69734, 69743); (69872, 69881); (69942, 69951);
    (70096, 70105); (70384, 70393); (70736, 70745); (70864, 70873);
    (71248, 71257); (71360, 71369); (71472, 71481); (71904, 71913);
    (72016, 72025); (72784, 72793); (73040, 73049); (73120, 73129);
    (92768, 92777); (92864, 92873); (93008, 93017); (120782, 120831);
    (123200, 123209); (123632, 123641); (125264, 125273);
    (130032, 130041) ]%N.

Definition digit_only_ranges : list (N * N) :=
  [ (178, 179); (185, 185); (4969, 4977); (6618, 6618); (8304, 8304);
    (8308, 8313); (8320, 8329); (9312, 9320); (9332, 9340); (9352, 9360);
    (9450, 9450); (9461, 9469); (9471, 9471); (10102, 10110);
    (10112, 10120); (10122, 10130); (68160, 68163); (69216, 69224);
    (69714, 69722); (127232, 127242) ]%N.

Definition in_range (c : codepoint) (r : N * N) : bool :=
  ((fst r <=? c) && (c <=? snd r))%N.

Definition in_ranges (c : codepoint) (rs : list (N * N)) : bool :=
  existsb (in_range c) rs.

Definition isdecimal_char (c : codepoint) : bool :=
  in_ranges c decimal_ranges.

Definition isdigit_char (c : codepoint) : bool :=
  isdecimal_char c || in_ranges c digit_only_ranges.

(** Every run of decimal digits starts at its zero, so the value of a
    decimal digit is its offset in the run, modulo ten. *)
Definition decimal_value (c : codepoint) : option Z :=
  match find (in_range c) decimal_ranges with
  | Some r => Some (Z.of_N ((c - fst r) mod 10))
  | None => None
  end.

(** [s.isdigit()]: at least one character, and all of them digits. *)
Definition isdigit (s : str) : bool :=
  truthy s && forallb isdigit_char s.

(** [s.isdecimal()] *)
Definition isdecimal (s : str) : bool :=
  truthy s && forallb isdecimal_char s.

(** The ten ASCII digits. *)
Definition ascii_digit (c : codepoint) : bool :=
  ((48 <=? c) && (c <=? 57))%N.

End Unicode.

(** ** Exceptions and results

    A call either returns a value or raises.  [str(e)] of the exceptions
    raised here is their message. *)

Inductive exn : Type :=
| ValueError (msg : str)
| KeyError (key : str)
| TypeError (msg : str)
| OverflowError (msg : str).

Inductive result (A : Type) : Type :=
| Ok (a : A)
| Raise (e : exn).

Arguments Ok {A} a.
Arguments Raise {A} e.

Definition bind {A B : Type} (r : result A) (k : A -> result B) : result B :=
  match r with
  | Ok a => k a
  | Raise e => Raise e
  end.

Declare Scope py_scope.
Delimit Scope py_scope with py.
Notation "x <- e ;; k" := (bind e (fun x => k))
  (at level 61, e at next level, right associativity) : py_scope.
Local Open Scope py_scope.

Definition is_ok {A : Type} (r : result A) : bool :=
  match r with Ok _ => true | Raise _ => false end.

(** ** Decimal rendering of integers *)

Module Decimal.

Definition digit_char (d : Z) : codepoint := (48 + Z.to_N d)%N.

Fixpoint nat_digits (fuel : nat) (n : Z) : str :=
  match fuel with
  | O => []
  | S fuel =>
      if n <? 10 then [digit_char n]
      else nat_digits fuel (n / 10) ++ [digit_char (n mod 10)]
  end.

(** [str(n)] for an integer. *)
Definition str_of_Z (n : Z) : str :=
  if n <? 0 then 45%N :: nat_digits (S (Z.to_nat (Z.log2 (- n)))) (- n)
  else nat_digits (S (Z.to_nat (Z.log2 n))) n.

(** [s.zfill(width)] for a string without sign. *)
Definition zfill (width : nat) (s : str) : str :=
  repeat 48%N (width - List.length s) ++ s.

(** C's [%0wd] for a number that is not negative. *)
Definition zero_padded (width : nat) (n : Z) : str :=
  zfill width (str_of_Z n).

End Decimal.

(** ** Dates

    The proleptic Gregorian calendar of the [datetime] module, after its
    reference implementation: a date is a year, a month and a day, checked
    when it is built; day 1 is 1 January of year 1. *)

Module Datetime.

Record date : Type := mkdate { year : Z; month : Z; day : Z }.

Definition MINYEAR : Z := 1.
Definition MAXYEAR : Z := 9999.
Definition _MAXORDINAL : Z := 3652059.

Definition _DAYS_IN_MONTH : list Z :=
  [-1; 31; 28; 31; 30; 31; 30; 31; 31; 30; 31; 30; 31].

Definition _DAYS_BEFORE_MONTH : list Z :=
  [-1; 0; 31; 59; 90; 120; 151; 181; 212; 243; 273; 304; 334].

Definition item (table : list Z) (i : Z) : Z := nth (Z.to_nat i) table 0.

Definition _is_leap (y : Z) : bool :=
  (y mod 4 =? 0) && (negb (y mod 100 =? 0) || (y mod 400 =? 0)).

Definition _days_before_year (y : Z) : Z :=
  let y := y - 1 in
  y * 365 + y / 4 - y / 100 + y / 400.

Definition _days_in_month (y m : Z) : Z :=
  if (m =? 2) && _is_leap y then 29 else item _DAYS_IN_MONTH m.

Definition _days_before_month (y m : Z) : Z :=
  item _DAYS_BEFORE_MONTH m + (if (2 <? m) && _is_leap y then 1 else 0).

Definition _ymd2ord (y m d : Z) : Z :=
  _days_before_year y + _days_before_month y m + d.

Definition _DI400Y : Z := 146097.
Definition _DI100Y : Z := 36524.
Definition _DI4Y : Z := 1461.

Definition _ord2ymd (n : Z) : Z * Z * Z :=
  let n := n - 1 in
  let n400 := n / _DI400Y in
  let n := n mod _DI400Y in
  let y := n400 * 400 + 1 in
  let n100 := n / _DI100Y in
  let n := n mod _DI100Y in
  let n4 := n / _DI4Y in
  let n := n mod _DI4Y in
  let n1 := n / 365 in
  let n := n mod 365 in
  let y := y + n100 * 100 + n4 * 4 + n1 in
  if (n1 =? 4) || (n100 =? 4) then (y - 1, 12, 31)
  else
    let leapyear := (n1 =? 3) && (negb (n4 =? 24) || (n100 =? 3)) in
    let m := Z.shiftr (n + 50) 5 in
    let preceding :=
      item _DAYS_BEFORE_MONTH m + (if (2 <? m) && leapyear then 1 else 0) in
    if n <? preceding then
      let m := m - 1 in
      let preceding :=
        preceding
        - (item _DAYS_IN_MONTH m + (if (m =? 2) && leapyear then 1 else 0)) in
      (y, m, n - preceding + 1)
    else (y, m, n - preceding + 1).

(** The end of [_ord2ymd] on its own: the month and the day of the
    day [n] of a year, counted from 0. *)
Definition month_day (leapyear : bool) (n : Z) : Z * Z :=
  let m := Z.shiftr (n + 50) 5 in
  let preceding :=
    item _DAYS_BEFORE_MONTH m + (if (2 <? m) && leapyear then 1 else 0) in
  if n <? preceding then
    let m := m - 1 in
    let preceding :=
      preceding
      - (item _DAYS_IN_MONTH m + (if (m =? 2) && leapyear then 1 else 0)) in
    (m, n - preceding + 1)
  else (m, n - preceding + 1).

(** What [month_day] has to give, as a test. *)
Definition month_day_ok (leapyear : bool) (n : Z) : bool :=
  let '(m, d) := month_day leapyear n in
  (1 <=? m) && (m <=? 12) && (1 <=? d)
  && (d <=? item _DAYS_IN_MONTH m + (if (m =? 2) && leapyear then 1 else 0))
  && (item _DAYS_BEFORE_MONTH m + (if (2 <? m) && leapyear then 1 else 0) + d
      =? n + 1).

(** The checks of the constructor. *)
Definition check_date_fields (y m d : Z) : bool :=
  (MINYEAR <=? y) && (y <=? MAXYEAR) && (1 <=? m) && (m <=? 12)
  && (1 <=? d) && (d <=? _days_in_month y m).

(** [date(y, m, d)] *)
Definition date_new (y m d : Z) : result date :=
  if negb ((MINYEAR <=? y) && (y <=? MAXYEAR)) then
    Raise (ValueError
             (py "year " ++ Decimal.str_of_Z y ++ py " is out of range"))
  else if negb ((1 <=? m) && (m <=? 12)) then
    Raise (ValueError (py "month must be in 1..12"))
  else if negb ((1 <=? d) && (d <=? _days_in_month y m)) then
    Raise (ValueError (py "day is out of range for month"))
  else Ok (mkdate y m d).

(** The dates that can be built. *)
Definition valid_date (d : date) : Prop :=
  check_date_fields (year d) (month d) (day d) = true.

(** [d.replace(year=y)] builds a new date, with the same checks. *)
Definition replace_year (d : date) (y : Z) : result date :=
  date_new y (month d) (day d).

Definition toordinal (d : date) : Z := _ymd2ord (year d) (month d) (day d).

Definition fromordinal (n : Z) : date :=
  let '(y, m, d) := _ord2ymd n in mkdate y m d.

(** [d.weekday()]: Monday is 0 and Sunday is 6. *)
Definition weekday (d : date) : Z := (toordinal d + 6) mod 7.

(** [a < b] *)
Definition date_ltb (a b : date) : bool :=
  (year a <? year b)
  || ((year a =? year b)
      && ((month a <? month b)
          || ((month a =? month b) && (day a <? day b)))).

(** [(a - b).days] *)
Definition sub_days (a b : date) : Z := toordinal a - toordinal b.

(** [d + timedelta(days=k)] *)
Definition add_days (d : date) (k : Z) : result date :=
  let o := toordinal d + k in
  if (0 <? o) && (o <=? _MAXORDINAL) then Ok (fromordinal o)
  else Raise (OverflowError (py "date value out of range")).

(** A [datetime]: a date and a time of day. *)
Record datetime : Type := mkdatetime {
  dt_date : date;      (* [dt.date()] *)
  dt_hour : Z;
  dt_minute : Z;
  dt_second : Z;
  dt_microsecond : Z
}.

(** *** Rendering: [strftime]

    [%d] and [%m] are two digits everywhere.  [%Y] is left to the C
    library: glibc prints the year as it is ([999]), other libraries pad
    it to four digits ([0999]).  [%A] is the English name of the day, the
    program never changing the locale of the process. *)

Inductive year_style : Type := YearPlain | YearPadded.

Definition strftime_Y (sty : year_style) (y : Z) : str :=
  match sty with
  | YearPlain => Decimal.str_of_Z y
  | YearPadded => Decimal.zero_padded 4 y
  end.

(** [d.strftime('%d.%m.%Y')] *)
Definition strftime_dmY (sty : year_style) (d : date) : str :=
  Decimal.zero_padded 2 (day d) ++ py "."
  ++ Decimal.zero_padded 2 (month d) ++ py "."
  ++ strftime_Y sty (year d).

Definition day_names : list str :=
  [py "Monday"; py "Tuesday"; py "Wednesday"; py "Thursday"; py "Friday";
   py "Saturday"; py "Sunday"].

(** [d.strftime('%A')] *)
Definition strftime_A (d : date) : str :=
  nth (Z.to_nat (weekday d)) day_names [].

(** *** Parsing: [strptime]

    [strptime] turns the format into a regular expression, here
    [(?P<d>3[0-1]|[1-2]\d|0[1-9]|[1-9]| [1-9])\.(?P<m>1[0-2]|0[1-9]|[1-9])\.(?P<Y>\d\d\d\d)],
    matches it at the start of the text (alternatives in order, the first
    way that succeeds), refuses text left over after the match, converts
    the three groups with [int] and builds the date.  The pattern has no
    letters, so that matching without regard to case changes nothing. *)

Inductive regex : Type :=
| Chr (c : codepoint)
| Rng (lo hi : codepoint)
| Dig
| Seq (r1 r2 : regex)
| Alt (r1 r2 : regex).

(** All the ways to match [r] at the start of [s], in the order the
    matcher tries them: the text matched and the text that follows. *)
Fixpoint rmatch (r : regex) (s : str) : list (str * str) :=
  match r with
  | Chr c =>
      match s with
      | x :: rest => if (x =? c)%N then [([x], rest)] else []
      | [] => []
      end
  | Rng lo hi =>
      match s with
      | x :: rest => if ((lo <=? x) && (x <=? hi))%N then [([x], rest)] else []
      | [] => []
      end
  | Dig =>
      match s with
      | x :: rest => if Unicode.isdecimal_char x then [([x], rest)] else []
      | [] => []
      end
  | Seq r1 r2 =>
      flat_map
        (fun '(m1, rest1) =>
           map (fun '(m2, rest2) => (m1 ++ m2, rest2)) (rmatch r2 rest1))
        (rmatch r1 s)
  | Alt r1 r2 => rmatch r1 s ++ rmatch r2 s
  end.

Definition chr0 : codepoint := 48%N.
Definition chr1 : codepoint := 49%N.
Definition chr2 : codepoint := 50%N.
Definition chr3 : codepoint := 51%N.
Definition chr9 : codepoint := 57%N.
Definition chr_space : codepoint := 32%N.
Definition chr_dot : codepoint := 46%N.

Definition re_d : regex :=
  Alt (Seq (Chr chr3) (Rng chr0 chr1))
   (Alt (Seq (Rng chr1 chr2) Dig)
    (Alt (Seq (Chr chr0) (Rng chr1 chr9))
     (Alt (Rng chr1 chr9)
          (Seq (Chr chr_space) (Rng chr1 chr9))))).

Definition re_m : regex :=
  Alt (Seq (Chr chr1) (Rng chr0 chr2))
   (Alt (Seq (Chr chr0) (Rng chr1 chr9))
        (Rng chr1 chr9)).

Definition re_Y : regex := Seq Dig (Seq Dig (Seq Dig Dig)).

(** A group of the pattern followed by the dot: the ways to match it,
    each with the text after the dot. *)
Definition then_dot (ms : list (str * str)) : list (str * str) :=
  flat_map
    (fun '(g, s1) => map (fun '(_, s2) => (g, s2)) (rmatch (Chr chr_dot) s1))
    ms.

(** The groups [d], [m], [Y] of every way to match the whole pattern,
    with the text left over. *)
Definition format_matches (s : str) : list (str * str * str * str) :=
  flat_map (fun '(gd, s2) =>
  flat_map (fun '(gm, s4) =>
  map (fun '(gY, s5) => (gd, gm, gY, s5)) (rmatch re_Y s4))
    (then_dot (rmatch re_m s2)))
    (then_dot (rmatch re_d s)).

(** [int(text)] of a group: decimal digits of any script, after blanks. *)
Fixpoint int_digits (acc : Z) (s : str) : option Z :=
  match s with
  | [] => Some acc
  | c :: rest =>
      match Unicode.decimal_value c with
      | Some v => int_digits (acc * 10 + v) rest
      | None => None
      end
  end.

Fixpoint lstrip (s : str) : str :=
  match s with
  | c :: rest => if (c =? chr_space)%N then lstrip rest else s
  | [] => []
  end.

Definition int (s : str) : result Z :=
  match lstrip s with
  | [] => Raise (ValueError (py "invalid literal for int() with base 10"))
  | t =>
      match int_digits 0 t with
      | Some n => Ok n
      | None => Raise (ValueError (py "invalid literal for int() with base 10"))
      end
  end.

(** [datetime.strptime(s, '%d.%m.%Y')].  The two messages of a failed
    match quote the text; no caller in the program looks at them. *)
Definition strptime_dmY (s : str) : result datetime :=
  match format_matches s with
  | [] =>
      Raise (ValueError
               (py "time data '" ++ s
                   ++ py "' does not match format '%d.%m.%Y'"))
  | (gd, gm, gY, rest) :: _ =>
      match rest with
      | _ :: _ => Raise (ValueError (py "unconverted data remains: " ++ rest))
      | [] =>
          y <- int gY ;;
          m <- int gm ;;
          d <- int gd ;;
          dd <- date_new y m d ;;
          Ok (mkdatetime dd 0 0 0 0)
      end
  end.

End Datetime.

Import Datetime.

(** ** Validated fields

    A class of fields is its validity predicate and the message of its
    validation error; [Field] itself has no message and falls back on a
    default one.  An object of the class is made by the setter of
    [value], which raises on a value that is not valid. *)

Record FieldClass : Type := {
  is_valid : str -> bool;
  validation_error_message : option str
}.

Definition Field : FieldClass :=
  {| is_valid := truthy; validation_error_message := None |}.

Definition Name : FieldClass :=
  {| is_valid := is_valid Field;
     validation_error_message := Some (py "Ім'я не може бути порожнім") |}.

Definition Phone : FieldClass :=
  {| is_valid := fun value =>
       Unicode.isdigit value && (Z.of_nat (List.length value) =? 10);
     validation_error_message := Some (py "Телефон має містити 10 цифр") |}.

(** The setter of [Field.value]; the result is the new [_value]. *)
Definition Field_set_value (C : FieldClass) (new_value : str) : result str :=
  if negb (is_valid C new_value) then
    let error_message :=
      match validation_error_message C with
      | Some m => m
      | None => py "Неваліднe значення"
      end in
    Raise (ValueError (error_message ++ py ": '" ++ new_value ++ py "'"))
  else Ok new_value.

(** The validation error of a phone. *)
Definition Phone_error (s : str) : exn :=
  ValueError (py "Телефон має містити 10 цифр" ++ py ": '" ++ s ++ py "'").

(** [C(value)]: the constructor only sets the value. *)
Definition Field_init (C : FieldClass) (value : str) : result str :=
  Field_set_value C value.

(** [str(field)] *)
Definition Field_str (_value : str) : str := _value.

(** *** Birthday

    A birthday takes a [datetime] as it is, and a string through
    [strptime]; it holds a [datetime]. *)

Inductive birthday_arg : Type :=
| ArgStr (s : str)
| ArgDatetime (d : datetime).

Definition Birthday_message : str :=
  py "Невірний формат дати. Використовуйте DD.MM.YYYY".

Definition Birthday_is_valid (value : birthday_arg) : result bool :=
  match value with
  | ArgDatetime _ => Ok false
  | ArgStr s =>
      match strptime_dmY s with
      | Ok _ => Ok true
      | Raise (ValueError _) | Raise (TypeError _) => Ok false
      | Raise e => Raise e
      end
  end.

Definition Birthday_set_value (new_value : birthday_arg) : result datetime :=
  match new_value with
  | ArgDatetime d => Ok d
  | ArgStr s =>
      valid <- Birthday_is_valid new_value ;;
      if negb valid then
        Raise (ValueError (Birthday_message ++ py ": '" ++ s ++ py "'"))
      else
        match strptime_dmY s with
        | Ok d => Ok d
        | Raise (ValueError _) | Raise (TypeError _) =>
            Raise (ValueError (Birthday_message ++ py ": '" ++ s ++ py "'"))
        | Raise e => Raise e
        end
  end.

Definition Birthday_init (value : birthday_arg) : result datetime :=
  Birthday_set_value value.

(** [str(birthday)]: the stored [datetime] of a birthday that was built is
    always there and always true, so that the text for a missing value is
    never produced. *)
Definition Birthday_str (sty : year_style) (_value : datetime) : str :=
  strftime_dmY sty (dt_date _value).

(** ** Python containers *)

(** [xs.remove(x)]: the first element equal to [x] goes. *)
Fixpoint list_remove (x : str) (xs : list str) : result (list str) :=
  match xs with
  | [] => Raise (ValueError (py "list.remove(x): x not in list"))
  | y :: rest =>
      if eqb y x then Ok rest
      else rest' <- list_remove x rest ;; Ok (y :: rest')
  end.

(** [xs[i] = v] at a place that exists. *)
Fixpoint list_set {A : Type} (i : nat) (v : A) (xs : list A) : list A :=
  match xs, i with
  | [], _ => []
  | _ :: rest, O => v :: rest
  | x :: rest, S i => x :: list_set i v rest
  end.

(** A [dict] with string keys keeps its keys in the order they came in;
    a key that is set again keeps its place. *)
Section Dict.

Context {V : Type}.

Definition dict : Type := list (str * V).

Fixpoint dict_get (k : str) (d : dict) : option V :=
  match d with
  | [] => None
  | (k', v) :: rest => if eqb k' k then Some v else dict_get k rest
  end.

Definition dict_contains (k : str) (d : dict) : bool :=
  match dict_get k d with Some _ => true | None => false end.

Fixpoint dict_set (k : str) (v : V) (d : dict) : dict :=
  match d with
  | [] => [(k, v)]
  | (k', v') :: rest =>
      if eqb k' k then (k', v) :: rest else (k', v') :: dict_set k v rest
  end.

Fixpoint dict_del (k : str) (d : dict) : dict :=
  match d with
  | [] => []
  | (k', v') :: rest =>
      if eqb k' k then rest else (k', v') :: dict_del k rest
  end.

Definition dict_values (d : dict) : list V := map snd d.

End Dict.

Arguments dict V : clear implicits.

(** ** Record

    The state of a [Record] object: the value of its name, the values of
    its phones in the order of [self.phones], and the [datetime] of its
    birthday when it has one.  Every [Phone] object is made inside
    [add_phone] and lives in one list only, so that it is named by its
    place in that list. *)

Record record : Type := mkRecord {
  name : str;
  phones : list str;
  birthday : option datetime
}.

Definition set_phones (self : record) (ps : list str) : record :=
  {| name := name self; phones := ps; birthday := birthday self |}.

Definition set_birthday (self : record) (b : option datetime) : record :=
  {| name := name self; phones := phones self; birthday := b |}.

(** [Record(name_str)] *)
Definition Record_init (name_str : str) : result record :=
  n <- Field_init Name name_str ;;
  Ok {| name := n; phones := []; birthday := None |}.

(** A method runs on the state of its object and leaves a result and the
    state after it, also when it raises. *)
Definition method (A : Type) : Type := record -> result A * record.

Definition add_phone (phone_number_str : str) : method bool :=
  fun self =>
    match Field_init Phone phone_number_str with
    | Ok phone =>
        if negb (mem phone (phones self)) then
          (Ok true, set_phones self (phones self ++ [phone]))
        else (Ok false, self)
    | Raise (ValueError e) =>
        (Raise (ValueError (py "Не вдалося додати телефон "
                              ++ phone_number_str ++ py ": " ++ e)), self)
    | Raise e => (Raise e, self)
    end.

(** [find_phone]: the place of the first phone with this value. *)
Fixpoint find_phone_in (phone_number_str : str) (ps : list str) : option nat :=
  match ps with
  | [] => None
  | p :: rest =>
      if eqb p phone_number_str then Some O
      else option_map S (find_phone_in phone_number_str rest)
  end.

Definition find_phone (phone_number_str : str) (self : record) : option nat :=
  find_phone_in phone_number_str (phones self).

Definition remove_phone (phone_number_str : str) : method unit :=
  fun self =>
    match find_phone phone_number_str self with
    | Some i =>
        let phone_to_remove := nth i (phones self) [] in
        match list_remove phone_to_remove (phones self) with
        | Ok ps => (Ok tt, set_phones self ps)
        | Raise e => (Raise e, self)
        end
    | None =>
        (Raise (ValueError (py "Телефон " ++ phone_number_str
                              ++ py " не знайдено для видалення.")), self)
    end.

Definition edit_phone (old_phone_number_str new_phone_number_str : str)
  : method unit :=
  fun self =>
    match find_phone old_phone_number_str self with
    | None =>
        (Raise (ValueError (py "Старий телефон " ++ old_phone_number_str
                              ++ py " не знайдено.")), self)
    | Some i =>
        let attempt : result unit * record :=
          match Field_init Phone new_phone_number_str with
          | Raise e => (Raise e, self)
          | Ok new_phone_temp =>
              if negb (eqb new_phone_temp old_phone_number_str)
                 && mem new_phone_temp (phones self)
              then
                (Raise (ValueError (py "Новий номер " ++ new_phone_temp
                                      ++ py " вже є у списку.")), self)
              else
                match Field_set_value Phone new_phone_number_str with
                | Ok v => (Ok tt, set_phones self (list_set i v (phones self)))
                | Raise e => (Raise e, self)
                end
          end in
        match attempt with
        | (Raise (ValueError e), self') =>
            (Raise (ValueError (py "Не вдалося змінити телефон: " ++ e)), self')
        | other => other
        end
    end.

Definition add_birthday (birthday_str : str) : method unit :=
  fun self =>
    match Birthday_init (ArgStr birthday_str) with
    | Ok new_birthday => (Ok tt, set_birthday self (Some new_birthday))
    | Raise (ValueError e) =>
        (Raise (ValueError (py "Не вдалося встановити день народження: "
                              ++ e)), self)
    | Raise e => (Raise e, self)
    end.

(** [str(record)] *)
Definition Record_str (sty : year_style) (self : record) : str :=
  let phones_str :=
    match phones self with
    | [] => py "Немає телефонів"
    | ps => join (py "; ") ps
    end in
  let birthday_str :=
    match birthday self with
    | Some b => py ", День народження: " ++ Birthday_str sty b
    | None => []
    end in
  py "Контакт: " ++ name self ++ py ", Телефони: " ++ phones_str
     ++ birthday_str.

(** ** AddressBook

    [self.data] maps a name to a [Record] object.  Objects have an
    identity; their states live in the world the book is used in, with
    the clock of the machine and its C library. *)

Definition ref : Type := nat.

Record World : Type := mkWorld {
  objects : ref -> record;   (* the state of every [Record] object *)
  clock : datetime;          (* what [datetime.today()] returns *)
  libc : year_style
}.

Definition AddressBook : Type := dict ref.

(** The line that [add_record] prints when the name is taken. *)
Definition overwrite_notice (key : str) : str :=
  py "Увага: Контакт " ++ key ++ py " вже існує. Дані може бути оновлено.".

(** [add_record]: the result, the book after the call, and the lines
    printed.  Only [Record] objects can be passed, their type being
    [ref]. *)
Definition add_record (w : World) (r : ref) (self : AddressBook)
  : result unit * AddressBook * list str :=
  let key := name (objects w r) in
  let printed :=
    if dict_contains key self then [overwrite_notice key] else [] in
  (Ok tt, dict_set key r self, printed).

Definition find (name_str : str) (self : AddressBook) : option ref :=
  dict_get name_str self.

Definition delete (name_str : str) (self : AddressBook)
  : result unit * AddressBook :=
  if dict_contains name_str self then (Ok tt, dict_del name_str self)
  else
    (Raise (KeyError (py "Контакт '" ++ name_str
                        ++ py "' не знайдено для видалення.")), self).

(** *** The upcoming birthdays *)

Record entry : Type := mkEntry {
  item_name : str;
  congratulation_date_str : str;
  congratulation_weekday : str
}.

Definition days_in_advance : Z := 7.

(** The birthday in the year of [today], or in the next year when that
    day is over. *)
Definition birthday_this_year (today bday_date : date) : result date :=
  this_year <- replace_year bday_date (year today) ;;
  if date_ltb this_year today then replace_year bday_date (year today + 1)
  else Ok this_year.

(** The day to congratulate on: a weekend moves to Monday. *)
Definition congratulation_date (this_year : date) : result date :=
  let bday_weekday := weekday this_year in
  if bday_weekday =? 5 then add_days this_year 2
  else if bday_weekday =? 6 then add_days this_year 1
  else Ok this_year.

(** One turn of the loop over the records: what it appends, if
    anything. *)
Definition upcoming_of (sty : year_style) (today : date) (r : record)
  : result (option entry) :=
  match birthday r with
  | None => Ok None
  | Some value =>
      let bday_date := dt_date value in
      this_year <- birthday_this_year today bday_date ;;
      let delta_days := sub_days this_year today in
      if (0 <=? delta_days) && (delta_days <? days_in_advance) then
        congrats_date <- congratulation_date this_year ;;
        Ok (Some {| item_name := name r;
                    congratulation_date_str := strftime_dmY sty congrats_date;
                    congratulation_weekday := strftime_A congrats_date |})
      else Ok None
  end.

Fixpoint upcoming_loop (sty : year_style) (today : date)
  (records : list record) (upcoming_birthdays : list entry)
  : result (list entry) :=
  match records with
  | [] => Ok upcoming_birthdays
  | r :: rest =>
      o <- upcoming_of sty today r ;;
      upcoming_loop sty today rest
        (match o with
         | Some item => upcoming_birthdays ++ [item]
         | None => upcoming_birthdays
         end)
  end.

(** Grouping by the name of the day. *)
Definition group_step (grouped_birthdays : dict (list str)) (item : entry)
  : dict (list str) :=
  let day_name := congratulation_weekday item in
  let grouped_birthdays :=
    if negb (dict_contains day_name grouped_birthdays)
    then dict_set day_name [] grouped_birthdays
    else grouped_birthdays in
  match dict_get day_name grouped_birthdays with
  | Some names => dict_set day_name (names ++ [item_name item]) grouped_birthdays
  | None => grouped_birthdays
  end.

Definition group_by_day (upcoming_birthdays : list entry) : dict (list str) :=
  fold_left group_step upcoming_birthdays [].

Definition week_order : list str :=
  [py "Monday"; py "Tuesday"; py "Wednesday"; py "Thursday"; py "Friday"].

(** The groups that are written out, in the order of the week. *)
Definition emitted_groups (grouped_birthdays : dict (list str))
  : list (str * list str) :=
  flat_map
    (fun day =>
       match dict_get day grouped_birthdays with
       | Some names => [(day, names)]
       | None => []
       end)
    week_order.

Definition render_group (g : str * list str) : str :=
  fst g ++ py ": " ++ join (py ", ") (snd g).

(** The query up to the groups it writes out ... *)
Definition upcoming_groups (self : AddressBook) (w : World)
  : result (list (str * list str)) :=
  let today := dt_date (clock w) in
  upcoming_birthdays <-
    upcoming_loop (libc w) today (map (objects w) (dict_values self)) [] ;;
  let grouped_birthdays := group_by_day upcoming_birthdays in
  Ok (emitted_groups grouped_birthdays).

(** ... and the query: one line for each group. *)
Definition get_upcoming_birthdays (self : AddressBook) (w : World)
  : result (list str) :=
  groups <- upcoming_groups self w ;;
  Ok (map render_group groups).

(** ** States of a record and of the book *)

(** The phones of a record: no value twice, every value a valid phone. *)
Definition phones_ok (r : record) : Prop :=
  NoDup (phones r)
  /\ Forall (fun p => is_valid Phone p = true) (phones r).

(** The records that the public operations can make: a new record, and a
    record after any call of a method, whether it returned or raised. *)
Inductive reachable : record -> Prop :=
| reach_init (name_str : str) (r : record) :
    Record_init name_str = Ok r -> reachable r
| reach_add_phone (s : str) (r : record) :
    reachable r -> reachable (snd (add_phone s r))
| reach_remove_phone (s : str) (r : record) :
    reachable r -> reachable (snd (remove_phone s r))
| reach_edit_phone (old new : str) (r : record) :
    reachable r -> reachable (snd (edit_phone old new r))
| reach_add_birthday (s : str) (r : record) :
    reachable r -> reachable (snd (add_birthday s r)).

(** ** What the loop of the query appends *)

Definition appended (o : option entry) : list entry :=
  match o with Some item => [item] | None => [] end.

(** The rule of the weekend for the item made for the record [r]: the
    day recorded is the birthday of this year, moved by two days from a
    Saturday and by one day from a Sunday. *)
Definition follows_weekend_rule (sty : year_style) (today : date)
  (r : record) (item : entry) : Prop :=
  exists value this_year congrats,
    birthday r = Some value
    /\ birthday_this_year today (dt_date value) = Ok this_year
    /\ item_name item = name r
    /\ congratulation_date_str item = strftime_dmY sty congrats
    /\ congratulation_weekday item = strftime_A congrats
    /\ valid_date congrats
    /\ (weekday this_year = 5 ->
        add_days this_year 2 = Ok congrats
        /\ toordinal congrats = toordinal this_year + 2)
    /\ (weekday this_year = 6 ->
        add_days this_year 1 = Ok congrats
        /\ toordinal congrats = toordinal this_year + 1)
    /\ (0 <= weekday this_year <= 4 -> congrats = this_year)
    /\ weekday congrats <> 5 /\ weekday congrats <> 6.

(** The window of the query for a record: it has a birthday, the
    birthday can be placed in this year or the next, and it is today or
    on one of the six days after. *)
Definition in_window (today : date) (r : record) : Prop :=
  exists value this_year,
    birthday r = Some value
    /\ birthday_this_year today (dt_date value) = Ok this_year
    /\ 0 <= sub_days this_year today < 7.


(** The names of the items of one day, in order. *)
Definition names_on (day : str) (upcoming : list entry) : list str :=
  map item_name
    (filter (fun item => eqb (congratulation_weekday item) day) upcoming).

(** An item without its date, which the grouping does not read. *)
Definition erase (item : entry) : entry :=
  {| item_name := item_name item;
     congratulation_date_str := [];
     congratulation_weekday := congratulation_weekday item |}.

Definition result_map {A B : Type} (f : A -> B) (r : result A) : result B :=
  match r with
  | Ok a => Ok (f a)
  | Raise e => Raise e
  end.

(** ** The text of a birthday *)

Definition at_midnight (y m d : Z) : datetime :=
  mkdatetime (mkdate y m d) 0 0 0 0.

(** The validation error of a birthday. *)
Definition Birthday_error (s : str) : exn :=
  ValueError (Birthday_message ++ py ": '" ++ s ++ py "'").

(** The text [DD.MM.YYYY] of eight characters and two dots. *)
Definition exact_text (d1 d2 m1 m2 y1 y2 y3 y4 : codepoint) : str :=
  [d1; d2; chr_dot; m1; m2; chr_dot; y1; y2; y3; y4].

Definition ascii_digits (cs : list codepoint) : Prop :=
  Forall (fun c => Unicode.ascii_digit c = true) cs.

(** The exact format: the eight characters are ASCII digits. *)
Definition exact_format (s : str) : Prop :=
  exists d1 d2 m1 m2 y1 y2 y3 y4,
    s = exact_text d1 d2 m1 m2 y1 y2 y3 y4
    /\ ascii_digits [d1; d2; m1; m2; y1; y2; y3; y4].

(** The numbers that ASCII digits write. *)
Definition digit_of (c : codepoint) : Z := Z.of_N c - 48.

Definition two_digits (a b : codepoint) : Z := 10 * digit_of a + digit_of b.

Definition four_digits (a b c d : codepoint) : Z :=
  1000 * digit_of a + 100 * digit_of b + 10 * digit_of c + digit_of d.

(** The decimal digits of a number below 100 and below 10000, as tests
    over these numbers. *)
Definition two_digits_ok (n : Z) : bool :=
  eqb (Decimal.zero_padded 2 n)
      [Decimal.digit_char (n / 10); Decimal.digit_char (n mod 10)].

Definition four_digits_ok (sty : year_style) (n : Z) : bool :=
  match sty with
  | YearPlain => n <? 1000
  | YearPadded => false
  end
  || eqb (strftime_Y sty n)
       [Decimal.digit_char (n / 1000); Decimal.digit_char (n / 100 mod 10);
        Decimal.digit_char (n / 10 mod 10); Decimal.digit_char (n mod 10)].

(** ** Sample data *)

Definition sample_objects (r : ref) : record :=
  match r with
  | 0%nat => mkRecord (py "Ann") [] (Some (at_midnight 1990 1 13))
  | 1%nat => mkRecord (py "Bob") [] (Some (at_midnight 1985 1 9))
  | 2%nat => mkRecord (py "Fay") [] (Some (at_midnight 2024 2 29))
  | _ => mkRecord (py "Eve") [] None
  end.

Definition sample_book : AddressBook :=
  [(py "Ann", 0%nat); (py "Bob", 1%nat); (py "Eve", 3%nat)].

Definition leap_day_book : AddressBook :=
  [(py "Ann", 0%nat); (py "Fay", 2%nat)].

Definition world_at (y m d : Z) : World :=
  mkWorld sample_objects (mkdatetime (mkdate y m d) 9 30 0 0) YearPlain.

(** ** Further states and readings *)

(** The keys of a book, in the order of the dictionary. *)
Definition book_keys (self : AddressBook) : list str := map fst self.

(** The books that [add_record] and [delete] make from the empty book,
    whatever the records are at the time of each call. *)
Inductive built : AddressBook -> Prop :=
| built_empty : built []
| built_add_record (w : World) (r : ref) (self : AddressBook) :
    built self -> built (snd (fst (add_record w r self)))
| built_delete (name_str : str) (self : AddressBook) :
    built self -> built (snd (delete name_str self)).

(** The day under which the query lists a record, when it lists it. *)
Definition day_of (sty : year_style) (today : date) (r : record)
  : option str :=
  match upcoming_of sty today r with
  | Ok (Some item) => Some (congratulation_weekday item)
  | _ => None
  end.

Definition on_day (sty : year_style) (today : date) (day : str) (r : record)
  : bool :=
  match day_of sty today r with
  | Some d => eqb d day
  | None => false
  end.

(** The list without its element at the place [i]. *)
Definition without {A : Type} (i : nat) (xs : list A) : list A :=
  firstn i xs ++ skipn (S i) xs.

(** The shortest and the longest text that a pattern matches. *)
Fixpoint min_len (r : regex) : nat :=
  match r with
  | Chr _ | Rng _ _ | Dig => 1
  | Seq r1 r2 => min_len r1 + min_len r2
  | Alt r1 r2 => Nat.min (min_len r1) (min_len r2)
  end.

Fixpoint max_len (r : regex) : nat :=
  match r with
  | Chr _ | Rng _ _ | Dig => 1
  | Seq r1 r2 => max_len r1 + max_len r2
  | Alt r1 r2 => Nat.max (max_len r1) (max_len r2)
  end.

(** ** The texts that make a birthday *)

Definition between (lo hi c : codepoint) : bool :=
  ((lo <=? c) && (c <=? hi))%N.

(** The day as [%d] reads it: [1] to [9] alone, after a zero or after a
    space; [1] or [2] and a decimal digit of any script; [3] and [0] or
    [1]. *)
Definition day_text (g : str) : bool :=
  match g with
  | [a] => between chr1 chr9 a
  | [a; b] =>
      (a =? chr3)%N && between chr0 chr1 b
      || between chr1 chr2 a && Unicode.isdecimal_char b
      || (a =? chr0)%N && between chr1 chr9 b
      || (a =? chr_space)%N && between chr1 chr9 b
  | _ => false
  end.

(** The month as [%m] reads it: [1] to [9] alone or after a zero; [1]
    and [0], [1] or [2]. *)
Definition month_text (g : str) : bool :=
  match g with
  | [a] => between chr1 chr9 a
  | [a; b] =>
      (a =? chr1)%N && between chr0 chr2 b
      || (a =? chr0)%N && between chr1 chr9 b
  | _ => false
  end.

(** The year as [%Y] reads it: four decimal digits of any script. *)
Definition year_text (g : str) : bool :=
  (List.length g =? 4)%nat && forallb Unicode.isdecimal_char g.

(** The texts of a birthday and the date that each one writes: a day, a
    dot, a month, a dot and a year, and nothing more, where the numbers
    that [int] reads in the three parts are a date of the calendar. *)
Definition birthday_text (s : str) (dt : datetime) : Prop :=
  exists gd gm gY y m d,
    s = gd ++ [chr_dot] ++ gm ++ [chr_dot] ++ gY
    /\ day_text gd = true /\ month_text gm = true /\ year_text gY = true
    /\ int gd = Ok d /\ int gm = Ok m /\ int gY = Ok y
    /\ check_date_fields y m d = true
    /\ dt = at_midnight y m d.

(** ** The commands of the assistant

    A command works on the book and on the [Record] objects that the
    book holds, and gives a text back.  A method called on an object
    changes the state of that object, for everyone who holds it. *)

Record Bot : Type := mkBot {
  book : AddressBook;
  world : World
}.

Definition set_object (r : ref) (v : record) (w : World) : World :=
  mkWorld (fun r' => if Nat.eqb r' r then v else objects w r')
          (clock w) (libc w).

(** [obj.method(...)] on the object [r]. *)
Definition call {A : Type} (r : ref) (m : method A) (w : World)
  : result A * World :=
  let '(res, v) := m (objects w r) in (res, set_object r v w).

(** A new object is none of the objects of the book. *)
Definition new_object (self : AddressBook) : ref :=
  S (list_max (dict_values self)).

(** [sub in s] for two texts. *)
Fixpoint starts_with (sub s : str) : bool :=
  match sub, s with
  | [], _ => true
  | a :: sub', b :: s' => (a =? b)%N && starts_with sub' s'
  | _ :: _, [] => false
  end.

Fixpoint contains (sub s : str) : bool :=
  starts_with sub s
  || match s with
     | [] => false
     | _ :: s' => contains sub s'
     end.

(** [str(book)] *)
Definition AddressBook_str (self : AddressBook) (w : World) : str :=
  match self with
  | [] => py "Ваша адресна книга ще порожня."
  | _ => join [10%N]
           (map (fun r => Record_str (libc w) (objects w r))
              (dict_values self))
  end.

(** [datetime + timedelta(days=k)]: the date moves, the time stays. *)
Definition datetime_add_days (dt : datetime) (k : Z) : result datetime :=
  d <- add_days (dt_date dt) k ;;
  Ok (mkdatetime d (dt_hour dt) (dt_minute dt) (dt_second dt)
        (dt_microsecond dt)).

Definition Record_add_birthday : str -> method unit := add_birthday.

Module Handlers.

Section WithRepr.

(** [repr] of a text, which [str] of a KeyError gives for its key: the
    text between quotes, with escapes that depend on the Unicode
    database.  It is left open here. *)
Variable repr : str -> str.

(** The decorator [input_error] on the outcome of a command: a result
    is passed on, an exception becomes a text.  (No command of the
    program raises IndexError.) *)
Definition input_error (r : result str) : str :=
  match r with
  | Ok text => text
  | Raise (ValueError e) => py "Помилка! " ++ e
  | Raise (KeyError k) =>
      py "На жаль, контакт '" ++ repr k ++ py "' не знайдено."
  | Raise (TypeError e) => py "Помилка типу даних: " ++ e
  | Raise (OverflowError e) => py "Сталася несподівана помилка: " ++ e
  end.

(** A command gives its text, the state after it and the lines that
    were printed on the way. *)
Definition reply : Type := str * Bot * list str.

Definition answer (r : result str) (st : Bot) (printed : list str) : reply :=
  (input_error r, st, printed).

Definition add_contact (args : list str) (st : Bot) : reply :=
  match args with
  | [name; phone_str] =>
      let add (record : ref) (message : str) (st : Bot)
              (printed : list str) : reply :=
        let '(res, w) := call record (add_phone phone_str) (world st) in
        let st := mkBot (book st) w in
        match res with
        | Raise e => answer (Raise e) st printed
        | Ok true =>
            if contains (py "додано") message then
              answer (Ok (message ++ py " з телефоном " ++ phone_str
                                  ++ py ".")) st printed
            else
              answer (Ok (py "До контакту " ++ name
                             ++ py " додано новий телефон " ++ phone_str
                             ++ py ".")) st printed
        | Ok false =>
            if contains (py "додано") message then
              answer (Ok message) st printed
            else
              answer (Ok (py "Телефон " ++ phone_str
                             ++ py " вже існує для контакту " ++ name
                             ++ py ".")) st printed
        end in
      match find name (book st) with
      | Some record =>
          add record
            (py "Телефон " ++ phone_str ++ py " оновлено для контакту "
                ++ name ++ py ".") st []
      | None =>
          match Record_init name with
          | Raise e => answer (Raise e) st []
          | Ok v =>
              let record := new_object (book st) in
              let w := set_object record v (world st) in
              let '(_, book', printed) := add_record w record (book st) in
              add record (py "Контакт " ++ name ++ py " успішно додано.")
                (mkBot book' w) printed
          end
      end
  | _ =>
      answer
        (Raise (ValueError (py "Потрібно вказати ім'я та телефон (10 цифр).")))
        st []
  end.

Definition change_contact (args : list str) (st : Bot) : reply :=
  match args with
  | [name; old_phone; new_phone] =>
      match find name (book st) with
      | None => answer (Raise (KeyError name)) st []
      | Some record =>
          let '(res, w) :=
            call record (edit_phone old_phone new_phone) (world st) in
          let st := mkBot (book st) w in
          match res with
          | Raise e => answer (Raise e) st []
          | Ok _ =>
              answer (Ok (py "Телефон для " ++ name
                             ++ py " успішно змінено з " ++ old_phone
                             ++ py " на " ++ new_phone ++ py ".")) st []
          end
      end
  | _ =>
      answer
        (Raise (ValueError
                  (py "Вкажіть ім'я, старий телефон та новий телефон.")))
        st []
  end.

Definition show_phone (args : list str) (st : Bot) : reply :=
  match args with
  | [name] =>
      match find name (book st) with
      | None => answer (Raise (KeyError name)) st []
      | Some record =>
          match phones (objects (world st) record) with
          | [] =>
              answer (Ok (py "У контакту " ++ name
                             ++ py " немає збережених телефонів.")) st []
          | ps =>
              answer (Ok (py "Телефони контакту " ++ name ++ py ": "
                             ++ join (py ", ") ps)) st []
          end
      end
  | _ =>
      answer (Raise (ValueError (py "Потрібно вказати ім'я контакту."))) st []
  end.

Definition show_all (st : Bot) : reply :=
  match book st with
  | [] => answer (Ok (py "Адресна книга порожня.")) st []
  | _ => answer (Ok (AddressBook_str (book st) (world st))) st []
  end.

Definition add_birthday (args : list str) (st : Bot) : reply :=
  match args with
  | [name; birthday_str] =>
      match find name (book st) with
      | None => answer (Raise (KeyError name)) st []
      | Some record =>
          let '(res, w) :=
            call record (Record_add_birthday birthday_str) (world st) in
          let st := mkBot (book st) w in
          match res with
          | Raise e => answer (Raise e) st []
          | Ok _ =>
              answer (Ok (py "День народження " ++ birthday_str
                             ++ py " додано для контакту " ++ name
                             ++ py ".")) st []
          end
      end
  | _ =>
      answer
        (Raise (ValueError
                  (py "Вкажіть ім'я та день народження у форматі DD.MM.YYYY.")))
        st []
  end.

Definition show_birthday (args : list str) (st : Bot) : reply :=
  match args with
  | [name] =>
      match find name (book st) with
      | None => answer (Raise (KeyError name)) st []
      | Some record =>
          match birthday (objects (world st) record) with
          | None =>
              answer (Ok (py "У контакту " ++ name
                             ++ py " не вказано день народження.")) st []
          | Some b =>
              answer (Ok (py "День народження " ++ name ++ py ": "
                             ++ Birthday_str (libc (world st)) b)) st []
          end
      end
  | _ => answer (Raise (ValueError (py "Вкажіть ім'я контакту."))) st []
  end.

(** [birthdays].  The clock is read several times in the branch without
    birthdays; it is taken to show the same date at every reading, as
    it does unless midnight falls between two of them. *)
Definition birthdays (args : list str) (st : Bot) : reply :=
  match args with
  | _ :: _ =>
      answer
        (Raise (ValueError (py "Команда 'birthdays' не приймає аргументів.")))
        st []
  | [] =>
      match get_upcoming_birthdays (book st) (world st) with
      | Raise e => answer (Raise e) st []
      | Ok [] =>
          let today := clock (world st) in
          let days_until_monday := (7 - weekday (dt_date today)) mod 7 in
          match datetime_add_days today days_until_monday with
          | Raise e => answer (Raise e) st []
          | Ok next_monday =>
              let next_monday_date :=
                strftime_dmY (libc (world st)) (dt_date next_monday) in
              if weekday (dt_date today) =? 0 then
                answer
                  (Ok (py "Цього тижня (до наступного понеділка) днів народження немає."))
                  st []
              else
                answer
                  (Ok (py "На наступному тижні (з " ++ next_monday_date
                          ++ py ") днів народження немає.")) st []
          end
      | Ok upcoming =>
          answer
            (Ok (py "Наступні дні народження (привітання на робочий день):"
                    ++ [10%N] ++ join [10%N] upcoming)) st []
      end
  end.

End WithRepr.

End Handlers.

(** [repr] of a text of letters and digits: the text between quotes. *)
Definition quoted (s : str) : str := py "'" ++ s ++ py "'".

(** Two states with the same book and the same objects. *)
Definition same_state (a b : Bot) : Prop :=
  book a = book b
  /\ (forall r, objects (world a) r = objects (world b) r)
  /\ clock (world a) = clock (world b)
  /\ libc (world a) = libc (world b).

(** The state after a call that leaves the object [r] in the state [v]
    and touches nothing else. *)
Definition only_object_changed (r : ref) (v : record) (before after : Bot)
  : Prop :=
  book after = book before
  /\ objects (world after) r = v
  /\ (forall r', r' <> r ->
        objects (world after) r' = objects (world before) r')
  /\ clock (world after) = clock (world before)
  /\ libc (world after) = libc (world before).

Definition sample_bot : Bot := mkBot sample_book (world_at 2024 1 10).

(** ** Reading a line *)

Module Input.

(** The white space of [str.split] and [str.strip] without arguments:
    the characters that [str.isspace] holds for (Unicode 14.0.0). *)
Definition isspace_char (c : codepoint) : bool :=
  ((9 <=? c) && (c <=? 13) || (28 <=? c) && (c <=? 32)
   || (c =? 133) || (c =? 160) || (c =? 5760)
   || (8192 <=? c) && (c <=? 8202)
   || (c =? 8232) || (c =? 8233) || (c =? 8239) || (c =? 8287)
   || (c =? 12288))%N.

(** [s.split()]: the words between runs of white space; [word] is the
    word that is being read. *)
Fixpoint split_from (word s : str) : list str :=
  match s with
  | [] => match word with [] => [] | _ => [word] end
  | c :: rest =>
      if isspace_char c then
        match word with
        | [] => split_from [] rest
        | _ => word :: split_from [] rest
        end
      else split_from (word ++ [c]) rest
  end.

Definition split (s : str) : list str := split_from [] s.

(** [s.strip()] *)
Fixpoint lstrip (s : str) : str :=
  match s with
  | c :: rest => if isspace_char c then lstrip rest else s
  | [] => []
  end.

Definition rstrip (s : str) : str := rev (lstrip (rev s)).

Definition strip (s : str) : str := rstrip (lstrip s).

Section WithLower.

(** [str.lower], which follows the Unicode database.  It is left open
    here. *)
Variable lower : str -> str.

(** [parse_input]: [None] is the IndexError of [parts[0]]. *)
Definition parse_input (user_input : str) : option (str * list str) :=
  let parts := split user_input in
  match parts with
  | [] => None
  | first :: args => Some (lower (strip first), args)
  end.

End WithLower.

End Input.

(** A text without white space. *)
Definition no_space (s : str) : Prop :=
  Forall (fun c => Input.isspace_char c = false) s.

(** A word: a text that is not empty and has no white space. *)
Definition word (s : str) : Prop := s <> [] /\ no_space s.

(** A blank text: nothing but white space. *)
Definition blank (s : str) : Prop :=
  Forall (fun c => Input.isspace_char c = true) s.

(** * Properties *)

Arguments py : simpl never.

(** ** Text *)

Lemma eqb_eq (a b : str) : eqb a b = true <-> a = b.
Proof.
  unfold eqb. destruct (list_eq_dec N.eq_dec a b); split; congruence.
Qed.

Lemma eqb_refl (a : str) : eqb a a = true.
Proof. now apply eqb_eq. Qed.

Lemma eqb_neq (a b : str) : eqb a b = false <-> a <> b.
Proof.
  unfold eqb. destruct (list_eq_dec N.eq_dec a b); split; congruence.
Qed.

Lemma mem_In (x : str) (xs : list str) : mem x xs = true <-> In x xs.
Proof.
  unfold mem. rewrite existsb_exists. split.
  - intros [y [Hy E]]. apply eqb_eq in E. now subst.
  - intros H. exists x. split; [assumption | apply eqb_refl].
Qed.

Lemma mem_not_In (x : str) (xs : list str) : mem x xs = false <-> ~ In x xs.
Proof.
  rewrite <- mem_In. destruct (mem x xs); split; congruence.
Qed.

(** ** Lists and dictionaries *)

Section DictFacts.

Context {V : Type}.

Lemma dict_get_set_same (k : str) (v : V) (d : dict V) :
  dict_get k (dict_set k v d) = Some v.
Proof.
  induction d as [|[k' v'] d IH]; simpl.
  - now rewrite eqb_refl.
  - destruct (eqb k' k) eqn:E; simpl; rewrite E; [reflexivity | exact IH].
Qed.

Lemma dict_get_set_other (k k0 : str) (v : V) (d : dict V) :
  k0 <> k -> dict_get k0 (dict_set k v d) = dict_get k0 d.
Proof.
  intros Hne. induction d as [|[k' v'] d IH]; simpl.
  - destruct (eqb k k0) eqn:E; [apply eqb_eq in E; congruence | reflexivity].
  - destruct (eqb k' k) eqn:E; simpl.
    + apply eqb_eq in E. subst k'.
      destruct (eqb k k0) eqn:E0; [apply eqb_eq in E0; congruence | reflexivity].
    + now rewrite IH.
Qed.

End DictFacts.

Lemma find_phone_in_None (x : str) (ps : list str) :
  find_phone_in x ps = None <-> ~ In x ps.
Proof.
  induction ps as [|p ps IH]; simpl.
  - tauto.
  - destruct (eqb p x) eqn:E.
    + apply eqb_eq in E. split; [discriminate | intros H; exfalso; apply H; now left].
    + apply eqb_neq in E. destruct (find_phone_in x ps); simpl.
      * split; [discriminate |]. intros H.
        assert (Hn : ~ In x ps) by tauto. apply IH in Hn. discriminate.
      * split; [|reflexivity]. intros _ [H|H]; [congruence|]. now apply IH.
Qed.

Lemma find_phone_in_Some (x : str) (ps : list str) (i : nat) :
  find_phone_in x ps = Some i ->
  (i < List.length ps)%nat /\ nth i ps [] = x
  /\ ~ In x (firstn i ps).
Proof.
  revert i. induction ps as [|p ps IH]; simpl; intros i H.
  - discriminate.
  - destruct (eqb p x) eqn:E.
    + injection H as <-. apply eqb_eq in E. simpl. repeat split; [lia | assumption | tauto].
    + destruct (find_phone_in x ps) as [j|] eqn:F; simpl in H; [|discriminate].
      injection H as <-. destruct (IH j eq_refl) as (Hlt & Hnth & Hnot).
      apply eqb_neq in E. simpl. repeat split; [lia | assumption |].
      intros [H|H]; [congruence | tauto].
Qed.

Lemma list_set_length {A : Type} (i : nat) (v : A) (xs : list A) :
  List.length (list_set i v xs) = List.length xs.
Proof.
  revert i. induction xs as [|x xs IH]; intros [|i]; simpl; auto.
Qed.

Lemma list_set_In {A : Type} (i : nat) (v x : A) (xs : list A) :
  In x (list_set i v xs) -> x = v \/ In x xs.
Proof.
  revert i. induction xs as [|y xs IH]; intros [|i]; simpl; auto.
  - intros [H|H]; auto.
  - intros [H|H]; auto. destruct (IH _ H); auto.
Qed.

Lemma list_set_NoDup (i : nat) (v : str) (xs : list str) :
  NoDup xs -> ~ In v xs -> NoDup (list_set i v xs).
Proof.
  revert i. induction xs as [|y xs IH]; intros [|i] Hnd Hv; simpl; auto.
  - inversion Hnd; subst. constructor; [|assumption]. simpl in Hv. tauto.
  - inversion Hnd; subst. simpl in Hv. constructor.
    + intros H. apply list_set_In in H. destruct H; [subst; tauto | tauto].
    + apply IH; tauto.
Qed.

Lemma list_set_nth (i : nat) (xs : list str) :
  list_set i (nth i xs []) xs = xs.
Proof.
  revert i. induction xs as [|y xs IH]; intros [|i]; simpl; auto.
  now rewrite IH.
Qed.

Lemma list_set_Forall {A : Type} (P : A -> Prop) (i : nat) (v : A) (xs : list A) :
  Forall P xs -> P v -> Forall P (list_set i v xs).
Proof.
  revert i. induction xs as [|y xs IH]; intros [|i] H Hv; simpl; auto;
    inversion H; subst; constructor; auto.
Qed.

Lemma list_remove_incl (x : str) (xs ys : list str) :
  list_remove x xs = Ok ys -> forall y, In y ys -> In y xs.
Proof.
  revert ys. induction xs as [|z xs IH]; simpl; intros ys H y Hy.
  - discriminate.
  - destruct (eqb z x).
    + injection H as <-. now right.
    + destruct (list_remove x xs) as [r|e]; simpl in H; [|discriminate].
      injection H as <-. destruct Hy as [->|Hy]; [now left | right; eapply IH; eauto].
Qed.

Lemma list_remove_NoDup (x : str) (xs ys : list str) :
  list_remove x xs = Ok ys -> NoDup xs -> NoDup ys.
Proof.
  revert ys. induction xs as [|z xs IH]; simpl; intros ys H Hnd.
  - discriminate.
  - inversion Hnd; subst. destruct (eqb z x).
    + now injection H as <-.
    + destruct (list_remove x xs) as [r|e] eqn:E; simpl in H; [|discriminate].
      injection H as <-. constructor; [|now apply IH].
      intros Hin. eapply list_remove_incl in Hin; eauto.
Qed.

Lemma list_remove_Forall (P : str -> Prop) (x : str) (xs ys : list str) :
  list_remove x xs = Ok ys -> Forall P xs -> Forall P ys.
Proof.
  intros H HF. rewrite Forall_forall in *. intros y Hy.
  apply HF. eapply list_remove_incl; eauto.
Qed.

(** ** Phone *)

Lemma ascii_digit_isdigit (c : codepoint) :
  Unicode.ascii_digit c = true -> Unicode.isdigit_char c = true.
Proof.
  unfold Unicode.ascii_digit, Unicode.isdigit_char, Unicode.isdecimal_char.
  intros H. apply orb_true_iff. left.
  unfold Unicode.in_ranges, Unicode.decimal_ranges.
  rewrite existsb_exists. exists (48%N, 57%N). split; [now left | exact H].
Qed.

Lemma isdigit_true (s : str) :
  Unicode.isdigit s = true <->
  s <> [] /\ Forall (fun c => Unicode.isdigit_char c = true) s.
Proof.
  unfold Unicode.isdigit. rewrite andb_true_iff, forallb_forall, Forall_forall.
  destruct s; simpl; split; intros [H1 H2]; split; auto; congruence.
Qed.

Lemma Phone_is_valid_true (s : str) :
  is_valid Phone s = true <->
  List.length s = 10%nat /\ Forall (fun c => Unicode.isdigit_char c = true) s.
Proof.
  simpl. rewrite andb_true_iff, isdigit_true, Z.eqb_eq. split.
  - intros [[_ H] L]. split; [lia | assumption].
  - intros [L H]. repeat split; [|assumption | lia].
    intros ->. discriminate.
Qed.

Lemma Phone_init_valid (s : str) :
  is_valid Phone s = true -> Field_init Phone s = Ok s.
Proof.
  intros H. unfold Field_init, Field_set_value. now rewrite H.
Qed.

Lemma Phone_init_invalid (s : str) :
  is_valid Phone s = false -> Field_init Phone s = Raise (Phone_error s).
Proof.
  intros H. unfold Field_init, Field_set_value. now rewrite H.
Qed.

(** C4, as the program has it.  A phone is rejected, with the validation
    error of phones, when its length is not 10 or when one of its
    characters is not a digit for [str.isdigit]; it is accepted, and reads
    back as the same text, when it has 10 characters that are all digits
    for [str.isdigit], which the ten ASCII digits are.  The digits of
    [str.isdigit] are more than the decimal digits. *)
Theorem Phone_construction (s : str) :
  (List.length s <> 10%nat
   \/ Exists (fun c => Unicode.isdigit_char c = false) s ->
   Field_init Phone s = Raise (Phone_error s))
  /\ (List.length s = 10%nat ->
      Forall (fun c => Unicode.isdigit_char c = true) s ->
      exists v, Field_init Phone s = Ok v /\ Field_str v = s)
  /\ (Forall (fun c => Unicode.ascii_digit c = true) s ->
      Forall (fun c => Unicode.isdigit_char c = true) s).
Proof.
  split; [|split].
  - intros H. apply Phone_init_invalid.
    destruct (is_valid Phone s) eqn:E; [|reflexivity].
    apply Phone_is_valid_true in E. destruct E as [L F].
    destruct H as [H|H]; [contradiction|].
    apply Exists_exists in H. destruct H as (c & Hc & Hd).
    rewrite Forall_forall in F. rewrite (F c Hc) in Hd. discriminate.
  - intros L F. exists s. split; [|reflexivity].
    apply Phone_init_valid, Phone_is_valid_true. now split.
  - intros F. eapply Forall_impl; [|exact F].
    intros c. apply ascii_digit_isdigit.
Qed.

Lemma Phone_construction_witness :
  Field_init Phone (py "12345") = Raise (Phone_error (py "12345"))
  /\ (exists v, Field_init Phone (py "0501234567") = Ok v
                /\ Field_str v = py "0501234567")
  /\ Forall (fun c => Unicode.isdigit_char c = true) (py "0501234567").
Proof.
  pose proof (Phone_construction (py "12345")) as (H1 & _ & _).
  pose proof (Phone_construction (py "0501234567")) as (_ & H2 & H3).
  split; [|split].
  - apply H1. left. vm_compute. discriminate.
  - apply H2; [vm_compute; reflexivity|]. apply H3.
    vm_compute. repeat constructor.
  - apply H3. vm_compute. repeat constructor.
Defined.

(** C4, as the claim states it, fails: ten times the superscript two is a
    text of length 10 with a character (each of them) that is not a
    decimal digit, and the phone is built. *)
Lemma Phone_accepts_superscript_digits :
  let s := py "²²²²²²²²²²" in
  (List.length s = 10%nat
   /\ Exists (fun c => Unicode.isdecimal_char c = false
                       /\ Unicode.ascii_digit c = false) s)
  /\ Field_init Phone s = Ok s.
Proof.
  intros s. split; [split|].
  - reflexivity.
  - replace s with (178%N :: tl s) by reflexivity.
    apply Exists_cons_hd. split; reflexivity.
  - reflexivity.
Qed.

(** ** Record *)

(** C6.  A valid phone that the record does not have yet is appended and
    [add_phone] returns True, the list growing by one; the same call
    again returns False and changes nothing; a phone that is not valid
    raises, the state unchanged. *)
Theorem add_phone_outcomes (self : record) (p : str) :
  (is_valid Phone p = true -> ~ In p (phones self) ->
   let self1 := snd (add_phone p self) in
   add_phone p self = (Ok true, set_phones self (phones self ++ [p]))
   /\ List.length (phones self1) = S (List.length (phones self))
   /\ add_phone p self1 = (Ok false, self1))
  /\ (is_valid Phone p = false ->
      exists msg, add_phone p self = (Raise (ValueError msg), self)).
Proof.
  split.
  - intros Hv Hn. unfold add_phone at 1 2.
    rewrite (Phone_init_valid _ Hv).
    assert (Hm : mem p (phones self) = false) by now apply mem_not_In.
    rewrite Hm. simpl. repeat split.
    + rewrite length_app. simpl. lia.
    + unfold add_phone. rewrite (Phone_init_valid _ Hv). simpl.
      assert (Hm1 : mem p (phones self ++ [p]) = true).
      { apply mem_In, in_or_app. right. now left. }
      now rewrite Hm1.
  - intros Hv. unfold add_phone. rewrite (Phone_init_invalid _ Hv).
    unfold Phone_error. eexists. reflexivity.
Qed.

Lemma add_phone_outcomes_witness :
  let self := mkRecord (py "Ann") [py "0671112233"] None in
  let p := py "0501234567" in
  (add_phone p self = (Ok true, set_phones self (phones self ++ [p]))
   /\ List.length (phones (snd (add_phone p self))) = 2%nat
   /\ add_phone p (snd (add_phone p self))
      = (Ok false, snd (add_phone p self)))
  /\ exists msg, add_phone (py "050-123") self = (Raise (ValueError msg), self).
Proof.
  intros self p.
  split.
  - apply (proj1 (add_phone_outcomes self p)).
    + reflexivity.
    + vm_compute. intros [H|[]]. discriminate.
  - apply (proj2 (add_phone_outcomes self (py "050-123"))). reflexivity.
Defined.

(** C7.  [edit_phone] with an old value that no phone of the record has
    raises the error that the old phone was not found, and the record
    after the call is the record before it: the same phones in the same
    order. *)
Theorem edit_phone_not_found (self : record) (old new : str) :
  ~ In old (phones self) ->
  edit_phone old new self
  = (Raise (ValueError (py "Старий телефон " ++ old ++ py " не знайдено.")),
     self)
  /\ phones (snd (edit_phone old new self)) = phones self
  /\ List.length (phones (snd (edit_phone old new self)))
     = List.length (phones self).
Proof.
  intros Hn. apply find_phone_in_None in Hn.
  assert (E : edit_phone old new self
              = (Raise (ValueError (py "Старий телефон " ++ old
                                      ++ py " не знайдено.")), self)).
  { unfold edit_phone, find_phone. now rewrite Hn. }
  rewrite E. auto.
Qed.

Lemma edit_phone_not_found_witness :
  let self := mkRecord (py "Ann") [py "0671112233"; py "0501234567"] None in
  edit_phone (py "0000000000") (py "0999999999") self
  = (Raise (ValueError (py "Старий телефон " ++ py "0000000000"
                          ++ py " не знайдено.")), self)
  /\ phones (snd (edit_phone (py "0000000000") (py "0999999999") self))
     = phones self
  /\ List.length
       (phones (snd (edit_phone (py "0000000000") (py "0999999999") self)))
     = List.length (phones self).
Proof.
  intros self.
  apply (edit_phone_not_found self (py "0000000000") (py "0999999999")).
  vm_compute. intros [H|[H|[]]]; discriminate.
Defined.

(** C10.  Every method keeps the phones of a record without repetition
    and valid, whether it returns or raises, and so they are in every
    record that the public operations can make. *)
Lemma add_phone_keeps (s : str) (r : record) :
  phones_ok r -> phones_ok (snd (add_phone s r)).
Proof.
  intros [Hnd Hv]. unfold add_phone.
  destruct (is_valid Phone s) eqn:E.
  - rewrite (Phone_init_valid _ E).
    destruct (mem s (phones r)) eqn:M; simpl; [now split|].
    apply mem_not_In in M. split; simpl.
    + apply NoDup_app; [assumption | repeat constructor; intros [] |].
      intros x Hx [<-|[]]. contradiction.
    + apply Forall_app. split; [assumption | now constructor].
  - rewrite (Phone_init_invalid _ E). now split.
Qed.

Lemma remove_phone_keeps (s : str) (r : record) :
  phones_ok r -> phones_ok (snd (remove_phone s r)).
Proof.
  intros [Hnd Hv]. unfold remove_phone.
  destruct (find_phone s r) as [i|]; [|now split].
  destruct (list_remove (nth i (phones r) []) (phones r)) as [ps|e] eqn:E;
    [|now split].
  split; simpl.
  - eapply list_remove_NoDup; eauto.
  - eapply list_remove_Forall; eauto.
Qed.

Lemma edit_phone_keeps (old new : str) (r : record) :
  phones_ok r -> phones_ok (snd (edit_phone old new r)).
Proof.
  intros [Hnd Hv]. unfold edit_phone, find_phone.
  destruct (find_phone_in old (phones r)) as [i|] eqn:F; [|now split].
  apply find_phone_in_Some in F. destruct F as (Hi & Hnth & _).
  destruct (is_valid Phone new) eqn:E.
  - rewrite (Phone_init_valid _ E).
    unfold Field_set_value. rewrite E. simpl negb at 2. cbv iota.
    destruct (eqb new old) eqn:Eq; simpl negb; cbv iota.
    + apply eqb_eq in Eq. subst new. simpl andb. cbv iota.
      rewrite <- Hnth at 1. rewrite list_set_nth. now split.
    + destruct (mem new (phones r)) eqn:M; simpl andb; cbv iota; [now split|].
      apply mem_not_In in M. split; simpl.
      * now apply list_set_NoDup.
      * now apply list_set_Forall.
  - rewrite (Phone_init_invalid _ E). unfold Phone_error. now split.
Qed.

Lemma add_birthday_keeps (s : str) (r : record) :
  phones_ok r -> phones_ok (snd (add_birthday s r)).
Proof.
  intros H. unfold add_birthday.
  destruct (Birthday_init (ArgStr s)) as [d|[m|k|m|m]]; exact H.
Qed.

Theorem phones_stay_distinct_and_valid :
  (forall r, reachable r -> phones_ok r)
  /\ (forall s r, phones_ok r -> phones_ok (snd (add_phone s r)))
  /\ (forall s r, phones_ok r -> phones_ok (snd (remove_phone s r)))
  /\ (forall old new r, phones_ok r -> phones_ok (snd (edit_phone old new r))).
Proof.
  split; [|split; [|split]].
  - intros r H. induction H as [n r H | | | |].
    + unfold Record_init in H. destruct (Field_init Name n); [|discriminate].
      injection H as <-. split; simpl; constructor.
    + now apply add_phone_keeps.
    + now apply remove_phone_keeps.
    + now apply edit_phone_keeps.
    + now apply add_birthday_keeps.
  - exact add_phone_keeps.
  - exact remove_phone_keeps.
  - exact edit_phone_keeps.
Qed.

Lemma phones_stay_distinct_and_valid_witness :
  phones_ok
    (snd (edit_phone (py "0501234567") (py "0671112233")
            (snd (add_phone (py "0501234567")
                    (mkRecord (py "Ann") [] None))))).
Proof.
  apply (proj1 phones_stay_distinct_and_valid).
  apply reach_edit_phone, reach_add_phone.
  apply (reach_init (py "Ann")). reflexivity.
Defined.

(** ** AddressBook *)



(** ** The calendar *)

Lemma forallb_below (P : Z -> bool) (k : nat) :
  forallb P (map Z.of_nat (seq 0 k)) = true ->
  forall n, 0 <= n < Z.of_nat k -> P n = true.
Proof.
  intros H n Hn. rewrite forallb_forall in H. apply H.
  apply in_map_iff. exists (Z.to_nat n). split; [lia|].
  apply in_seq. lia.
Qed.

Lemma month_day_spec (leapyear : bool) (n : Z) :
  0 <= n < 365 -> month_day_ok leapyear n = true.
Proof.
  intros Hn.
  apply (forallb_below (month_day_ok leapyear) 365); [|lia].
  destruct leapyear; vm_compute; reflexivity.
Qed.

Lemma is_leap_decomp (q400 n100 n4 n1 : Z) :
  0 <= n100 <= 3 -> 0 <= n4 <= 24 -> 0 <= n1 <= 3 ->
  _is_leap (q400 * 400 + 1 + n100 * 100 + n4 * 4 + n1)
  = (n1 =? 3) && (negb (n4 =? 24) || (n100 =? 3)).
Proof.
  intros H100 H4 H1. unfold _is_leap.
  set (y := q400 * 400 + 1 + n100 * 100 + n4 * 4 + n1).
  assert (E4 : y mod 4 = (n1 + 1) mod 4).
  { unfold y. Z.to_euclidean_division_equations. lia. }
  assert (E100 : y mod 100 = (n4 * 4 + n1 + 1) mod 100).
  { unfold y. Z.to_euclidean_division_equations. lia. }
  assert (E400 : y mod 400 = (n100 * 100 + n4 * 4 + n1 + 1) mod 400).
  { unfold y. Z.to_euclidean_division_equations. lia. }
  rewrite E4, E100, E400. clear E4 E100 E400 y.
  destruct (n1 =? 3) eqn:A1; destruct (n4 =? 24) eqn:A4;
    destruct (n100 =? 3) eqn:A100; simpl;
    repeat match goal with
      | H : (_ =? _) = true |- _ => apply Z.eqb_eq in H
      | H : (_ =? _) = false |- _ => apply Z.eqb_neq in H
      end;
    repeat match goal with
      | |- context [?a mod ?b =? 0] =>
          let E := fresh "E" in
          destruct (a mod b =? 0) eqn:E;
          [apply Z.eqb_eq in E | apply Z.eqb_neq in E]
      end; simpl; try reflexivity; exfalso;
    Z.to_euclidean_division_equations; lia.
Qed.

Lemma days_before_year_decomp (q400 n100 n4 n1 : Z) :
  0 <= n100 <= 3 -> 0 <= n4 <= 24 -> 0 <= n1 <= 3 ->
  _days_before_year (q400 * 400 + 1 + n100 * 100 + n4 * 4 + n1)
  = q400 * 146097 + n100 * 36524 + n4 * 1461 + n1 * 365.
Proof.
  intros H100 H4 H1. unfold _days_before_year. cbv zeta.
  Z.to_euclidean_division_equations. lia.
Qed.

Lemma ord2ymd_tail (leapyear : bool) (y n : Z) :
  (let m := Z.shiftr (n + 50) 5 in
   let preceding :=
     item _DAYS_BEFORE_MONTH m + (if (2 <? m) && leapyear then 1 else 0) in
   if n <? preceding then
     let m := m - 1 in
     let preceding :=
       preceding
       - (item _DAYS_IN_MONTH m + (if (m =? 2) && leapyear then 1 else 0)) in
     (y, m, n - preceding + 1)
   else (y, m, n - preceding + 1))
  = (y, fst (month_day leapyear n), snd (month_day leapyear n)).
Proof.
  unfold month_day. cbv zeta.
  destruct (n <? _); reflexivity.
Qed.

Lemma days_in_month_flag (y m : Z) :
  _days_in_month y m
  = item _DAYS_IN_MONTH m + (if (m =? 2) && _is_leap y then 1 else 0).
Proof.
  unfold _days_in_month.
  destruct (m =? 2) eqn:E; simpl; [|lia].
  apply Z.eqb_eq in E. subst m. destruct (_is_leap y); reflexivity.
Qed.

(** The date of the day [n] is a date that can be built, and its ordinal
    is [n]. *)
Lemma ord2ymd_correct (n : Z) :
  1 <= n ->
  let '(y, m, d) := _ord2ymd n in
  _ymd2ord y m d = n
  /\ 1 <= y /\ (n <= _MAXORDINAL -> y <= MAXYEAR)
  /\ 1 <= m <= 12 /\ 1 <= d <= _days_in_month y m.
Proof.
  intros Hn. unfold _ord2ymd. cbv zeta.
  unfold _DI400Y, _DI100Y, _DI4Y, _MAXORDINAL, MAXYEAR.
  pose proof (Z.div_mod (n - 1) 146097 ltac:(lia)) as E400.
  pose proof (Z.mod_pos_bound (n - 1) 146097 ltac:(lia)) as B400.
  set (q400 := (n - 1) / 146097) in *.
  set (r400 := (n - 1) mod 146097) in *.
  pose proof (Z.div_mod r400 36524 ltac:(lia)) as E100.
  pose proof (Z.mod_pos_bound r400 36524 ltac:(lia)) as B100.
  set (n100 := r400 / 36524) in *.
  set (r100 := r400 mod 36524) in *.
  pose proof (Z.div_mod r100 1461 ltac:(lia)) as E4.
  pose proof (Z.mod_pos_bound r100 1461 ltac:(lia)) as B4.
  set (n4 := r100 / 1461) in *.
  set (r4 := r100 mod 1461) in *.
  pose proof (Z.div_mod r4 365 ltac:(lia)) as E1.
  pose proof (Z.mod_pos_bound r4 365 ltac:(lia)) as B1.
  set (n1 := r4 / 365) in *.
  set (r1 := r4 mod 365) in *.
  assert (Hq : 0 <= q400) by (unfold q400; apply Z.div_pos; lia).
  assert (H100 : 0 <= n100 <= 4) by lia.
  assert (H4 : 0 <= n4 <= 24) by lia.
  assert (H1 : 0 <= n1 <= 4) by lia.
  clearbody q400 r400 n100 r100 n4 r4 n1 r1.
  destruct ((n1 =? 4) || (n100 =? 4)) eqn:Last.
  - (* the last day of a leap year *)
    assert (Hy : exists m100 m4,
               0 <= m100 <= 3 /\ 0 <= m4 <= 24
               /\ q400 * 400 + 1 + n100 * 100 + n4 * 4 + n1 - 1
                  = q400 * 400 + 1 + m100 * 100 + m4 * 4 + 3
               /\ (m4 = 24 -> m100 = 3)
               /\ n = q400 * 146097 + m100 * 36524 + m4 * 1461 + 3 * 365 + 366).
    { apply orb_true_iff in Last. destruct Last as [L|L]; apply Z.eqb_eq in L.
      - exists n100, n4. assert (n100 <= 3 \/ n100 = 4) as [?|?] by lia.
        + repeat split; try lia.
        + exfalso. lia.
      - exists 3, 24. repeat split; lia. }
    destruct Hy as (m100 & m4 & Hm100 & Hm4 & -> & Hleap & ->).
    unfold _ymd2ord, _days_before_month.
    rewrite days_in_month_flag.
    rewrite days_before_year_decomp, is_leap_decomp by lia.
    assert (L : (3 =? 3) && (negb (m4 =? 24) || (m100 =? 3)) = true).
    { simpl. destruct (m4 =? 24) eqn:A; simpl; [|reflexivity].
      apply Z.eqb_eq in A. apply Z.eqb_eq. auto. }
    change (item _DAYS_BEFORE_MONTH 12) with 334.
    change (item _DAYS_IN_MONTH 12) with 31.
    change (2 <? 12) with true. change (12 =? 2) with false.
    rewrite L. cbn [andb]. repeat split; lia.
  - apply orb_false_iff in Last. destruct Last as [L1 L100].
    apply Z.eqb_neq in L1, L100.
    rewrite ord2ymd_tail.
    pose proof (month_day_spec
                  ((n1 =? 3) && (negb (n4 =? 24) || (n100 =? 3))) r1 B1) as M.
    unfold month_day_ok in M.
    destruct (month_day ((n1 =? 3) && (negb (n4 =? 24) || (n100 =? 3))) r1)
      as [m d] eqn:MD.
    cbn [fst snd].
    repeat (apply andb_true_iff in M; destruct M as [M ?]).
    repeat match goal with
      | H : (_ <=? _) = true |- _ => apply Z.leb_le in H
      | H : (_ =? _) = true |- _ => apply Z.eqb_eq in H
      end.
    unfold _ymd2ord, _days_before_month.
    rewrite days_in_month_flag.
    rewrite days_before_year_decomp, is_leap_decomp by lia.
    repeat split; try lia.
Qed.

Lemma toordinal_fromordinal (n : Z) :
  1 <= n -> toordinal (fromordinal n) = n.
Proof.
  intros Hn. unfold toordinal, fromordinal.
  pose proof (ord2ymd_correct n Hn) as H.
  destruct (_ord2ymd n) as [[y m] d]. simpl. tauto.
Qed.

Lemma fromordinal_valid (n : Z) :
  1 <= n <= _MAXORDINAL -> valid_date (fromordinal n).
Proof.
  intros Hn. unfold valid_date, fromordinal.
  pose proof (ord2ymd_correct n ltac:(lia)) as H.
  destruct (_ord2ymd n) as [[y m] d]. simpl.
  unfold check_date_fields, MINYEAR.
  destruct H as (_ & Hy & Hmax & Hm & Hd). specialize (Hmax ltac:(lia)).
  repeat (apply andb_true_iff; split); apply Z.leb_le; lia.
Qed.

Lemma date_new_Ok (y m d : Z) (x : date) :
  date_new y m d = Ok x <->
  check_date_fields y m d = true /\ x = mkdate y m d.
Proof.
  unfold date_new, check_date_fields.
  destruct ((MINYEAR <=? y) && (y <=? MAXYEAR)); simpl;
    [|split; [discriminate | intros [? _]; discriminate]].
  destruct ((1 <=? m) && (m <=? 12)); simpl;
    [|split; [discriminate | intros [? _]; discriminate]].
  destruct ((1 <=? d) && (d <=? _days_in_month y m)); simpl;
    [|split; [discriminate | intros [? _]; discriminate]].
  split.
  - intros H. injection H as <-. auto.
  - intros [_ ->]. reflexivity.
Qed.

Lemma date_new_valid (y m d : Z) (x : date) :
  date_new y m d = Ok x -> valid_date x.
Proof.
  intros H. apply date_new_Ok in H. destruct H as [H ->]. exact H.
Qed.

Lemma check_date_fields_true (y m d : Z) :
  check_date_fields y m d = true <->
  1 <= y <= 9999 /\ 1 <= m <= 12 /\ 1 <= d <= _days_in_month y m.
Proof.
  unfold check_date_fields, MINYEAR, MAXYEAR.
  rewrite !andb_true_iff, !Z.leb_le. tauto.
Qed.

Lemma month_cases (m : Z) :
  1 <= m <= 12 ->
  m = 1 \/ m = 2 \/ m = 3 \/ m = 4 \/ m = 5 \/ m = 6 \/ m = 7 \/ m = 8
  \/ m = 9 \/ m = 10 \/ m = 11 \/ m = 12.
Proof. lia. Qed.

Ltac eval_tables :=
  cbv [item _DAYS_IN_MONTH _DAYS_BEFORE_MONTH nth Z.to_nat Pos.to_nat
       Pos.iter_op Nat.add Z.eqb Pos.eqb Z.ltb Z.compare Pos.compare
       Pos.compare_cont andb] in *.

Lemma day_of_year_bound (y m d : Z) :
  1 <= m <= 12 -> 1 <= d <= _days_in_month y m ->
  1 <= _days_before_month y m + d
    <= 365 + (if _is_leap y then 1 else 0).
Proof.
  intros Hm Hd. unfold _days_before_month, _days_in_month in *.
  destruct (_is_leap y);
    destruct (month_cases m Hm) as
      [->|[->|[->|[->|[->|[->|[->|[->|[->|[->|[->| ->]]]]]]]]]]];
    eval_tables; lia.
Qed.

Lemma leap_not_last_year (y : Z) : _is_leap y = true -> y <> 9999.
Proof. intros H ->. discriminate. Qed.

Lemma toordinal_bounds (d : date) :
  valid_date d -> 1 <= toordinal d <= _MAXORDINAL.
Proof.
  unfold valid_date. rewrite check_date_fields_true.
  intros (Hy & Hm & Hd).
  pose proof (day_of_year_bound _ _ _ Hm Hd) as B.
  unfold toordinal, _ymd2ord, _MAXORDINAL.
  assert (L : _is_leap (year d) = true -> year d <= 9998).
  { intros L. apply leap_not_last_year in L. lia. }
  destruct (_is_leap (year d)); [specialize (L eq_refl)|clear L];
    unfold _days_before_year; cbv zeta;
    Z.to_euclidean_division_equations; lia.
Qed.

Lemma weekday_range (d : date) : 0 <= weekday d <= 6.
Proof.
  unfold weekday. pose proof (Z.mod_pos_bound (toordinal d + 6) 7). lia.
Qed.

Lemma add_days_Ok (d : date) (k : Z) :
  1 <= toordinal d + k <= _MAXORDINAL ->
  exists c, add_days d k = Ok c
            /\ toordinal c = toordinal d + k /\ valid_date c.
Proof.
  intros H. unfold add_days.
  assert (E : (0 <? toordinal d + k) && (toordinal d + k <=? _MAXORDINAL)
              = true).
  { apply andb_true_iff. split; [apply Z.ltb_lt | apply Z.leb_le]; lia. }
  rewrite E. eexists. split; [reflexivity|]. split.
  - apply toordinal_fromordinal. lia.
  - apply fromordinal_valid. lia.
Qed.

(** The day to congratulate on is the day itself from Monday to Friday,
    two days later for a Saturday and one day later for a Sunday, which
    is a Monday either way. *)
Lemma congratulation_date_spec (this_year : date) :
  valid_date this_year ->
  exists c,
    congratulation_date this_year = Ok c
    /\ valid_date c
    /\ toordinal c
       = toordinal this_year
         + (if weekday this_year =? 5 then 2
            else if weekday this_year =? 6 then 1 else 0)
    /\ (weekday this_year <= 4 -> c = this_year)
    /\ 0 <= weekday c <= 4
    /\ (5 <= weekday this_year -> weekday c = 0).
Proof.
  intros V. pose proof (toordinal_bounds _ V) as B.
  pose proof (weekday_range this_year) as W.
  unfold congratulation_date.
  unfold _MAXORDINAL in B.
  destruct (weekday this_year =? 5) eqn:E5;
    [|destruct (weekday this_year =? 6) eqn:E6].
  - apply Z.eqb_eq in E5.
    destruct (add_days_Ok this_year 2) as (c & -> & Ho & Vc).
    { unfold _MAXORDINAL. unfold weekday in E5.
      Z.to_euclidean_division_equations. lia. }
    exists c. repeat split; try assumption; try lia;
      unfold weekday in *; rewrite Ho;
      Z.to_euclidean_division_equations; lia.
  - apply Z.eqb_eq in E6.
    destruct (add_days_Ok this_year 1) as (c & -> & Ho & Vc).
    { unfold _MAXORDINAL. unfold weekday in E6.
      Z.to_euclidean_division_equations. lia. }
    exists c. repeat split; try assumption; try lia;
      unfold weekday in *; rewrite Ho;
      Z.to_euclidean_division_equations; lia.
  - apply Z.eqb_neq in E5, E6.
    exists this_year. repeat split; try assumption; lia.
Qed.

Lemma strftime_A_weekday (d : date) :
  0 <= weekday d <= 4 -> In (strftime_A d) week_order.
Proof.
  intros H. unfold strftime_A.
  assert (C : weekday d = 0 \/ weekday d = 1 \/ weekday d = 2
              \/ weekday d = 3 \/ weekday d = 4) by lia.
  destruct C as [->|[->|[->|[->| ->]]]]; vm_compute; tauto.
Qed.

(** ** The upcoming birthdays *)

Lemma birthday_this_year_valid (today bday_date this_year : date) :
  birthday_this_year today bday_date = Ok this_year -> valid_date this_year.
Proof.
  unfold birthday_this_year, replace_year.
  destruct (date_new (year today) (month bday_date) (day bday_date))
    as [x|e] eqn:E; simpl; [|discriminate].
  destruct (date_ltb x today).
  - apply date_new_valid.
  - intros H. injection H as <-. eapply date_new_valid; eauto.
Qed.

(** One turn of the loop appends an item exactly for a record in the
    window, and the item follows the rule of the weekend. *)
Lemma upcoming_of_Some (sty : year_style) (today : date) (r : record)
  (item : entry) :
  upcoming_of sty today r = Ok (Some item) ->
  in_window today r /\ follows_weekend_rule sty today r item
  /\ In (congratulation_weekday item) week_order.
Proof.
  unfold upcoming_of, in_window, follows_weekend_rule.
  destruct (birthday r) as [value|]; [|discriminate].
  destruct (birthday_this_year today (dt_date value)) as [ty|e] eqn:B;
    simpl; [|discriminate].
  pose proof (birthday_this_year_valid _ _ _ B) as V.
  unfold days_in_advance.
  destruct ((0 <=? sub_days ty today) && (sub_days ty today <? 7)) eqn:W;
    [|discriminate].
  apply andb_true_iff in W. destruct W as [W1 W2].
  apply Z.leb_le in W1. apply Z.ltb_lt in W2.
  destruct (congratulation_date_spec ty V)
    as (c & Ec & Vc & Ho & Hsame & Hwd & Hmon).
  rewrite Ec. simpl. intros H. injection H as <-. simpl.
  split; [|split].
  - exists value, ty. auto.
  - exists value, ty, c.
    split; [reflexivity|]. split; [assumption|].
    split; [reflexivity|]. split; [reflexivity|].
    split; [reflexivity|]. split; [assumption|].
    split; [|split; [|split; [|lia]]].
    + intros H5. unfold congratulation_date in Ec.
      rewrite H5 in Ec, Ho. simpl in Ec, Ho. auto.
    + intros H6. unfold congratulation_date in Ec.
      rewrite H6 in Ec, Ho. simpl in Ec, Ho. auto.
    + intros H4. apply Hsame. lia.
  - now apply strftime_A_weekday.
Qed.


(** The loop returns when every turn does, and then it has appended, in
    order, what the turns gave. *)
Lemma upcoming_loop_Ok (sty : year_style) (today : date)
  (rs : list record) (acc out : list entry) :
  upcoming_loop sty today rs acc = Ok out <->
  exists os,
    Forall2 (fun r o => upcoming_of sty today r = Ok o) rs os
    /\ out = acc ++ flat_map appended os.
Proof.
  revert acc out. induction rs as [|r rs IH]; intros acc out; simpl.
  - split.
    + intros H. injection H as <-. exists []. split; [constructor|].
      simpl. now rewrite app_nil_r.
    + intros (os & F & ->). inversion F; subst. simpl.
      now rewrite app_nil_r.
  - destruct (upcoming_of sty today r) as [o|e] eqn:E; simpl.
    + rewrite IH. split.
      * intros (os & F & ->). exists (o :: os). split; [now constructor|].
        simpl. destruct o; simpl; now rewrite <- ?app_assoc.
      * intros (os & F & ->). inversion F as [|? o' ? os' Ho F']; subst.
        rewrite E in Ho. injection Ho as <-.
        exists os'. split; [assumption|].
        simpl. destruct o; simpl; now rewrite <- ?app_assoc.
    + split; [discriminate|].
      intros (os & F & _). inversion F; subst. congruence.
Qed.

Lemma upcoming_loop_items (sty : year_style) (today : date)
  (rs : list record) (out : list entry) :
  upcoming_loop sty today rs [] = Ok out ->
  (forall item, In item out ->
     exists r, In r rs /\ upcoming_of sty today r = Ok (Some item))
  /\ (forall r, In r rs ->
        (exists item, upcoming_of sty today r = Ok (Some item)
                      /\ In item out)
        \/ upcoming_of sty today r = Ok None).
Proof.
  intros H. apply upcoming_loop_Ok in H. destruct H as (os & F & ->).
  simpl. induction F as [|r o rs os Ho F IH]; simpl.
  - split; [intros ? [] | intros ? []].
  - destruct IH as [IH1 IH2]. split.
    + intros item Hin. apply in_app_or in Hin. destruct Hin as [Hin|Hin].
      * destruct o; simpl in Hin; [|contradiction].
        destruct Hin as [<-|[]]. exists r. auto.
      * destruct (IH1 item Hin) as (r' & Hr & E). exists r'. auto.
    + intros r' [<-|Hr].
      * destruct o as [item|]; [left | now right].
        exists item. split; [assumption|]. apply in_or_app. left. now left.
      * destruct (IH2 r' Hr) as [(item & E & Hin)|E]; [left | now right].
        exists item. split; [assumption|]. apply in_or_app. now right.
Qed.

Lemma week_order_no_weekend :
  ~ In (py "Saturday") week_order /\ ~ In (py "Sunday") week_order.
Proof.
  split; vm_compute; intros H;
    repeat (destruct H as [H|H]; [discriminate|]); exact H.
Qed.

(** C2.  Every item that the query makes belongs to a record of the
    book and records the birthday of this year moved from a Saturday by
    two days, from a Sunday by one day, and not moved from Monday to
    Friday; the day of the week it records is one of Monday to Friday,
    never Saturday or Sunday, and so is the day of every group written
    out. *)
Theorem weekend_birthdays_move_to_Monday (self : AddressBook) (w : World)
  (upcoming : list entry) :
  let today := dt_date (clock w) in
  let records := map (objects w) (dict_values self) in
  upcoming_loop (libc w) today records [] = Ok upcoming ->
  (forall item, In item upcoming ->
     (exists r, In r records /\ follows_weekend_rule (libc w) today r item)
     /\ In (congratulation_weekday item) week_order
     /\ congratulation_weekday item <> py "Saturday"
     /\ congratulation_weekday item <> py "Sunday")
  /\ (forall g, In g (emitted_groups (group_by_day upcoming)) ->
        In (fst g) week_order
        /\ fst g <> py "Saturday" /\ fst g <> py "Sunday").
Proof.
  intros today records H. destruct week_order_no_weekend as [NSat NSun].
  split.
  - intros item Hin.
    destruct (upcoming_loop_items _ _ _ _ H) as [Hitems _].
    destruct (Hitems item Hin) as (r & Hr & E).
    apply upcoming_of_Some in E. destruct E as (_ & Rule & Day).
    split; [exists r; auto|]. split; [assumption|].
    split; intros C; rewrite C in Day; contradiction.
  - intros g Hg. unfold emitted_groups in Hg. apply in_flat_map in Hg.
    destruct Hg as (day & Hday & Hg).
    destruct (dict_get day (group_by_day upcoming)); [|contradiction].
    destruct Hg as [<-|[]]. simpl.
    split; [assumption|]. split; intros C; rewrite C in Hday; contradiction.
Qed.

Lemma weekend_birthdays_move_to_Monday_witness :
  let w := world_at 2024 1 10 in
  let today := dt_date (clock w) in
  let records := map (objects w) (dict_values sample_book) in
  let upcoming := [mkEntry (py "Ann") (py "15.01.2024") (py "Monday")] in
  (forall item, In item upcoming ->
     (exists r, In r records /\ follows_weekend_rule (libc w) today r item)
     /\ In (congratulation_weekday item) week_order
     /\ congratulation_weekday item <> py "Saturday"
     /\ congratulation_weekday item <> py "Sunday")
  /\ (forall g, In g (emitted_groups (group_by_day upcoming)) ->
        In (fst g) week_order
        /\ fst g <> py "Saturday" /\ fst g <> py "Sunday").
Proof.
  intros w today records upcoming.
  apply (weekend_birthdays_move_to_Monday sample_book w upcoming).
  vm_compute. reflexivity.
Defined.

(** C9, at the input that fails.  A record named Fay is made, its
    birthday set to 29.02.2024, and it is added to an empty book: all
    three calls return.  On 1 March 2025 the query on this book raises
    the ValueError of [replace], there being no 29 February in 2025. *)
Theorem leap_day_birthday_raises :
  Record_init (py "Fay") = Ok (mkRecord (py "Fay") [] None)
  /\ add_birthday (py "29.02.2024") (mkRecord (py "Fay") [] None)
     = (Ok tt, sample_objects 2%nat)
  /\ add_record (world_at 2025 3 1) 2%nat []
     = (Ok tt, [(py "Fay", 2%nat)], [])
  /\ get_upcoming_birthdays [(py "Fay", 2%nat)] (world_at 2025 3 1)
     = Raise (ValueError (py "day is out of range for month")).
Proof.
  repeat split; vm_compute; reflexivity.
Qed.

(** C1, at the input that fails.  The birthday of Ann is set to
    13.01.1990.  On 10 January 2025 her record is in the window of the
    query, three days ahead; the book also has Fay, born on 29 February,
    and the query raises instead of listing Ann. *)
Theorem leap_day_birthday_hides_the_others :
  let w := world_at 2025 1 10 in
  add_birthday (py "13.01.1990") (mkRecord (py "Ann") [] None)
  = (Ok tt, sample_objects 0%nat)
  /\ In (sample_objects 0%nat) (map (objects w) (dict_values leap_day_book))
  /\ birthday (sample_objects 0%nat) = Some (at_midnight 1990 1 13)
  /\ birthday_this_year (dt_date (clock w)) (mkdate 1990 1 13)
     = Ok (mkdate 2025 1 13)
  /\ sub_days (mkdate 2025 1 13) (dt_date (clock w)) = 3
  /\ get_upcoming_birthdays leap_day_book w
     = Raise (ValueError (py "day is out of range for month")).
Proof.
  repeat split; try (vm_compute; reflexivity).
  left. reflexivity.
Qed.

(** *** Grouping *)

Lemma dict_contains_get {V : Type} (k : str) (d : dict V) :
  dict_contains k d = match dict_get k d with Some _ => true | None => false end.
Proof. reflexivity. Qed.

Lemma group_step_get (g : dict (list str)) (item : entry) (day : str) :
  dict_get day (group_step g item)
  = if eqb (congratulation_weekday item) day then
      Some (match dict_get day g with Some ns => ns | None => [] end
            ++ [item_name item])
    else dict_get day g.
Proof.
  unfold group_step. rewrite dict_contains_get.
  set (d := congratulation_weekday item).
  destruct (eqb d day) eqn:E.
  - apply eqb_eq in E. subst day.
    destruct (dict_get d g) as [ns|] eqn:G; simpl.
    + rewrite G. apply dict_get_set_same.
    + rewrite dict_get_set_same. apply dict_get_set_same.
  - apply eqb_neq in E.
    assert (Hne : day <> d) by congruence.
    destruct (dict_get d g) as [ns|] eqn:G; simpl.
    + rewrite G. now apply dict_get_set_other.
    + rewrite dict_get_set_same.
      rewrite !dict_get_set_other by assumption. reflexivity.
Qed.

Lemma fold_group_step_get (upcoming : list entry) (g : dict (list str))
  (day : str) :
  dict_get day (fold_left group_step upcoming g)
  = match dict_get day g, names_on day upcoming with
    | None, [] => None
    | None, ns => Some ns
    | Some ns0, ns => Some (ns0 ++ ns)
    end.
Proof.
  revert g. induction upcoming as [|item l IH]; intros g; simpl.
  - unfold names_on. simpl. destruct (dict_get day g); [|reflexivity].
    now rewrite app_nil_r.
  - rewrite IH, group_step_get. unfold names_on. simpl.
    destruct (eqb (congratulation_weekday item) day); simpl.
    + destruct (dict_get day g); simpl; [now rewrite <- app_assoc|reflexivity].
    + reflexivity.
Qed.

Lemma group_by_day_get (upcoming : list entry) (day : str) :
  dict_get day (group_by_day upcoming)
  = match names_on day upcoming with [] => None | ns => Some ns end.
Proof.
  unfold group_by_day. rewrite fold_group_step_get. reflexivity.
Qed.



Lemma no_birthday_not_in_window (today : date) (r : record) :
  birthday r = None -> ~ in_window today r.
Proof. intros H (v & _ & Hv & _). congruence. Qed.

(** *** When the query returns *)

Lemma replace_year_Ok (b : date) (y : Z) :
  valid_date b -> ~ (month b = 2 /\ day b = 29) -> 1 <= y <= 9999 ->
  replace_year b y = Ok (mkdate y (month b) (day b)).
Proof.
  unfold valid_date. rewrite check_date_fields_true.
  intros (By & Bm & Bd) Hleap Hy.
  unfold replace_year. apply date_new_Ok. split; [|reflexivity].
  apply check_date_fields_true. repeat split; try lia.
  unfold _days_in_month in *.
  destruct (month b =? 2) eqn:E; cbn [andb] in *; [|lia].
  apply Z.eqb_eq in E. rewrite E in *.
  change (item _DAYS_IN_MONTH 2) with 28 in *.
  assert (day b <> 29) by tauto.
  destruct (_is_leap (year b)); destruct (_is_leap y); lia.
Qed.

Lemma upcoming_loop_returns (sty : year_style) (today : date)
  (rs : list record) :
  (forall r, In r rs -> exists o, upcoming_of sty today r = Ok o) ->
  forall acc, exists out, upcoming_loop sty today rs acc = Ok out.
Proof.
  induction rs as [|r rs IH]; intros H acc; simpl.
  - eexists; reflexivity.
  - destruct (H r (or_introl eq_refl)) as [o ->]. simpl.
    apply IH. intros r' Hr'. apply H. now right.
Qed.

(** The query returns whenever the clock shows a date before the year
    9999 and no birthday of the book is a 29 February. *)
Lemma upcoming_birthdays_return (self : AddressBook) (w : World) :
  1 <= year (dt_date (clock w)) < 9999 ->
  (forall r value,
      In r (map (objects w) (dict_values self)) ->
      birthday r = Some value ->
      valid_date (dt_date value)
      /\ ~ (month (dt_date value) = 2 /\ day (dt_date value) = 29)) ->
  exists out, get_upcoming_birthdays self w = Ok out.
Proof.
  intros Hy Hb. unfold get_upcoming_birthdays, upcoming_groups.
  destruct (upcoming_loop_returns (libc w) (dt_date (clock w))
              (map (objects w) (dict_values self))) with (acc := @nil entry)
    as [out ->]; [|simpl; eexists; reflexivity].
  intros r Hr. unfold upcoming_of.
  destruct (birthday r) as [value|] eqn:B; [|eexists; reflexivity].
  destruct (Hb r value Hr B) as [V NL].
  unfold birthday_this_year.
  rewrite (replace_year_Ok _ (year (dt_date (clock w))) V NL) by lia.
  cbn [bind].
  assert (T : exists ty,
             (if date_ltb
                   (mkdate (year (dt_date (clock w))) (month (dt_date value))
                      (day (dt_date value))) (dt_date (clock w))
              then replace_year (dt_date value) (year (dt_date (clock w)) + 1)
              else Ok (mkdate (year (dt_date (clock w)))
                         (month (dt_date value)) (day (dt_date value))))
             = Ok ty /\ valid_date ty).
  { destruct (date_ltb _ _).
    - rewrite (replace_year_Ok _ _ V NL) by lia. eexists. split; [reflexivity|].
      eapply date_new_valid. apply (replace_year_Ok _ _ V NL). lia.
    - eexists. split; [reflexivity|].
      eapply date_new_valid. apply (replace_year_Ok _ _ V NL). lia. }
  destruct T as (ty & -> & Vty). cbn [bind].
  destruct ((0 <=? sub_days ty (dt_date (clock w)))
            && (sub_days ty (dt_date (clock w)) <? days_in_advance));
    [|eexists; reflexivity].
  destruct (congratulation_date_spec ty Vty) as (c & -> & _).
  eexists; reflexivity.
Qed.

(** *** What the query reads *)

Lemma upcoming_of_erase (sty1 sty2 : year_style) (today : date) (r : record) :
  result_map (option_map erase) (upcoming_of sty1 today r)
  = result_map (option_map erase) (upcoming_of sty2 today r).
Proof.
  unfold upcoming_of. destruct (birthday r) as [value|]; [|reflexivity].
  destruct (birthday_this_year today (dt_date value)); simpl; [|reflexivity].
  destruct ((0 <=? _) && _); [|reflexivity].
  destruct (congratulation_date a); reflexivity.
Qed.

Lemma upcoming_loop_erase (sty1 sty2 : year_style) (today : date)
  (rs : list record) (acc1 acc2 : list entry) :
  map erase acc1 = map erase acc2 ->
  result_map (map erase) (upcoming_loop sty1 today rs acc1)
  = result_map (map erase) (upcoming_loop sty2 today rs acc2).
Proof.
  revert acc1 acc2. induction rs as [|r rs IH]; intros acc1 acc2 H; simpl.
  - now rewrite H.
  - pose proof (upcoming_of_erase sty1 sty2 today r) as E.
    destruct (upcoming_of sty1 today r) as [o1|e1];
      destruct (upcoming_of sty2 today r) as [o2|e2];
      simpl in E; try discriminate; simpl.
    + apply IH. destruct o1, o2; simpl in E; try discriminate.
      * rewrite !map_app, H. simpl. congruence.
      * assumption.
    + congruence.
Qed.

Lemma group_step_erase (g : dict (list str)) (item : entry) :
  group_step g (erase item) = group_step g item.
Proof. reflexivity. Qed.

Lemma group_by_day_erase (upcoming : list entry) :
  group_by_day (map erase upcoming) = group_by_day upcoming.
Proof.
  unfold group_by_day. generalize (@nil (str * list str)).
  induction upcoming as [|item l IH]; intros g; simpl; [reflexivity|].
  now rewrite group_step_erase, IH.
Qed.

(** C3, as the program has it.  The query has no argument but the book:
    it reads the date from the clock of the machine, and the number of
    days ahead is the constant 7.  Its result is settled by the records
    of the book and the date of the clock: two calls give the same
    result, or raise the same exception, when the books are the same,
    the objects of the book are in the same state, and the clocks show
    the same date, whatever the time of day, the other objects and the C
    library. *)
Theorem upcoming_birthdays_depend_on_book_and_date (self : AddressBook)
  (w1 w2 : World) :
  (forall r, In r (dict_values self) -> objects w1 r = objects w2 r) ->
  dt_date (clock w1) = dt_date (clock w2) ->
  get_upcoming_birthdays self w1 = get_upcoming_birthdays self w2
  /\ days_in_advance = 7.
Proof.
  intros Hobj Hdate. split; [|reflexivity].
  unfold get_upcoming_birthdays, upcoming_groups.
  rewrite Hdate. rewrite (map_ext_in _ _ _ Hobj).
  pose proof (upcoming_loop_erase (libc w1) (libc w2) (dt_date (clock w2))
                (map (objects w2) (dict_values self)) [] [] eq_refl) as E.
  destruct (upcoming_loop (libc w1) _ _ _) as [l1|e1];
    destruct (upcoming_loop (libc w2) _ _ _) as [l2|e2];
    simpl in E; try discriminate; simpl.
  - injection E as E.
    now rewrite <- (group_by_day_erase l1), E, group_by_day_erase.
  - congruence.
Qed.

Lemma upcoming_birthdays_depend_on_book_and_date_witness :
  get_upcoming_birthdays sample_book (world_at 2024 1 10)
  = get_upcoming_birthdays sample_book
      (mkWorld (fun r => match r with
                         | 2%nat => mkRecord (py "Guy") [] None
                         | _ => sample_objects r
                         end)
               (mkdatetime (mkdate 2024 1 10) 23 59 59 0) YearPadded)
  /\ days_in_advance = 7.
Proof.
  apply (upcoming_birthdays_depend_on_book_and_date sample_book).
  - intros r H. vm_compute in H.
    destruct H as [<-|[<-|[<-|[]]]]; reflexivity.
  - reflexivity.
Defined.

(** C3, as the claim states it, fails: the query is not a function of
    what it is given.  The same book with the same objects in the same
    states gives [Monday: Ann] when the clock shows 10 January 2024 and
    nothing when it shows 1 March 2024; the date is no argument of the
    query, it is read from the clock. *)
Lemma upcoming_birthdays_read_the_clock :
  let w1 := world_at 2024 1 10 in
  let w2 := world_at 2024 3 1 in
  objects w1 = objects w2 /\ libc w1 = libc w2
  /\ get_upcoming_birthdays sample_book w1 = Ok [py "Monday: Ann"]
  /\ get_upcoming_birthdays sample_book w2 = Ok []
  /\ get_upcoming_birthdays sample_book w1
     <> get_upcoming_birthdays sample_book w2.
Proof.
  repeat split; try (vm_compute; reflexivity).
  vm_compute. discriminate.
Qed.

(** ** Birthday *)

Lemma ascii_digit_cases (c : codepoint) :
  Unicode.ascii_digit c = true ->
  (c = 48 \/ c = 49 \/ c = 50 \/ c = 51 \/ c = 52 \/ c = 53 \/ c = 54
   \/ c = 55 \/ c = 56 \/ c = 57)%N.
Proof.
  unfold Unicode.ascii_digit. rewrite andb_true_iff, !N.leb_le. lia.
Qed.

Ltac each_digit c H :=
  destruct (ascii_digit_cases c H)
    as [->|[->|[->|[->|[->|[->|[->|[->|[->| ->]]]]]]]]].

Lemma day_group (d1 d2 : codepoint) (rest : str) :
  Unicode.ascii_digit d1 = true -> Unicode.ascii_digit d2 = true ->
  then_dot (rmatch re_d (d1 :: d2 :: chr_dot :: rest))
  = if (1 <=? two_digits d1 d2) && (two_digits d1 d2 <=? 31)
    then [([d1; d2], rest)] else [].
Proof.
  intros H1 H2. each_digit d1 H1; each_digit d2 H2; reflexivity.
Qed.

Lemma month_group (m1 m2 : codepoint) (rest : str) :
  Unicode.ascii_digit m1 = true -> Unicode.ascii_digit m2 = true ->
  then_dot (rmatch re_m (m1 :: m2 :: chr_dot :: rest))
  = if (1 <=? two_digits m1 m2) && (two_digits m1 m2 <=? 12)
    then [([m1; m2], rest)] else [].
Proof.
  intros H1 H2. each_digit m1 H1; each_digit m2 H2; reflexivity.
Qed.

Lemma ascii_digit_isdecimal (c : codepoint) :
  Unicode.ascii_digit c = true -> Unicode.isdecimal_char c = true.
Proof. intros H. each_digit c H; reflexivity. Qed.

Lemma year_group (y1 y2 y3 y4 : codepoint) :
  ascii_digits [y1; y2; y3; y4] ->
  rmatch re_Y [y1; y2; y3; y4] = [([y1; y2; y3; y4], [])].
Proof.
  intros H. inversion H as [|? ? H1 H']; subst.
  inversion H' as [|? ? H2 H'']; subst.
  inversion H'' as [|? ? H3 H''']; subst.
  inversion H''' as [|? ? H4 _]; subst.
  apply ascii_digit_isdecimal in H1, H2, H3, H4.
  unfold re_Y. cbn [rmatch]. rewrite H1. cbn [flat_map map app].
  rewrite H2. cbn [flat_map map app]. rewrite H3. cbn [flat_map map app].
  rewrite H4. reflexivity.
Qed.

Lemma format_matches_exact (d1 d2 m1 m2 y1 y2 y3 y4 : codepoint) :
  ascii_digits [d1; d2; m1; m2; y1; y2; y3; y4] ->
  format_matches (exact_text d1 d2 m1 m2 y1 y2 y3 y4)
  = if (1 <=? two_digits d1 d2) && (two_digits d1 d2 <=? 31)
       && ((1 <=? two_digits m1 m2) && (two_digits m1 m2 <=? 12))
    then [([d1; d2], [m1; m2], [y1; y2; y3; y4], [])] else [].
Proof.
  intros H. inversion H as [|? ? Hd1 H']; subst.
  inversion H' as [|? ? Hd2 H'']; subst.
  inversion H'' as [|? ? Hm1 H3]; subst.
  inversion H3 as [|? ? Hm2 Hy]; subst.
  unfold format_matches, exact_text.
  rewrite day_group by assumption.
  destruct ((1 <=? two_digits d1 d2) && (two_digits d1 d2 <=? 31));
    [|reflexivity].
  cbn [flat_map andb]. rewrite month_group by assumption.
  destruct ((1 <=? two_digits m1 m2) && (two_digits m1 m2 <=? 12));
    [|reflexivity].
  cbn [flat_map]. rewrite year_group by assumption. reflexivity.
Qed.

Lemma decimal_value_ascii (c : codepoint) :
  Unicode.ascii_digit c = true ->
  Unicode.decimal_value c = Some (digit_of c).
Proof. intros H. each_digit c H; reflexivity. Qed.

Lemma lstrip_digit (c : codepoint) (rest : str) :
  Unicode.ascii_digit c = true -> lstrip (c :: rest) = c :: rest.
Proof. intros H. each_digit c H; reflexivity. Qed.

Lemma int_two_digits (a b : codepoint) :
  ascii_digits [a; b] -> int [a; b] = Ok (two_digits a b).
Proof.
  intros H. inversion H as [|? ? Ha H']; subst.
  inversion H' as [|? ? Hb _]; subst.
  unfold int. rewrite lstrip_digit by assumption.
  cbn [int_digits]. rewrite !decimal_value_ascii by assumption.
  unfold two_digits. f_equal. lia.
Qed.

Lemma int_four_digits (a b c d : codepoint) :
  ascii_digits [a; b; c; d] -> int [a; b; c; d] = Ok (four_digits a b c d).
Proof.
  intros H. inversion H as [|? ? Ha H1]; subst.
  inversion H1 as [|? ? Hb H2]; subst.
  inversion H2 as [|? ? Hc H3]; subst.
  inversion H3 as [|? ? Hd _]; subst.
  unfold int. rewrite lstrip_digit by assumption.
  cbn [int_digits]. rewrite !decimal_value_ascii by assumption.
  unfold four_digits. f_equal. lia.
Qed.

Lemma ascii_digits_tail (c : codepoint) (cs : list codepoint) :
  ascii_digits (c :: cs) -> ascii_digits cs.
Proof. intros H. now inversion H. Qed.

(** [strptime] on a text in the exact format: the date that the digits
    write when there is such a date, and a ValueError when there is
    none. *)
Lemma strptime_exact (d1 d2 m1 m2 y1 y2 y3 y4 : codepoint) :
  ascii_digits [d1; d2; m1; m2; y1; y2; y3; y4] ->
  let y := four_digits y1 y2 y3 y4 in
  let m := two_digits m1 m2 in
  let d := two_digits d1 d2 in
  if check_date_fields y m d
  then strptime_dmY (exact_text d1 d2 m1 m2 y1 y2 y3 y4)
       = Ok (at_midnight y m d)
  else exists msg,
      strptime_dmY (exact_text d1 d2 m1 m2 y1 y2 y3 y4)
      = Raise (ValueError msg).
Proof.
  intros H y m d.
  assert (Hd : ascii_digits [d1; d2]).
  { inversion H as [|? ? A H1]; subst. inversion H1 as [|? ? B _]; subst.
    repeat constructor; assumption. }
  assert (Hm : ascii_digits [m1; m2]).
  { do 2 apply ascii_digits_tail in H.
    inversion H as [|? ? A H1]; subst. inversion H1 as [|? ? B _]; subst.
    repeat constructor; assumption. }
  assert (Hy : ascii_digits [y1; y2; y3; y4]).
  { now do 4 apply ascii_digits_tail in H. }
  unfold strptime_dmY. rewrite format_matches_exact by assumption.
  fold d m.
  destruct (check_date_fields y m d) eqn:C.
  - pose proof C as C'. apply check_date_fields_true in C'.
    destruct C' as (By & Bm & Bd).
    assert (D31 : _days_in_month y m <= 31).
    { unfold _days_in_month.
      destruct ((m =? 2) && _is_leap y); [lia|].
      destruct (month_cases m Bm)
        as [->|[->|[->|[->|[->|[->|[->|[->|[->|[->|[->| ->]]]]]]]]]]];
        vm_compute; discriminate. }
    assert (E : (1 <=? d) && (d <=? 31) && ((1 <=? m) && (m <=? 12)) = true).
    { rewrite !andb_true_iff, !Z.leb_le. lia. }
    rewrite E.
    rewrite int_four_digits, int_two_digits, int_two_digits by assumption.
    cbn [bind]. fold y m d.
    assert (N : date_new y m d = Ok (mkdate y m d)).
    { apply date_new_Ok. auto. }
    rewrite N. reflexivity.
  - destruct ((1 <=? d) && (d <=? 31) && ((1 <=? m) && (m <=? 12))).
    + rewrite int_four_digits, int_two_digits, int_two_digits by assumption.
      cbn [bind]. fold y m d.
      unfold date_new. unfold check_date_fields in C.
      destruct ((MINYEAR <=? y) && (y <=? MAXYEAR)); cbn [negb];
        [|eexists; reflexivity].
      rewrite <- !andb_assoc in C. cbn [andb] in C.
      destruct ((1 <=? m) && (m <=? 12)) eqn:M; cbn [negb];
        [|eexists; reflexivity].
      apply andb_true_iff in M. destruct M as [M1 M2].
      rewrite M1, M2 in C. cbn [andb] in C. rewrite C. cbn [negb].
      eexists; reflexivity.
    + eexists; reflexivity.
Qed.

(** *** Rendering *)

Lemma two_digits_table (n : Z) :
  0 <= n < 100 ->
  Decimal.zero_padded 2 n
  = [Decimal.digit_char (n / 10); Decimal.digit_char (n mod 10)].
Proof.
  intros H. apply eqb_eq.
  apply (forallb_below two_digits_ok 100); [|lia].
  vm_compute. reflexivity.
Qed.

Lemma four_digits_table (sty : year_style) (n : Z) :
  0 <= n < 10000 -> sty = YearPadded \/ 1000 <= n ->
  strftime_Y sty n
  = [Decimal.digit_char (n / 1000); Decimal.digit_char (n / 100 mod 10);
     Decimal.digit_char (n / 10 mod 10); Decimal.digit_char (n mod 10)].
Proof.
  intros H S. apply eqb_eq.
  assert (T : four_digits_ok sty n = true).
  { apply (forallb_below (four_digits_ok sty) (Z.to_nat 10000)); [|lia].
    destruct sty; vm_compute; reflexivity. }
  unfold four_digits_ok in T. apply orb_true_iff in T.
  destruct T as [T|T]; [|exact T].
  destruct sty; [|discriminate]. apply Z.ltb_lt in T.
  destruct S as [S|S]; [discriminate | lia].
Qed.

Lemma digit_of_range (c : codepoint) :
  Unicode.ascii_digit c = true -> 0 <= digit_of c <= 9.
Proof.
  unfold Unicode.ascii_digit, digit_of.
  rewrite andb_true_iff, !N.leb_le. lia.
Qed.

Lemma digit_char_of (c : codepoint) :
  Unicode.ascii_digit c = true -> Decimal.digit_char (digit_of c) = c.
Proof.
  unfold Unicode.ascii_digit, digit_of, Decimal.digit_char.
  rewrite andb_true_iff, !N.leb_le. lia.
Qed.

Lemma digit_char_ascii (k : Z) :
  0 <= k <= 9 -> Unicode.ascii_digit (Decimal.digit_char k) = true.
Proof.
  unfold Unicode.ascii_digit, Decimal.digit_char.
  rewrite andb_true_iff, !N.leb_le. lia.
Qed.

Lemma render_two_digits (a b : codepoint) :
  ascii_digits [a; b] -> Decimal.zero_padded 2 (two_digits a b) = [a; b].
Proof.
  intros H. inversion H as [|? ? Ha H']; subst.
  inversion H' as [|? ? Hb _]; subst.
  pose proof (digit_of_range a Ha) as Ra.
  pose proof (digit_of_range b Hb) as Rb.
  unfold two_digits. rewrite two_digits_table by lia.
  replace ((10 * digit_of a + digit_of b) / 10) with (digit_of a)
    by (Z.to_euclidean_division_equations; lia).
  replace ((10 * digit_of a + digit_of b) mod 10) with (digit_of b)
    by (Z.to_euclidean_division_equations; lia).
  now rewrite !digit_char_of.
Qed.

Lemma render_four_digits (sty : year_style) (a b c d : codepoint) :
  ascii_digits [a; b; c; d] ->
  sty = YearPadded \/ 1000 <= four_digits a b c d ->
  strftime_Y sty (four_digits a b c d) = [a; b; c; d].
Proof.
  intros H S. inversion H as [|? ? Ha H1]; subst.
  inversion H1 as [|? ? Hb H2]; subst.
  inversion H2 as [|? ? Hc H3]; subst.
  inversion H3 as [|? ? Hd _]; subst.
  pose proof (digit_of_range a Ha) as Ra.
  pose proof (digit_of_range b Hb) as Rb.
  pose proof (digit_of_range c Hc) as Rc.
  pose proof (digit_of_range d Hd) as Rd.
  rewrite four_digits_table; [|unfold four_digits; lia|assumption].
  unfold four_digits.
  set (n := 1000 * digit_of a + 100 * digit_of b + 10 * digit_of c
            + digit_of d).
  replace (n / 1000) with (digit_of a)
    by (unfold n; Z.to_euclidean_division_equations; lia).
  replace (n / 100 mod 10) with (digit_of b)
    by (unfold n; Z.to_euclidean_division_equations; lia).
  replace (n / 10 mod 10) with (digit_of c)
    by (unfold n; Z.to_euclidean_division_equations; lia).
  replace (n mod 10) with (digit_of d)
    by (unfold n; Z.to_euclidean_division_equations; lia).
  now rewrite !digit_char_of.
Qed.

Lemma days_in_month_le_31 (y m : Z) :
  1 <= m <= 12 -> _days_in_month y m <= 31.
Proof.
  intros Bm. unfold _days_in_month.
  destruct ((m =? 2) && _is_leap y); [lia|].
  destruct (month_cases m Bm)
    as [->|[->|[->|[->|[->|[->|[->|[->|[->|[->|[->| ->]]]]]]]]]]];
    vm_compute; discriminate.
Qed.

(** The text of a date that can be built is in the exact format, when
    the year has four digits or the C library pads it. *)
Lemma strftime_exact_format (sty : year_style) (dd : date) :
  valid_date dd -> sty = YearPadded \/ 1000 <= year dd ->
  exact_format (strftime_dmY sty dd).
Proof.
  unfold valid_date. rewrite check_date_fields_true.
  intros (By & Bm & Bd) S.
  pose proof (days_in_month_le_31 (year dd) (month dd) Bm) as D31.
  unfold strftime_dmY.
  rewrite !two_digits_table by lia.
  rewrite four_digits_table by (try lia; assumption).
  eexists _, _, _, _, _, _, _, _. split; [reflexivity|].
  repeat constructor; apply digit_char_ascii;
    Z.to_euclidean_division_equations; lia.
Qed.

Lemma int_raises_ValueError (s : str) (e : exn) :
  int s = Raise e -> exists msg, e = ValueError msg.
Proof.
  unfold int. destruct (lstrip s) as [|c t].
  - intros H. injection H as <-. eexists; reflexivity.
  - destruct (int_digits 0 (c :: t)); [discriminate|].
    intros H. injection H as <-. eexists; reflexivity.
Qed.

Lemma date_new_raises_ValueError (y m d : Z) (e : exn) :
  date_new y m d = Raise e -> exists msg, e = ValueError msg.
Proof.
  unfold date_new.
  repeat match goal with
    | |- context [if ?b then _ else _] => destruct b
    end; intros H; try discriminate; injection H as <-; eexists; reflexivity.
Qed.

(** [strptime] raises nothing but ValueError. *)
Lemma strptime_raises_ValueError (s : str) (e : exn) :
  strptime_dmY s = Raise e -> exists msg, e = ValueError msg.
Proof.
  unfold strptime_dmY.
  destruct (format_matches s) as [|[[[gd gm] gY] rest] ?].
  { intros H. injection H as <-. eexists; reflexivity. }
  destruct rest.
  2:{ intros H. injection H as <-. eexists; reflexivity. }
  destruct (int gY) as [y|e1] eqn:EY; cbn [bind];
    [|intros H; injection H as <-; eapply int_raises_ValueError; eauto].
  destruct (int gm) as [m|e1] eqn:EM; cbn [bind];
    [|intros H; injection H as <-; eapply int_raises_ValueError; eauto].
  destruct (int gd) as [d|e1] eqn:ED; cbn [bind];
    [|intros H; injection H as <-; eapply int_raises_ValueError; eauto].
  destruct (date_new y m d) as [dd|e1] eqn:N; cbn [bind]; [discriminate|].
  intros H. injection H as <-. eapply date_new_raises_ValueError; eauto.
Qed.

Lemma Birthday_init_of_strptime (s : str) :
  Birthday_init (ArgStr s)
  = match strptime_dmY s with
    | Ok dt => Ok dt
    | Raise _ => Raise (Birthday_error s)
    end.
Proof.
  unfold Birthday_init, Birthday_set_value, Birthday_is_valid, Birthday_error.
  destruct (strptime_dmY s) as [dt|e] eqn:P; [reflexivity|].
  destruct (strptime_raises_ValueError _ _ P) as [msg ->]. reflexivity.
Qed.

Lemma strptime_Ok_valid (s : str) (dt : datetime) :
  strptime_dmY s = Ok dt ->
  exists y m d, dt = at_midnight y m d /\ check_date_fields y m d = true.
Proof.
  unfold strptime_dmY.
  destruct (format_matches s) as [|[[[gd gm] gY] rest] ?]; [discriminate|].
  destruct rest; [|discriminate].
  destruct (int gY) as [y|]; [|discriminate].
  destruct (int gm) as [m|]; [|discriminate].
  destruct (int gd) as [d|]; [|discriminate].
  cbn [bind]. destruct (date_new y m d) as [dd|] eqn:N; [|discriminate].
  cbn [bind]. intros H. injection H as <-.
  apply date_new_Ok in N. destruct N as [C ->].
  exists y, m, d. auto.
Qed.

Lemma rmatch_Seq (r1 r2 : regex) (s m rest : str) :
  In (m, rest) (rmatch (Seq r1 r2) s) ->
  exists m1 m2 mid,
    m = m1 ++ m2 /\ In (m1, mid) (rmatch r1 s) /\ In (m2, rest) (rmatch r2 mid).
Proof.
  cbn [rmatch]. intros H. apply in_flat_map in H.
  destruct H as ([m1 mid] & H1 & H2). apply in_map_iff in H2.
  destruct H2 as ([m2 rest'] & E & H2). injection E as <- <-.
  exists m1, m2, mid. auto.
Qed.

Lemma rmatch_Dig (s m rest : str) :
  In (m, rest) (rmatch Dig s) ->
  exists c, m = [c] /\ s = c :: rest /\ Unicode.isdecimal_char c = true.
Proof.
  cbn [rmatch]. destruct s as [|x s']; [intros []|].
  destruct (Unicode.isdecimal_char x) eqn:E; [|intros []].
  intros [H|[]]. injection H as <- <-. exists x. auto.
Qed.

Lemma rmatch_Chr (c : codepoint) (s m rest : str) :
  In (m, rest) (rmatch (Chr c) s) -> m = [c] /\ s = c :: rest.
Proof.
  cbn [rmatch]. destruct s as [|x s']; [intros []|].
  destruct (x =? c)%N eqn:E; [|intros []].
  apply N.eqb_eq in E. subst x.
  intros [H|[]]. injection H as <- <-. auto.
Qed.

Lemma then_dot_In (ms : list (str * str)) (g s2 : str) :
  In (g, s2) (then_dot ms) -> In (g, chr_dot :: s2) ms.
Proof.
  unfold then_dot. intros H. apply in_flat_map in H.
  destruct H as ([g' s1] & H1 & H2). apply in_map_iff in H2.
  destruct H2 as ([d s2'] & E & H2). injection E as -> ->.
  apply rmatch_Chr in H2. destruct H2 as (_ & ->). exact H1.
Qed.

(** *** The texts that [strptime] takes *)

Lemma rmatch_Rng (lo hi : codepoint) (s m rest : str) :
  In (m, rest) (rmatch (Rng lo hi) s) ->
  exists c, m = [c] /\ s = c :: rest /\ between lo hi c = true.
Proof.
  cbn [rmatch]. destruct s as [|x s']; [intros []|]. fold (between lo hi x).
  destruct (between lo hi x) eqn:E; [|intros []].
  intros [H|[]]. injection H as <- <-. exists x. auto.
Qed.

Lemma rmatch_Alt (r1 r2 : regex) (s : str) (x : str * str) :
  In x (rmatch (Alt r1 r2) s) <-> In x (rmatch r1 s) \/ In x (rmatch r2 s).
Proof. cbn [rmatch]. apply in_app_iff. Qed.

Lemma In_Chr (c : codepoint) (rest : str) :
  In ([c], rest) (rmatch (Chr c) (c :: rest)).
Proof. cbn [rmatch]. rewrite N.eqb_refl. now left. Qed.

Lemma In_Rng (lo hi c : codepoint) (rest : str) :
  between lo hi c = true -> In ([c], rest) (rmatch (Rng lo hi) (c :: rest)).
Proof.
  intros H. cbn [rmatch]. fold (between lo hi c). rewrite H. now left.
Qed.

Lemma In_Dig (c : codepoint) (rest : str) :
  Unicode.isdecimal_char c = true -> In ([c], rest) (rmatch Dig (c :: rest)).
Proof. intros H. cbn [rmatch]. rewrite H. now left. Qed.

Lemma In_Seq (r1 r2 : regex) (s m1 mid m2 rest : str) :
  In (m1, mid) (rmatch r1 s) -> In (m2, rest) (rmatch r2 mid) ->
  In (m1 ++ m2, rest) (rmatch (Seq r1 r2) s).
Proof.
  intros H1 H2. cbn [rmatch]. apply in_flat_map. exists (m1, mid).
  split; [exact H1|]. apply in_map_iff. exists (m2, rest). auto.
Qed.

Lemma then_dot_intro (ms : list (str * str)) (g s2 : str) :
  In (g, chr_dot :: s2) ms -> In (g, s2) (then_dot ms).
Proof.
  intros H. unfold then_dot. apply in_flat_map. exists (g, chr_dot :: s2).
  split; [exact H|]. apply in_map_iff. exists ([chr_dot], s2).
  split; [reflexivity | apply In_Chr].
Qed.

Ltac solve_text :=
  repeat match goal with
    | H : _ = true |- _ => rewrite H; clear H
    end;
  rewrite ?N.eqb_refl;
  repeat (progress (cbn [andb orb]; rewrite ?orb_true_r));
  reflexivity.

(** What the three groups of the pattern match, and nothing else. *)
Lemma rmatch_re_d (s g rest : str) :
  In (g, rest) (rmatch re_d s) -> s = g ++ rest /\ day_text g = true.
Proof.
  unfold re_d. intros H.
  repeat (apply rmatch_Alt in H; destruct H as [H|H]);
    repeat match goal with
      | H : In _ (rmatch (Seq _ _) _) |- _ =>
          apply rmatch_Seq in H; destruct H as (? & ? & ? & -> & H & ?)
      | H : In _ (rmatch (Chr _) _) |- _ =>
          apply rmatch_Chr in H; destruct H as (-> & ->)
      | H : In _ (rmatch (Rng _ _) _) |- _ =>
          apply rmatch_Rng in H; destruct H as (? & -> & -> & ?)
      | H : In _ (rmatch Dig _) |- _ =>
          apply rmatch_Dig in H; destruct H as (? & -> & -> & ?)
      end;
    (split; [reflexivity|]); cbn [app day_text]; solve_text.
Qed.

Lemma rmatch_re_m (s g rest : str) :
  In (g, rest) (rmatch re_m s) -> s = g ++ rest /\ month_text g = true.
Proof.
  unfold re_m. intros H.
  repeat (apply rmatch_Alt in H; destruct H as [H|H]);
    repeat match goal with
      | H : In _ (rmatch (Seq _ _) _) |- _ =>
          apply rmatch_Seq in H; destruct H as (? & ? & ? & -> & H & ?)
      | H : In _ (rmatch (Chr _) _) |- _ =>
          apply rmatch_Chr in H; destruct H as (-> & ->)
      | H : In _ (rmatch (Rng _ _) _) |- _ =>
          apply rmatch_Rng in H; destruct H as (? & -> & -> & ?)
      end;
    (split; [reflexivity|]); cbn [app month_text]; solve_text.
Qed.

Lemma rmatch_re_Y (s g rest : str) :
  In (g, rest) (rmatch re_Y s) -> s = g ++ rest /\ year_text g = true.
Proof.
  unfold re_Y. intros H.
  apply rmatch_Seq in H. destruct H as (m1 & t1 & s1 & -> & A & H).
  apply rmatch_Seq in H. destruct H as (m2 & t2 & s2 & -> & B & H).
  apply rmatch_Seq in H. destruct H as (m3 & m4 & s3 & -> & C & D).
  apply rmatch_Dig in A, B, C, D.
  destruct A as (a & -> & -> & Ha). destruct B as (b & -> & -> & Hb).
  destruct C as (c & -> & -> & Hc). destruct D as (d & -> & -> & Hd).
  split; [reflexivity|]. unfold year_text.
  cbn [app List.length Nat.eqb forallb]. now rewrite Ha, Hb, Hc, Hd.
Qed.

Lemma format_matches_shape (s gd gm gY rest : str) :
  In (gd, gm, gY, rest) (format_matches s) ->
  s = gd ++ [chr_dot] ++ gm ++ [chr_dot] ++ gY ++ rest
  /\ day_text gd = true /\ month_text gm = true /\ year_text gY = true.
Proof.
  unfold format_matches. intros H. apply in_flat_map in H.
  destruct H as ([gd' s2] & Hd & H). apply in_flat_map in H.
  destruct H as ([gm' s4] & Hm & H). apply in_map_iff in H.
  destruct H as ([gY' s5] & E & HY). injection E as <- <- <- <-.
  apply then_dot_In in Hd, Hm.
  apply rmatch_re_d in Hd. apply rmatch_re_m in Hm. apply rmatch_re_Y in HY.
  destruct Hd as (-> & Td). destruct Hm as (-> & Tm). destruct HY as (-> & TY).
  auto.
Qed.

(** Every text of the three shapes is matched. *)
Lemma day_text_match (g rest : str) :
  day_text g = true -> In (g, rest) (rmatch re_d (g ++ rest)).
Proof.
  destruct g as [|a [|b [|c t]]]; try discriminate; cbn [day_text app];
    intros H; unfold re_d.
  - do 3 (apply rmatch_Alt; right). apply rmatch_Alt. left.
    now apply In_Rng.
  - repeat (apply orb_true_iff in H; destruct H as [H|H]);
      apply andb_true_iff in H; destruct H as [H1 H2].
    + apply N.eqb_eq in H1. subst a. apply rmatch_Alt. left.
      apply (In_Seq _ _ _ [chr3] (b :: rest) [b]);
        [apply In_Chr | now apply In_Rng].
    + apply rmatch_Alt. right. apply rmatch_Alt. left.
      apply (In_Seq _ _ _ [a] (b :: rest) [b]);
        [now apply In_Rng | now apply In_Dig].
    + apply N.eqb_eq in H1. subst a. do 2 (apply rmatch_Alt; right).
      apply rmatch_Alt. left.
      apply (In_Seq _ _ _ [chr0] (b :: rest) [b]);
        [apply In_Chr | now apply In_Rng].
    + apply N.eqb_eq in H1. subst a. do 4 (apply rmatch_Alt; right).
      apply (In_Seq _ _ _ [chr_space] (b :: rest) [b]);
        [apply In_Chr | now apply In_Rng].
Qed.

Lemma month_text_match (g rest : str) :
  month_text g = true -> In (g, rest) (rmatch re_m (g ++ rest)).
Proof.
  destruct g as [|a [|b [|c t]]]; try discriminate; cbn [month_text app];
    intros H; unfold re_m.
  - do 2 (apply rmatch_Alt; right). now apply In_Rng.
  - apply orb_true_iff in H; destruct H as [H|H];
      apply andb_true_iff in H; destruct H as [H1 H2];
      apply N.eqb_eq in H1; subst a.
    + apply rmatch_Alt. left.
      apply (In_Seq _ _ _ [chr1] (b :: rest) [b]);
        [apply In_Chr | now apply In_Rng].
    + apply rmatch_Alt. right. apply rmatch_Alt. left.
      apply (In_Seq _ _ _ [chr0] (b :: rest) [b]);
        [apply In_Chr | now apply In_Rng].
Qed.

Lemma year_text_digits (g : str) :
  year_text g = true ->
  exists a b c d,
    g = [a; b; c; d]
    /\ Unicode.isdecimal_char a = true /\ Unicode.isdecimal_char b = true
    /\ Unicode.isdecimal_char c = true /\ Unicode.isdecimal_char d = true.
Proof.
  unfold year_text.
  destruct g as [|a [|b [|c [|d [|e t]]]]]; try discriminate.
  cbn [List.length Nat.eqb forallb andb]. rewrite !andb_true_iff.
  intros (Ha & Hb & Hc & Hd & _). exists a, b, c, d. auto.
Qed.

Lemma year_text_match (g rest : str) :
  year_text g = true -> In (g, rest) (rmatch re_Y (g ++ rest)).
Proof.
  intros H. destruct (year_text_digits g H) as (a & b & c & d & -> & Ha & Hb & Hc & Hd).
  unfold re_Y. cbn [app].
  apply (In_Seq _ _ _ [a] (b :: c :: d :: rest) [b; c; d]); [now apply In_Dig|].
  apply (In_Seq _ _ _ [b] (c :: d :: rest) [c; d]); [now apply In_Dig|].
  apply (In_Seq _ _ _ [c] (d :: rest) [d]); now apply In_Dig.
Qed.

Lemma format_matches_complete (gd gm gY : str) :
  day_text gd = true -> month_text gm = true -> year_text gY = true ->
  In (gd, gm, gY, [])
    (format_matches (gd ++ [chr_dot] ++ gm ++ [chr_dot] ++ gY)).
Proof.
  intros Td Tm TY. unfold format_matches.
  apply in_flat_map. exists (gd, gm ++ [chr_dot] ++ gY). split.
  { apply then_dot_intro. now apply day_text_match. }
  apply in_flat_map. exists (gm, gY). split.
  { apply then_dot_intro. now apply month_text_match. }
  apply in_map_iff. exists (gY, []). split; [reflexivity|].
  pose proof (year_text_match gY [] TY) as H. now rewrite app_nil_r in H.
Qed.

(** No group has a dot in it, so that a text has one reading at most. *)
Lemma between_not_dot (lo hi c : codepoint) :
  (chr_dot < lo)%N -> between lo hi c = true -> c <> chr_dot.
Proof.
  unfold between. rewrite andb_true_iff, !N.leb_le. intros L [H _] ->. lia.
Qed.

Lemma isdecimal_not_dot (c : codepoint) :
  Unicode.isdecimal_char c = true -> c <> chr_dot.
Proof. intros H ->. vm_compute in H. discriminate. Qed.

Lemma day_text_no_dot (g : str) : day_text g = true -> ~ In chr_dot g.
Proof.
  destruct g as [|a [|b [|c t]]]; try discriminate; cbn [day_text]; intros H.
  - apply (between_not_dot chr1 chr9) in H; [|reflexivity].
    intros [E|[]]. congruence.
  - assert (Ha : a <> chr_dot /\ b <> chr_dot).
    { repeat (apply orb_true_iff in H; destruct H as [H|H]);
        apply andb_true_iff in H; destruct H as [H1 H2];
        try (apply N.eqb_eq in H1; subst a);
        repeat match goal with
          | H : between _ _ _ = true |- _ =>
              apply between_not_dot in H; [|reflexivity]
          | H : Unicode.isdecimal_char _ = true |- _ =>
              apply isdecimal_not_dot in H
          end;
        (split; [first [assumption | discriminate] | assumption]). }
    destruct Ha as [Ha Hb]. intros [E|[E|[]]]; congruence.
Qed.

Lemma month_text_no_dot (g : str) : month_text g = true -> ~ In chr_dot g.
Proof.
  destruct g as [|a [|b [|c t]]]; try discriminate; cbn [month_text]; intros H.
  - apply (between_not_dot chr1 chr9) in H; [|reflexivity].
    intros [E|[]]. congruence.
  - assert (Ha : a <> chr_dot /\ b <> chr_dot).
    { apply orb_true_iff in H; destruct H as [H|H];
        apply andb_true_iff in H; destruct H as [H1 H2];
        apply N.eqb_eq in H1; subst a;
        (apply between_not_dot in H2; [|reflexivity]);
        (split; [discriminate | assumption]). }
    destruct Ha as [Ha Hb]. intros [E|[E|[]]]; congruence.
Qed.

Lemma split_at_dot (g1 g2 r1 r2 : str) :
  ~ In chr_dot g1 -> ~ In chr_dot g2 ->
  g1 ++ chr_dot :: r1 = g2 ++ chr_dot :: r2 -> g1 = g2 /\ r1 = r2.
Proof.
  revert g2. induction g1 as [|a g1 IH]; intros [|b g2] N1 N2 E;
    cbn [app] in E.
  - injection E as ->. auto.
  - injection E as E _. exfalso. apply N2. left. now symmetry.
  - injection E as E _. exfalso. apply N1. now left.
  - injection E as -> E.
    destruct (IH g2) as [-> ->]; auto.
    + intros H. apply N1. now right.
    + intros H. apply N2. now right.
Qed.

Lemma same_length_prefix (l1 l2 r : str) :
  l1 ++ r = l2 -> List.length l1 = List.length l2 -> l1 = l2 /\ r = [].
Proof.
  intros E L. assert (R : r = []).
  { apply (f_equal (@List.length codepoint)) in E. rewrite length_app in E.
    destruct r; [reflexivity | simpl in E; lia]. }
  subst r. rewrite app_nil_r in E. auto.
Qed.

Lemma year_text_length (g : str) : year_text g = true -> List.length g = 4%nat.
Proof.
  unfold year_text. rewrite andb_true_iff. intros [H _].
  now apply Nat.eqb_eq.
Qed.

(** The pattern reads a text of the shape in one way, with nothing left
    over. *)
Lemma format_matches_text (gd gm gY : str) :
  day_text gd = true -> month_text gm = true -> year_text gY = true ->
  exists others,
    format_matches (gd ++ [chr_dot] ++ gm ++ [chr_dot] ++ gY)
    = (gd, gm, gY, []) :: others.
Proof.
  intros Td Tm TY.
  pose proof (format_matches_complete gd gm gY Td Tm TY) as C.
  destruct (format_matches (gd ++ [chr_dot] ++ gm ++ [chr_dot] ++ gY))
    as [|[[[gd' gm'] gY'] rest'] others] eqn:F; [destruct C|].
  exists others. f_equal.
  assert (Hin : In (gd', gm', gY', rest')
                  (format_matches (gd ++ [chr_dot] ++ gm ++ [chr_dot] ++ gY)))
    by (rewrite F; now left).
  apply format_matches_shape in Hin. destruct Hin as (E & Td' & Tm' & TY').
  cbn [app] in E.
  apply split_at_dot in E; try (now apply day_text_no_dot).
  destruct E as [<- E].
  apply split_at_dot in E; try (now apply month_text_no_dot).
  destruct E as [<- E]. symmetry in E.
  apply same_length_prefix in E.
  - destruct E as [-> ->]. reflexivity.
  - now rewrite !year_text_length.
Qed.

(** [strptime] on a text of the shape: the date that the three parts
    write. *)
Lemma strptime_of_text (gd gm gY : str) :
  day_text gd = true -> month_text gm = true -> year_text gY = true ->
  strptime_dmY (gd ++ [chr_dot] ++ gm ++ [chr_dot] ++ gY)
  = (y <- int gY ;;
     m <- int gm ;;
     d <- int gd ;;
     dd <- date_new y m d ;;
     Ok (mkdatetime dd 0 0 0 0)).
Proof.
  intros Td Tm TY. unfold strptime_dmY.
  destruct (format_matches_text gd gm gY Td Tm TY) as [others ->].
  reflexivity.
Qed.

(** The texts that make a birthday are the texts of the shape that
    write a date of the calendar. *)
Lemma Birthday_init_Ok_iff (s : str) (dt : datetime) :
  Birthday_init (ArgStr s) = Ok dt <-> birthday_text s dt.
Proof.
  rewrite Birthday_init_of_strptime. split.
  - destruct (strptime_dmY s) as [dt'|] eqn:P; [|discriminate].
    intros H. injection H as <-. unfold strptime_dmY in P.
    destruct (format_matches s) as [|[[[gd gm] gY] rest] tl] eqn:F;
      [discriminate|].
    assert (Hin : In (gd, gm, gY, rest) (format_matches s))
      by (rewrite F; now left).
    apply format_matches_shape in Hin.
    destruct Hin as (Hs & Td & Tm & TY).
    destruct rest; [|discriminate]. rewrite app_nil_r in Hs.
    destruct (int gY) as [y|] eqn:EY; [|discriminate].
    destruct (int gm) as [m|] eqn:EM; [|discriminate].
    destruct (int gd) as [d|] eqn:ED; [|discriminate].
    cbn [bind] in P. destruct (date_new y m d) as [dd|] eqn:N; [|discriminate].
    cbn [bind] in P. injection P as <-.
    apply date_new_Ok in N. destruct N as [C ->].
    exists gd, gm, gY, y, m, d. repeat split; assumption.
  - intros (gd & gm & gY & y & m & d & -> & Td & Tm & TY & Ed & Em & EY & C
            & ->).
    rewrite (strptime_of_text gd gm gY Td Tm TY), EY, Em, Ed. cbn [bind].
    assert (N : date_new y m d = Ok (mkdate y m d))
      by (apply date_new_Ok; auto).
    rewrite N. reflexivity.
Qed.

(** C5, as the program has it.  A text in the exact format [DD.MM.YYYY]
    of ASCII digits that writes a date of the calendar, of a year from
    0001 to 9999, makes a birthday of that date, and the birthday reads
    back as the same text when the year has four digits without leading
    zero or when the C library pads the year.  A text in the exact
    format that writes no such date, like 31.02.2024, fails with the
    validation error.  Whatever the text, a birthday that is made holds
    a date of the calendar at midnight and reads back in the exact
    format, and a failure is the validation error.  The texts that make
    a birthday are exactly the texts of a day, a dot, a month, a dot
    and a year that write a date of the calendar, the day and the month
    of one or two characters and the year of four decimal digits; every
    other text fails with the validation error. *)
Theorem Birthday_construction :
  (forall (sty : year_style) (d1 d2 m1 m2 y1 y2 y3 y4 : codepoint),
      ascii_digits [d1; d2; m1; m2; y1; y2; y3; y4] ->
      let s := exact_text d1 d2 m1 m2 y1 y2 y3 y4 in
      let y := four_digits y1 y2 y3 y4 in
      let m := two_digits m1 m2 in
      let d := two_digits d1 d2 in
      (check_date_fields y m d = true ->
       Birthday_init (ArgStr s) = Ok (at_midnight y m d)
       /\ (sty = YearPadded \/ 1000 <= y ->
           Birthday_str sty (at_midnight y m d) = s))
      /\ (check_date_fields y m d = false ->
          Birthday_init (ArgStr s) = Raise (Birthday_error s)))
  /\ (forall (s : str) (dt : datetime),
         Birthday_init (ArgStr s) = Ok dt ->
         exists y m d,
           dt = at_midnight y m d /\ check_date_fields y m d = true
           /\ forall sty, sty = YearPadded \/ 1000 <= y ->
                          exact_format (Birthday_str sty dt))
  /\ (forall (s : str) (e : exn),
         Birthday_init (ArgStr s) = Raise e -> e = Birthday_error s)
  /\ (forall (s : str) (dt : datetime),
         Birthday_init (ArgStr s) = Ok dt <-> birthday_text s dt)
  /\ (forall s : str,
         (forall dt, ~ birthday_text s dt) ->
         Birthday_init (ArgStr s) = Raise (Birthday_error s)).
Proof.
  assert (Failed : forall (s : str) (e : exn),
             Birthday_init (ArgStr s) = Raise e -> e = Birthday_error s).
  { intros s e H. rewrite Birthday_init_of_strptime in H.
    destruct (strptime_dmY s); [discriminate|]. now injection H as <-. }
  split; [|split; [|split; [exact Failed|split]]].
  - intros sty d1 d2 m1 m2 y1 y2 y3 y4 H s y m d.
    pose proof (strptime_exact _ _ _ _ _ _ _ _ H) as P.
    cbv zeta in P. fold s y m d in P.
    rewrite Birthday_init_of_strptime.
    split; intros C; rewrite C in P.
    + rewrite P. split; [reflexivity|]. intros S.
      unfold Birthday_str, at_midnight, strftime_dmY. cbn [dt_date year month day].
      assert (Hd : ascii_digits [d1; d2]).
      { inversion H as [|? ? A H1]; subst. inversion H1 as [|? ? B _]; subst.
        repeat constructor; assumption. }
      assert (Hm : ascii_digits [m1; m2]).
      { do 2 apply ascii_digits_tail in H.
        inversion H as [|? ? A H1]; subst. inversion H1 as [|? ? B _]; subst.
        repeat constructor; assumption. }
      assert (Hy : ascii_digits [y1; y2; y3; y4]).
      { now do 4 apply ascii_digits_tail in H. }
      unfold d, m, y.
      rewrite !render_two_digits, render_four_digits by assumption.
      reflexivity.
    + destruct P as [msg ->]. reflexivity.
  - intros s dt H. rewrite Birthday_init_of_strptime in H.
    destruct (strptime_dmY s) as [dt'|] eqn:P; [|discriminate].
    injection H as <-.
    destruct (strptime_Ok_valid _ _ P) as (y & m & d & -> & C).
    exists y, m, d. repeat split; auto.
    intros sty S. unfold Birthday_str. apply strftime_exact_format; auto.
  - apply Birthday_init_Ok_iff.
  - intros s H.
    destruct (Birthday_init (ArgStr s)) as [dt|e] eqn:B.
    + exfalso. apply (H dt). now apply Birthday_init_Ok_iff.
    + f_equal. now apply Failed.
Qed.

Lemma Birthday_construction_witness :
  (Birthday_init (ArgStr (py "29.02.2024")) = Ok (at_midnight 2024 2 29)
   /\ Birthday_str YearPlain (at_midnight 2024 2 29) = py "29.02.2024")
  /\ Birthday_init (ArgStr (py "31.02.2024"))
     = Raise (Birthday_error (py "31.02.2024"))
  /\ (exists y m d,
         at_midnight 2024 1 1 = at_midnight y m d
         /\ check_date_fields y m d = true
         /\ forall sty, sty = YearPadded \/ 1000 <= y ->
                        exact_format (Birthday_str sty (at_midnight 2024 1 1)))
  /\ (exists e,
         Birthday_init (ArgStr (py "2024-01-01")) = Raise e
         /\ e = Birthday_error (py "2024-01-01"))
  /\ Birthday_init (ArgStr (py "1.1.2024")) = Ok (at_midnight 2024 1 1)
  /\ Birthday_init (ArgStr (py "abc")) = Raise (Birthday_error (py "abc")).
Proof.
  destruct Birthday_construction as (Exact & Made & Failed & Shape & Other).
  split; [|split; [|split; [|split; [|split]]]].
  - destruct (Exact YearPlain 50 57 48 50 50 48 50 52)%N as [Good _].
    + repeat constructor.
    + destruct (Good eq_refl) as [G1 G2]. split; [exact G1|].
      apply G2. right. vm_compute. discriminate.
  - destruct (Exact YearPlain 51 49 48 50 50 48 50 52)%N as [_ Bad].
    + repeat constructor.
    + exact (Bad eq_refl).
  - apply (Made (py "1.1.2024")). vm_compute. reflexivity.
  - eexists. split; [vm_compute; reflexivity|].
    apply (Failed (py "2024-01-01")). vm_compute. reflexivity.
  - apply Shape.
    exists [49%N], [49%N], [50; 48; 50; 52]%N, 2024, 1, 1.
    repeat split; vm_compute; reflexivity.
  - apply Other. intros dt (gd & gm & gY & y & m & d & E & _).
    assert (D : In chr_dot (py "abc")).
    { rewrite E. apply in_or_app. right. now left. }
    vm_compute in D. destruct D as [D|[D|[D|[]]]]; discriminate.
Defined.

(** C5, as the claim states it, fails twice.  The text [1.1.2024] is
    not in the exact format, and the birthday is made; it reads back as
    [01.01.2024].  The text [01.01.0999] is in the exact format and
    writes a date of the calendar, and where the C library prints the
    year as it is, the birthday reads back as [01.01.999]. *)
Lemma Birthday_accepts_other_texts :
  (~ exact_format (py "1.1.2024")
   /\ Birthday_init (ArgStr (py "1.1.2024")) = Ok (at_midnight 2024 1 1)
   /\ Birthday_str YearPadded (at_midnight 2024 1 1) = py "01.01.2024"
   /\ Birthday_str YearPlain (at_midnight 2024 1 1) = py "01.01.2024")
  /\ (exact_format (py "01.01.0999")
      /\ check_date_fields 999 1 1 = true
      /\ Birthday_init (ArgStr (py "01.01.0999")) = Ok (at_midnight 999 1 1)
      /\ Birthday_str YearPlain (at_midnight 999 1 1) = py "01.01.999"
      /\ py "01.01.999" <> py "01.01.0999").
Proof.
  split.
  - split; [|repeat split; vm_compute; reflexivity].
    intros (d1 & d2 & m1 & m2 & y1 & y2 & y3 & y4 & E & _).
    apply (f_equal (@List.length codepoint)) in E. vm_compute in E.
    discriminate.
  - split; [|repeat split; try (vm_compute; reflexivity);
              vm_compute; discriminate].
    exists 48%N, 49%N, 48%N, 49%N, 48%N, 57%N, 57%N, 57%N.
    split; [vm_compute; reflexivity | repeat constructor].
Qed.

(** * Further properties *)

(** ** The phones of a record *)

(** X1.  [find_phone] answers with the place of the first phone of the
    value asked for, and with None exactly when no phone has it. *)
Theorem find_phone_first (s : str) (self : record) :
  (find_phone s self = None <-> ~ In s (phones self))
  /\ forall i,
       find_phone s self = Some i <->
       (i < List.length (phones self))%nat
       /\ nth i (phones self) [] = s
       /\ ~ In s (firstn i (phones self)).
Proof.
  unfold find_phone. split; [apply find_phone_in_None|].
  intros i. split; [apply find_phone_in_Some|].
  generalize (phones self) as ps. intros ps. revert i.
  induction ps as [|p ps IH]; intros i (Hi & Hn & Hf); simpl in *.
  - lia.
  - destruct i as [|i].
    + subst p. now rewrite eqb_refl.
    + simpl in Hf. destruct (eqb p s) eqn:E.
      * apply eqb_eq in E. tauto.
      * rewrite (IH i); [reflexivity|]. repeat split; [lia | assumption | tauto].
Qed.

Lemma list_remove_first (x : str) (xs : list str) (i : nat) :
  find_phone_in x xs = Some i -> list_remove x xs = Ok (without i xs).
Proof.
  revert i. induction xs as [|y xs IH]; intros i H; simpl in *.
  - discriminate.
  - destruct (eqb y x); [now injection H as <-|].
    destruct (find_phone_in x xs) as [j|]; [|discriminate].
    injection H as <-. rewrite (IH j eq_refl). reflexivity.
Qed.

Lemma without_length {A : Type} (i : nat) (xs : list A) :
  (i < List.length xs)%nat -> S (List.length (without i xs)) = List.length xs.
Proof.
  intros H. unfold without.
  rewrite length_app, length_firstn, length_skipn. lia.
Qed.

Lemma NoDup_without (x : str) (xs : list str) (i : nat) :
  NoDup xs -> (i < List.length xs)%nat -> nth i xs [] = x ->
  ~ In x (without i xs).
Proof.
  intros Hnd Hi Hn. unfold without.
  rewrite <- (firstn_skipn i xs) in Hnd.
  assert (Hs : skipn i xs = x :: skipn (S i) xs).
  { clear Hnd. revert i Hi Hn. induction xs as [|y ys IH]; intros i Hi Hn.
    - simpl in Hi. lia.
    - destruct i; simpl in *; [now subst|]. apply IH; [lia | assumption]. }
  rewrite Hs in Hnd. apply NoDup_remove_2 in Hnd. exact Hnd.
Qed.

(** X2.  [remove_phone] takes the first phone of the value away and
    keeps the others in their order; when the phones are all different
    the value is gone afterwards.  With no phone of the value it raises
    the error of the phone not found, the record unchanged. *)
Theorem remove_phone_outcomes (s : str) (self : record) :
  (In s (phones self) ->
   exists i,
     find_phone s self = Some i
     /\ remove_phone s self
        = (Ok tt, set_phones self (without i (phones self)))
     /\ S (List.length (phones (snd (remove_phone s self))))
        = List.length (phones self)
     /\ (NoDup (phones self) ->
         ~ In s (phones (snd (remove_phone s self)))))
  /\ (~ In s (phones self) ->
      remove_phone s self
      = (Raise (ValueError (py "Телефон " ++ s
                              ++ py " не знайдено для видалення.")), self)).
Proof.
  split.
  - intros Hin. unfold remove_phone, find_phone.
    destruct (find_phone_in s (phones self)) as [i|] eqn:F.
    + pose proof (find_phone_in_Some _ _ _ F) as (Hi & Hn & _).
      rewrite Hn, (list_remove_first _ _ _ F).
      exists i. split; [reflexivity|]. split; [reflexivity|].
      simpl. split; [now apply without_length|].
      intros Hnd. now apply NoDup_without.
    + apply find_phone_in_None in F. contradiction.
  - intros Hn. apply find_phone_in_None in Hn.
    unfold remove_phone, find_phone. now rewrite Hn.
Qed.

Lemma remove_phone_outcomes_witness :
  let self := mkRecord (py "Ann") [py "0671112233"; py "0501234567"] None in
  (exists i,
      find_phone (py "0671112233") self = Some i
      /\ remove_phone (py "0671112233") self
         = (Ok tt, set_phones self (without i (phones self)))
      /\ S (List.length (phones (snd (remove_phone (py "0671112233") self))))
         = List.length (phones self)
      /\ (NoDup (phones self) ->
          ~ In (py "0671112233")
              (phones (snd (remove_phone (py "0671112233") self)))))
  /\ remove_phone (py "0990000000") self
     = (Raise (ValueError (py "Телефон " ++ py "0990000000"
                             ++ py " не знайдено для видалення.")), self).
Proof.
  intros self. split.
  - apply (proj1 (remove_phone_outcomes (py "0671112233") self)).
    left. reflexivity.
  - apply (proj2 (remove_phone_outcomes (py "0990000000") self)).
    vm_compute. intros [H|[H|[]]]; discriminate.
Defined.

Lemma list_set_nth_same {A : Type} (i : nat) (v d : A) (xs : list A) :
  (i < List.length xs)%nat -> nth i (list_set i v xs) d = v.
Proof.
  revert i. induction xs as [|x xs IH]; intros [|i] H; simpl in *;
    try lia; [reflexivity | apply IH; lia].
Qed.

Lemma list_set_nth_other {A : Type} (i j : nat) (v d : A) (xs : list A) :
  j <> i -> nth j (list_set i v xs) d = nth j xs d.
Proof.
  revert i j. induction xs as [|x xs IH]; intros [|i] [|j] H; simpl;
    try reflexivity; try congruence. apply IH. congruence.
Qed.

(** X3.  [edit_phone] with an old value that the record has and a new
    value that is valid and is not the value of another phone puts the
    new value in the place of the first phone of the old value: the
    list keeps its length and every other place keeps its phone. *)
Theorem edit_phone_replaces (old new : str) (self : record) (i : nat) :
  find_phone old self = Some i ->
  is_valid Phone new = true ->
  new = old \/ ~ In new (phones self) ->
  edit_phone old new self
  = (Ok tt, set_phones self (list_set i new (phones self)))
  /\ List.length (phones (snd (edit_phone old new self)))
     = List.length (phones self)
  /\ nth i (phones (snd (edit_phone old new self))) [] = new
  /\ forall j, j <> i ->
       nth j (phones (snd (edit_phone old new self))) []
       = nth j (phones self) [].
Proof.
  intros F V Hnew.
  assert (E : edit_phone old new self
              = (Ok tt, set_phones self (list_set i new (phones self)))).
  { unfold edit_phone. rewrite F, (Phone_init_valid _ V).
    unfold Field_set_value. rewrite V. cbn [negb].
    assert (G : negb (eqb new old) && mem new (phones self) = false).
    { destruct Hnew as [->|Hn].
      - now rewrite eqb_refl.
      - apply mem_not_In in Hn. rewrite Hn. apply andb_false_r. }
    now rewrite G. }
  rewrite E. cbn [snd phones set_phones].
  apply find_phone_in_Some in F. destruct F as (Hi & _).
  split; [reflexivity|]. split; [apply list_set_length|].
  split; [now apply list_set_nth_same|].
  intros j Hj. now apply list_set_nth_other.
Qed.

Lemma edit_phone_replaces_witness :
  let self := mkRecord (py "Ann") [py "0671112233"; py "0501234567"] None in
  let old := py "0501234567" in
  let new := py "0930000000" in
  edit_phone old new self
  = (Ok tt, set_phones self (list_set 1 new (phones self)))
  /\ List.length (phones (snd (edit_phone old new self)))
     = List.length (phones self)
  /\ nth 1 (phones (snd (edit_phone old new self))) [] = new
  /\ forall j, j <> 1%nat ->
       nth j (phones (snd (edit_phone old new self))) []
       = nth j (phones self) [].
Proof.
  intros self old new.
  apply (edit_phone_replaces old new self 1).
  - reflexivity.
  - reflexivity.
  - right. vm_compute. intros [H|[H|[]]]; discriminate.
Defined.

(** X4.  [edit_phone] with an old value that the record has fails in
    two ways, the record unchanged either way: with the validation
    error of phones, wrapped, when the new value is not a valid phone;
    with the error of the number already in the list, wrapped, when
    the new value is valid, differs from the old one and is the value
    of a phone of the record. *)
Theorem edit_phone_refuses (old new : str) (self : record) :
  In old (phones self) ->
  (is_valid Phone new = false ->
   edit_phone old new self
   = (Raise (ValueError
               (py "Не вдалося змінити телефон: "
                  ++ (py "Телефон має містити 10 цифр" ++ py ": '"
                         ++ new ++ py "'"))), self))
  /\ (is_valid Phone new = true -> new <> old -> In new (phones self) ->
      edit_phone old new self
      = (Raise (ValueError
                  (py "Не вдалося змінити телефон: "
                     ++ (py "Новий номер " ++ new
                            ++ py " вже є у списку."))), self)).
Proof.
  intros Hin.
  destruct (find_phone_in old (phones self)) as [i|] eqn:F;
    [|apply find_phone_in_None in F; contradiction].
  split.
  - intros V. unfold edit_phone, find_phone.
    rewrite F, (Phone_init_invalid _ V). reflexivity.
  - intros V Hne Hnew. unfold edit_phone, find_phone.
    rewrite F, (Phone_init_valid _ V).
    apply eqb_neq in Hne. apply mem_In in Hnew.
    rewrite Hne, Hnew. reflexivity.
Qed.

Lemma edit_phone_refuses_witness :
  let self := mkRecord (py "Ann") [py "0671112233"; py "0501234567"] None in
  edit_phone (py "0671112233") (py "12-34") self
  = (Raise (ValueError
              (py "Не вдалося змінити телефон: "
                 ++ (py "Телефон має містити 10 цифр" ++ py ": '"
                        ++ py "12-34" ++ py "'"))), self)
  /\ edit_phone (py "0671112233") (py "0501234567") self
     = (Raise (ValueError
                 (py "Не вдалося змінити телефон: "
                    ++ (py "Новий номер " ++ py "0501234567"
                           ++ py " вже є у списку."))), self).
Proof.
  intros self.
  destruct (edit_phone_refuses (py "0671112233") (py "12-34") self)
    as [A _]; [left; reflexivity|].
  destruct (edit_phone_refuses (py "0671112233") (py "0501234567") self)
    as [_ B]; [left; reflexivity|].
  split.
  - apply A. reflexivity.
  - apply B.
    + reflexivity.
    + vm_compute. discriminate.
    + right. left. reflexivity.
Defined.

(** X5.  A method of a record that raises leaves the record as it was:
    nothing is changed before the error. *)
Theorem methods_raise_without_change (self : record) :
  (forall s, is_ok (fst (add_phone s self)) = false ->
             snd (add_phone s self) = self)
  /\ (forall s, is_ok (fst (remove_phone s self)) = false ->
                snd (remove_phone s self) = self)
  /\ (forall old new, is_ok (fst (edit_phone old new self)) = false ->
                      snd (edit_phone old new self) = self)
  /\ (forall s, is_ok (fst (add_birthday s self)) = false ->
                snd (add_birthday s self) = self).
Proof.
  split; [|split; [|split]].
  - intros s. unfold add_phone.
    destruct (Field_init Phone s) as [p|[m|k|m|m]]; try reflexivity.
    destruct (negb (mem p (phones self))); [discriminate | reflexivity].
  - intros s. unfold remove_phone.
    destruct (find_phone s self) as [i|]; [|reflexivity].
    destruct (list_remove _ _); [discriminate | reflexivity].
  - intros old new. unfold edit_phone.
    destruct (find_phone old self) as [i|]; [|reflexivity].
    destruct (Field_init Phone new) as [p|[m|k|m|m]]; try reflexivity.
    destruct (negb (eqb p old) && mem p (phones self)); [reflexivity|].
    destruct (Field_set_value Phone new) as [v|[m|k|m|m]];
      [discriminate | reflexivity ..].
  - intros s. unfold add_birthday.
    destruct (Birthday_init (ArgStr s)) as [b|[m|k|m|m]];
      [discriminate | reflexivity ..].
Qed.

Lemma methods_raise_without_change_witness :
  let self := mkRecord (py "Ann") [py "0671112233"] None in
  snd (add_phone (py "12-34") self) = self
  /\ snd (remove_phone (py "0990000000") self) = self
  /\ snd (edit_phone (py "0671112233") (py "12-34") self) = self
  /\ snd (add_birthday (py "2024-01-01") self) = self.
Proof.
  intros self.
  destruct (methods_raise_without_change self) as (A & B & C & D).
  split; [|split; [|split]].
  - apply A. reflexivity.
  - apply B. reflexivity.
  - apply C. reflexivity.
  - apply D. reflexivity.
Defined.

(** X6.  The methods of the phones never touch the name and the
    birthday of the record, and [add_birthday] never touches its name
    and its phones. *)
Theorem methods_keep_other_fields (self : record) :
  (forall s, name (snd (add_phone s self)) = name self
             /\ birthday (snd (add_phone s self)) = birthday self)
  /\ (forall s, name (snd (remove_phone s self)) = name self
                /\ birthday (snd (remove_phone s self)) = birthday self)
  /\ (forall old new,
         name (snd (edit_phone old new self)) = name self
         /\ birthday (snd (edit_phone old new self)) = birthday self)
  /\ (forall s, name (snd (add_birthday s self)) = name self
                /\ phones (snd (add_birthday s self)) = phones self).
Proof.
  split; [|split; [|split]].
  - intros s. unfold add_phone.
    destruct (Field_init Phone s) as [p|[m|k|m|m]]; try (split; reflexivity).
    destruct (negb (mem p (phones self))); split; reflexivity.
  - intros s. unfold remove_phone.
    destruct (find_phone s self) as [i|]; [|split; reflexivity].
    destruct (list_remove _ _); split; reflexivity.
  - intros old new. unfold edit_phone.
    destruct (find_phone old self) as [i|]; [|split; reflexivity].
    destruct (Field_init Phone new) as [p|[m|k|m|m]]; try (split; reflexivity).
    destruct (negb (eqb p old) && mem p (phones self));
      [split; reflexivity|].
    destruct (Field_set_value Phone new) as [v|[m|k|m|m]];
      split; reflexivity.
  - intros s. unfold add_birthday.
    destruct (Birthday_init (ArgStr s)) as [b|[m|k|m|m]]; split; reflexivity.
Qed.

(** X7.  [Record(name)] makes a record exactly for a name that is not
    empty, with that name, no phone and no birthday; the empty name
    raises the validation error of names. *)
Theorem Record_init_outcomes (name_str : str) :
  (forall r, Record_init name_str = Ok r <->
             name_str <> [] /\ r = mkRecord name_str [] None)
  /\ (name_str = [] ->
      Record_init name_str
      = Raise (ValueError (py "Ім'я не може бути порожнім: ''"))).
Proof.
  unfold Record_init, Field_init, Field_set_value. split.
  - intros r. destruct name_str as [|c cs]; simpl.
    + split; [discriminate | intros [H _]; congruence].
    + split.
      * intros H. injection H as <-. split; [discriminate | reflexivity].
      * intros [_ ->]. reflexivity.
  - intros ->. reflexivity.
Qed.



Lemma Record_init_outcomes_witness :
  Record_init [] = Raise (ValueError (py "Ім'я не може бути порожнім: ''")).
Proof.
  apply (proj2 (Record_init_outcomes [])). reflexivity.
Defined.

(** ** The dictionary of a book *)

Section DictMoreFacts.

Context {V : Type}.

Lemma dict_contains_In (k : str) (d : dict V) :
  dict_contains k d = true <-> In k (map fst d).
Proof.
  unfold dict_contains. induction d as [|[k' v] d IH]; simpl.
  - split; [discriminate | tauto].
  - destruct (eqb k' k) eqn:E.
    + apply eqb_eq in E. split; auto.
    + apply eqb_neq in E. rewrite IH. split; [auto | intros [H|H]; congruence].
Qed.

Lemma dict_contains_not_In (k : str) (d : dict V) :
  dict_contains k d = false <-> ~ In k (map fst d).
Proof.
  rewrite <- dict_contains_In. destruct (dict_contains k d); split; congruence.
Qed.

Lemma dict_set_new (k : str) (v : V) (d : dict V) :
  dict_contains k d = false -> dict_set k v d = d ++ [(k, v)].
Proof.
  unfold dict_contains. induction d as [|[k' v'] d IH]; simpl; [reflexivity|].
  destruct (eqb k' k); [discriminate|]. intros H. now rewrite IH.
Qed.

Lemma dict_set_keys (k : str) (v : V) (d : dict V) :
  dict_contains k d = true -> map fst (dict_set k v d) = map fst d.
Proof.
  unfold dict_contains. induction d as [|[k' v'] d IH]; simpl; [discriminate|].
  destruct (eqb k' k); [reflexivity|]. intros H. simpl. now rewrite IH.
Qed.

Lemma dict_del_absent (k : str) (d : dict V) :
  dict_contains k d = false -> dict_del k d = d.
Proof.
  unfold dict_contains. induction d as [|[k' v'] d IH]; simpl; [reflexivity|].
  destruct (eqb k' k); [discriminate|]. intros H. now rewrite IH.
Qed.

Lemma dict_get_del_other (k k0 : str) (d : dict V) :
  k0 <> k -> dict_get k0 (dict_del k d) = dict_get k0 d.
Proof.
  intros Hne. induction d as [|[k' v'] d IH]; simpl; [reflexivity|].
  destruct (eqb k' k) eqn:E; simpl.
  - apply eqb_eq in E. subst k'.
    destruct (eqb k k0) eqn:E0; [apply eqb_eq in E0; congruence | reflexivity].
  - now rewrite IH.
Qed.

Lemma dict_del_keys_incl (k k0 : str) (d : dict V) :
  In k0 (map fst (dict_del k d)) -> In k0 (map fst d).
Proof.
  induction d as [|[k' v'] d IH]; simpl; [tauto|].
  destruct (eqb k' k); simpl; [auto | intros [H|H]; auto].
Qed.

Lemma dict_get_del_same (k : str) (d : dict V) :
  NoDup (map fst d) -> dict_get k (dict_del k d) = None.
Proof.
  induction d as [|[k' v'] d IH]; simpl; intros Hnd; [reflexivity|].
  inversion Hnd as [|? ? Hn Hnd']; subst.
  destruct (eqb k' k) eqn:E; simpl.
  - apply eqb_eq in E. subst k'.
    destruct (dict_get k d) eqn:G; [|reflexivity].
    exfalso. apply Hn. apply dict_contains_In. unfold dict_contains.
    now rewrite G.
  - rewrite E. now apply IH.
Qed.

Lemma dict_del_NoDup (k : str) (d : dict V) :
  NoDup (map fst d) -> NoDup (map fst (dict_del k d)).
Proof.
  induction d as [|[k' v'] d IH]; simpl; intros Hnd; [constructor|].
  inversion Hnd as [|? ? Hn Hnd']; subst.
  destruct (eqb k' k); simpl; [assumption|].
  constructor; [|now apply IH].
  intros H. apply Hn. eapply dict_del_keys_incl; eauto.
Qed.

Lemma dict_set_NoDup (k : str) (v : V) (d : dict V) :
  NoDup (map fst d) -> NoDup (map fst (dict_set k v d)).
Proof.
  intros Hnd. destruct (dict_contains k d) eqn:C.
  - now rewrite dict_set_keys.
  - rewrite dict_set_new by assumption. rewrite map_app. simpl.
    apply NoDup_app; [assumption | repeat constructor; intros [] |].
    intros x Hx [<-|[]]. apply dict_contains_not_In in C. contradiction.
Qed.

Lemma dict_del_last (k : str) (v : V) (d : dict V) :
  dict_contains k d = false -> dict_del k (d ++ [(k, v)]) = d.
Proof.
  unfold dict_contains. induction d as [|[k' v'] d IH]; simpl.
  - now rewrite eqb_refl.
  - destruct (eqb k' k); [discriminate|]. intros H. now rewrite IH.
Qed.

End DictMoreFacts.

(** X9.  A book made from the empty book by [add_record] and [delete]
    has every name once among its keys. *)
Theorem built_keys_unique (self : AddressBook) :
  built self -> NoDup (book_keys self).
Proof.
  unfold book_keys. induction 1 as [|w r self B IH|k self B IH]; simpl.
  - constructor.
  - now apply dict_set_NoDup.
  - unfold delete. destruct (dict_contains k self); simpl;
      [now apply dict_del_NoDup | assumption].
Qed.

Lemma built_keys_unique_witness :
  NoDup (book_keys
           (snd (delete (py "Bob")
                   (snd (fst (add_record (world_at 2024 1 10) 0%nat
                                sample_book)))))).
Proof.
  apply built_keys_unique.
  apply built_delete, built_add_record.
  change sample_book with
    (snd (fst (add_record (world_at 2024 1 10) 3%nat
       (snd (fst (add_record (world_at 2024 1 10) 1%nat
          (snd (fst (add_record (world_at 2024 1 10) 0%nat []))))))))).
  repeat apply built_add_record. apply built_empty.
Defined.

(** X10.  [add_record] always returns.  Afterwards the name of the
    record is bound to it and every other name is bound as before.  A
    name that is new goes to the end of the book and nothing is
    printed; a name that is taken keeps its place among the keys. *)
Theorem add_record_binds (w : World) (r : ref) (self : AddressBook) :
  let key := name (objects w r) in
  let after := snd (fst (add_record w r self)) in
  fst (fst (add_record w r self)) = Ok tt
  /\ find key after = Some r
  /\ (forall k, k <> key -> find k after = find k self)
  /\ (dict_contains key self = false ->
      after = self ++ [(key, r)] /\ snd (add_record w r self) = [])
  /\ (dict_contains key self = true -> book_keys after = book_keys self).
Proof.
  intros key after. unfold after, add_record. fold key. cbn [fst snd].
  unfold find. split; [reflexivity|]. split; [apply dict_get_set_same|].
  split; [intros k Hk; now apply dict_get_set_other|].
  split.
  - intros C. rewrite C. split; [now apply dict_set_new | reflexivity].
  - intros C. now apply dict_set_keys.
Qed.

Lemma add_record_binds_witness :
  let w := world_at 2024 1 10 in
  (snd (fst (add_record w 2%nat sample_book))
   = sample_book ++ [(py "Fay", 2%nat)]
   /\ snd (add_record w 2%nat sample_book) = [])
  /\ book_keys (snd (fst (add_record w 0%nat sample_book)))
     = book_keys sample_book.
Proof.
  intros w. split.
  - apply (add_record_binds w 2%nat sample_book). reflexivity.
  - apply (add_record_binds w 0%nat sample_book). reflexivity.
Defined.

(** X11.  [delete] of a name that is not in the book raises KeyError
    and leaves the book as it is.  [delete] of a name of a book with
    every name once returns; afterwards the name is not found, every
    other name is bound as before, and the names are still there once
    each. *)
Theorem delete_outcomes (name_str : str) (self : AddressBook) :
  (dict_contains name_str self = false ->
   delete name_str self
   = (Raise (KeyError (py "Контакт '" ++ name_str
                         ++ py "' не знайдено для видалення.")), self))
  /\ (dict_contains name_str self = true -> NoDup (book_keys self) ->
      let after := snd (delete name_str self) in
      fst (delete name_str self) = Ok tt
      /\ find name_str after = None
      /\ (forall k, k <> name_str -> find k after = find k self)
      /\ NoDup (book_keys after)).
Proof.
  unfold delete, find, book_keys. split; intros C.
  - now rewrite C.
  - intros Hnd. rewrite C. cbn [fst snd].
    split; [reflexivity|]. split; [now apply dict_get_del_same|].
    split; [intros k Hk; now apply dict_get_del_other|].
    now apply dict_del_NoDup.
Qed.

Lemma delete_outcomes_witness :
  delete (py "Zoe") sample_book
  = (Raise (KeyError (py "Контакт '" ++ py "Zoe"
                        ++ py "' не знайдено для видалення.")), sample_book)
  /\ (let after := snd (delete (py "Bob") sample_book) in
      fst (delete (py "Bob") sample_book) = Ok tt
      /\ find (py "Bob") after = None
      /\ (forall k, k <> py "Bob" -> find k after = find k sample_book)
      /\ NoDup (book_keys after)).
Proof.
  split.
  - apply (proj1 (delete_outcomes (py "Zoe") sample_book)). reflexivity.
  - apply (proj2 (delete_outcomes (py "Bob") sample_book)).
    + reflexivity.
    + vm_compute. repeat constructor; simpl; intuition discriminate.
Defined.

(** X12.  Adding a record under a new name and deleting that name
    gives the book back as it was. *)
Theorem delete_after_add_record (w : World) (r : ref) (self : AddressBook) :
  dict_contains (name (objects w r)) self = false ->
  delete (name (objects w r)) (snd (fst (add_record w r self)))
  = (Ok tt, self).
Proof.
  intros C. unfold add_record. cbn [fst snd].
  rewrite (dict_set_new _ _ _ C). unfold delete.
  assert (H : dict_contains (name (objects w r))
                (self ++ [(name (objects w r), r)]) = true).
  { apply dict_contains_In. rewrite map_app. apply in_or_app.
    right. now left. }
  rewrite H. now rewrite dict_del_last.
Qed.

Lemma delete_after_add_record_witness :
  delete (py "Fay")
    (snd (fst (add_record (world_at 2024 1 10) 2%nat sample_book)))
  = (Ok tt, sample_book).
Proof.
  apply (delete_after_add_record (world_at 2024 1 10) 2%nat sample_book).
  reflexivity.
Defined.

(** ** More on the upcoming birthdays *)


Lemma upcoming_birthdays_return_witness :
  exists out, get_upcoming_birthdays sample_book (world_at 2025 3 1) = Ok out.
Proof.
  apply (upcoming_birthdays_return sample_book (world_at 2025 3 1)).
  - cbn. lia.
  - intros r value Hr Hb. vm_compute in Hr.
    destruct Hr as [<-|[<-|[<-|[]]]]; vm_compute in Hb;
      try discriminate; injection Hb as <-;
      (split; [reflexivity | vm_compute; intros [H _]; discriminate]).
Defined.

Lemma names_on_app (day : str) (l1 l2 : list entry) :
  names_on day (l1 ++ l2) = names_on day l1 ++ names_on day l2.
Proof. unfold names_on. now rewrite filter_app, map_app. Qed.

Lemma names_on_records (sty : year_style) (today : date) (day : str)
  (rs : list record) (os : list (option entry)) :
  Forall2 (fun r o => upcoming_of sty today r = Ok o) rs os ->
  names_on day (flat_map appended os)
  = map name (filter (on_day sty today day) rs).
Proof.
  induction 1 as [|r o rs os Ho F IH]; [reflexivity|].
  assert (E : on_day sty today day r
              = match o with
                | Some item => eqb (congratulation_weekday item) day
                | None => false
                end).
  { unfold on_day, day_of. rewrite Ho. destruct o; reflexivity. }
  cbn [flat_map filter]. rewrite names_on_app, IH, E.
  destruct o as [item|]; [|reflexivity].
  apply upcoming_of_Some in Ho. destruct Ho as (_ & Rule & _).
  destruct Rule as (? & ? & ? & _ & _ & Hn & _).
  unfold names_on, appended. cbn [filter].
  destruct (eqb (congratulation_weekday item) day); cbn [map app];
    [now rewrite Hn | reflexivity].
Qed.

(** X15.  When the query returns, its groups are, for the days Monday to
    Friday in this order, the names of the records listed under the
    day, in the order of the book; a day without names has no group. *)
Theorem upcoming_groups_in_order (self : AddressBook) (w : World)
  (groups : list (str * list str)) :
  upcoming_groups self w = Ok groups ->
  groups
  = flat_map
      (fun day =>
         match
           map name
             (filter (on_day (libc w) (dt_date (clock w)) day)
                (map (objects w) (dict_values self)))
         with
         | [] => []
         | names => [(day, names)]
         end)
      week_order.
Proof.
  unfold upcoming_groups.
  destruct (upcoming_loop (libc w) (dt_date (clock w))
              (map (objects w) (dict_values self)) []) as [upcoming|e] eqn:L;
    [|discriminate].
  cbn [bind]. intros H. injection H as <-.
  apply upcoming_loop_Ok in L. destruct L as (os & F & ->).
  cbn [app]. unfold emitted_groups. apply flat_map_ext. intros day.
  rewrite group_by_day_get, (names_on_records _ _ day _ _ F).
  destruct (map name _); reflexivity.
Qed.

Lemma upcoming_groups_in_order_witness :
  let w := world_at 2024 1 10 in
  [(py "Monday", [py "Ann"])]
  = flat_map
      (fun day =>
         match
           map name
             (filter (on_day (libc w) (dt_date (clock w)) day)
                (map (objects w) (dict_values sample_book)))
         with
         | [] => []
         | names => [(day, names)]
         end)
      week_order.
Proof.
  intros w.
  apply (upcoming_groups_in_order sample_book w [(py "Monday", [py "Ann"])]).
  vm_compute. reflexivity.
Defined.

(** *** The order of dates *)

Lemma days_before_year_succ (y : Z) :
  _days_before_year (y + 1)
  = _days_before_year y + 365 + (if _is_leap y then 1 else 0).
Proof.
  unfold _days_before_year, _is_leap. cbv zeta.
  replace (y + 1 - 1) with (y - 1 + 1) by lia.
  destruct (y mod 4 =? 0) eqn:E4; destruct (y mod 100 =? 0) eqn:E100;
    destruct (y mod 400 =? 0) eqn:E400; cbn [andb orb negb];
    repeat match goal with
      | H : (_ =? _) = true |- _ => apply Z.eqb_eq in H
      | H : (_ =? _) = false |- _ => apply Z.eqb_neq in H
      end;
    Z.to_euclidean_division_equations; lia.
Qed.

Lemma days_before_year_mono (y1 y2 : Z) :
  y1 <= y2 -> _days_before_year y1 <= _days_before_year y2.
Proof.
  intros H. unfold _days_before_year. cbv zeta.
  Z.to_euclidean_division_equations. lia.
Qed.

Lemma days_before_month_step (y m1 m2 : Z) :
  1 <= m1 -> m1 < m2 -> m2 <= 12 ->
  _days_before_month y m1 + _days_in_month y m1 <= _days_before_month y m2.
Proof.
  intros H1 H12 H2. unfold _days_before_month, _days_in_month.
  destruct (month_cases m1 ltac:(lia))
    as [->|[->|[->|[->|[->|[->|[->|[->|[->|[->|[->| ->]]]]]]]]]]];
    destruct (month_cases m2 ltac:(lia))
      as [->|[->|[->|[->|[->|[->|[->|[->|[->|[->|[->| ->]]]]]]]]]]];
    try lia; destruct (_is_leap y); eval_tables; lia.
Qed.

Lemma date_ltb_toordinal (a b : date) :
  valid_date a -> valid_date b ->
  if date_ltb a b then toordinal a < toordinal b
  else toordinal b <= toordinal a.
Proof.
  unfold valid_date. rewrite !check_date_fields_true.
  intros (Ya & Ma & Da) (Yb & Mb & Db).
  pose proof (day_of_year_bound _ _ _ Ma Da) as Ba.
  pose proof (day_of_year_bound _ _ _ Mb Db) as Bb.
  unfold toordinal, _ymd2ord.
  assert (Hy : forall y1 y2, y1 < y2 ->
             _days_before_year y1 + 365 + (if _is_leap y1 then 1 else 0)
             <= _days_before_year y2).
  { intros y1 y2 H. rewrite <- days_before_year_succ.
    apply days_before_year_mono. lia. }
  unfold date_ltb.
  destruct (year a <? year b) eqn:Y1; cbn [orb].
  { apply Z.ltb_lt in Y1. specialize (Hy _ _ Y1). lia. }
  apply Z.ltb_ge in Y1.
  destruct (year a =? year b) eqn:Y2; cbn [andb].
  2:{ apply Z.eqb_neq in Y2.
      assert (Y3 : year b < year a) by lia. specialize (Hy _ _ Y3). lia. }
  apply Z.eqb_eq in Y2. rewrite Y2 in *.
  destruct (month a <? month b) eqn:M1; cbn [orb].
  { apply Z.ltb_lt in M1.
    pose proof (days_before_month_step (year b) (month a) (month b)
                  ltac:(lia) M1 ltac:(lia)).
    lia. }
  apply Z.ltb_ge in M1.
  destruct (month a =? month b) eqn:M2; cbn [andb].
  2:{ apply Z.eqb_neq in M2.
      assert (M3 : month b < month a) by lia.
      pose proof (days_before_month_step (year b) (month b) (month a)
                    ltac:(lia) M3 ltac:(lia)).
      lia. }
  apply Z.eqb_eq in M2. rewrite M2 in *.
  destruct (day a <? day b) eqn:D1;
    [apply Z.ltb_lt in D1 | apply Z.ltb_ge in D1]; lia.
Qed.

(** X16.  The birthday placed by the query has the month and the day of
    the birthday, lies in the year of today or in the next one, and is
    never before today: the number of days to it is never negative. *)
Theorem birthday_this_year_not_before_today (today bday_date this_year : date) :
  valid_date today ->
  birthday_this_year today bday_date = Ok this_year ->
  month this_year = month bday_date
  /\ day this_year = day bday_date
  /\ (year this_year = year today \/ year this_year = year today + 1)
  /\ 0 <= sub_days this_year today.
Proof.
  intros Vt H. pose proof (birthday_this_year_valid _ _ _ H) as V.
  unfold birthday_this_year, replace_year in H.
  destruct (date_new (year today) (month bday_date) (day bday_date))
    as [x|] eqn:N1; cbn [bind] in H; [|discriminate].
  pose proof (date_new_valid _ _ _ _ N1) as Vx.
  apply date_new_Ok in N1. destruct N1 as [_ ->].
  pose proof (date_ltb_toordinal _ _ Vx Vt) as O.
  destruct (date_ltb _ today).
  - apply date_new_Ok in H. destruct H as [_ ->]. cbn [year month day].
    repeat split; auto. unfold sub_days.
    pose proof (date_ltb_toordinal today
                  (mkdate (year today + 1) (month bday_date) (day bday_date))
                  Vt V) as O'.
    unfold date_ltb in O'. cbn [year] in O'.
    assert (L : (year today <? year today + 1) = true)
      by (apply Z.ltb_lt; lia).
    rewrite L in O'. cbn [orb] in O'. lia.
  - injection H as <-. cbn [year month day].
    repeat split; auto. unfold sub_days. lia.
Qed.

Lemma birthday_this_year_not_before_today_witness :
  month (mkdate 2025 1 9) = 1 /\ day (mkdate 2025 1 9) = 9
  /\ (year (mkdate 2025 1 9) = 2024 \/ year (mkdate 2025 1 9) = 2024 + 1)
  /\ 0 <= sub_days (mkdate 2025 1 9) (mkdate 2024 1 10).
Proof.
  apply (birthday_this_year_not_before_today
           (mkdate 2024 1 10) (mkdate 1985 1 9) (mkdate 2025 1 9)).
  - reflexivity.
  - reflexivity.
Defined.

Lemma upcoming_loop_Raise (sty : year_style) (today : date)
  (rs : list record) (acc : list entry) (e : exn) :
  upcoming_loop sty today rs acc = Raise e ->
  exists r, In r rs /\ upcoming_of sty today r = Raise e.
Proof.
  revert acc. induction rs as [|r rs IH]; intros acc; simpl.
  - discriminate.
  - destruct (upcoming_of sty today r) as [o|e'] eqn:E; cbn [bind].
    + intros H. destruct (IH _ H) as (r' & Hr & Hu). exists r'. auto.
    + intros H. injection H as <-. exists r. auto.
Qed.

(** X17.  The query raises in one way only: for a record of the book
    whose birthday cannot be placed in the year it is meant for, with
    the ValueError of [replace].  Moving a weekend to Monday never
    raises. *)
Theorem upcoming_birthdays_raise_only_from_replace (self : AddressBook)
  (w : World) (e : exn) :
  get_upcoming_birthdays self w = Raise e ->
  exists r value msg,
    In r (map (objects w) (dict_values self))
    /\ birthday r = Some value
    /\ birthday_this_year (dt_date (clock w)) (dt_date value) = Raise e
    /\ e = ValueError msg.
Proof.
  unfold get_upcoming_birthdays, upcoming_groups.
  destruct (upcoming_loop (libc w) (dt_date (clock w))
              (map (objects w) (dict_values self)) []) as [l|e'] eqn:L;
    cbn [bind]; [discriminate|].
  intros H. injection H as <-.
  apply upcoming_loop_Raise in L. destruct L as (r & Hr & U).
  unfold upcoming_of in U.
  destruct (birthday r) as [value|] eqn:B; [|discriminate].
  destruct (birthday_this_year (dt_date (clock w)) (dt_date value))
    as [ty|e0] eqn:T; cbn [bind] in U.
  - exfalso. pose proof (birthday_this_year_valid _ _ _ T) as V.
    destruct ((0 <=? _) && _); [|discriminate].
    destruct (congratulation_date_spec ty V) as (c & Ec & _).
    rewrite Ec in U. discriminate.
  - injection U as <-.
    assert (M : exists msg, e0 = ValueError msg).
    { unfold birthday_this_year, replace_year in T.
      destruct (date_new (year (dt_date (clock w))) (month (dt_date value))
                  (day (dt_date value))) as [x|e1] eqn:N1; cbn [bind] in T.
      - destruct (date_ltb x (dt_date (clock w))); [|discriminate].
        eapply date_new_raises_ValueError; eauto.
      - injection T as <-. eapply date_new_raises_ValueError; eauto. }
    destruct M as [msg ->]. exists r, value, msg. auto.
Qed.

Lemma upcoming_birthdays_raise_only_from_replace_witness :
  let w := world_at 2025 1 10 in
  exists r value msg,
    In r (map (objects w) (dict_values leap_day_book))
    /\ birthday r = Some value
    /\ birthday_this_year (dt_date (clock w)) (dt_date value)
       = Raise (ValueError (py "day is out of range for month"))
    /\ ValueError (py "day is out of range for month") = ValueError msg.
Proof.
  intros w.
  apply (upcoming_birthdays_raise_only_from_replace leap_day_book w).
  vm_compute. reflexivity.
Defined.

(** ** The texts that make a birthday *)

(** A match is a prefix of the text, between the shortest and the
    longest text of the pattern. *)
Lemma rmatch_prefix (r : regex) (s m rest : str) :
  In (m, rest) (rmatch r s) ->
  s = m ++ rest
  /\ (min_len r <= List.length m <= max_len r)%nat.
Proof.
  revert s m rest. induction r as [c|lo hi| |r1 IH1 r2 IH2|r1 IH1 r2 IH2];
    intros s m rest H.
  - cbn [rmatch] in H. destruct s as [|x s']; [destruct H|].
    destruct (x =? c)%N; [|destruct H].
    destruct H as [H|[]]. injection H as <- <-. simpl. auto.
  - cbn [rmatch] in H. destruct s as [|x s']; [destruct H|].
    destruct ((lo <=? x) && (x <=? hi))%N; [|destruct H].
    destruct H as [H|[]]. injection H as <- <-. simpl. auto.
  - apply rmatch_Dig in H. destruct H as (c & -> & -> & _). simpl. auto.
  - apply rmatch_Seq in H. destruct H as (m1 & m2 & mid & -> & H1 & H2).
    apply IH1 in H1. apply IH2 in H2.
    destruct H1 as (-> & L1). destruct H2 as (-> & L2).
    rewrite length_app, <- app_assoc. cbn [min_len max_len]. split; [reflexivity | lia].
  - cbn [rmatch] in H. apply in_app_or in H. cbn [min_len max_len].
    destruct H as [H|H]; [apply IH1 in H | apply IH2 in H];
      destruct H as (-> & L); split; try reflexivity; lia.
Qed.

Lemma rmatch_year (s m rest : str) :
  In (m, rest) (rmatch re_Y s) ->
  List.length m = 4%nat
  /\ Forall (fun c => Unicode.isdecimal_char c = true) m.
Proof.
  unfold re_Y. intros H.
  apply rmatch_Seq in H. destruct H as (m1 & t1 & s1 & -> & A & H).
  apply rmatch_Seq in H. destruct H as (m2 & t2 & s2 & -> & B & H).
  apply rmatch_Seq in H. destruct H as (m3 & m4 & s3 & -> & C & D).
  apply rmatch_Dig in A, B, C, D.
  destruct A as (a & -> & _ & Ha). destruct B as (b & -> & _ & Hb).
  destruct C as (c & -> & _ & Hc). destruct D as (d & -> & _ & Hd).
  split; [reflexivity|]. repeat constructor; assumption.
Qed.

Lemma format_matches_In (s gd gm gY rest : str) :
  In (gd, gm, gY, rest) (format_matches s) ->
  s = gd ++ [chr_dot] ++ gm ++ [chr_dot] ++ gY ++ rest
  /\ (1 <= List.length gd <= 2)%nat
  /\ (1 <= List.length gm <= 2)%nat
  /\ List.length gY = 4%nat
  /\ Forall (fun c => Unicode.isdecimal_char c = true) gY.
Proof.
  unfold format_matches. intros H. apply in_flat_map in H.
  destruct H as ([gd' s2] & Hd & H). apply in_flat_map in H.
  destruct H as ([gm' s4] & Hm & H). apply in_map_iff in H.
  destruct H as ([gY' s5] & E & HY). injection E as <- <- <- <-.
  apply then_dot_In in Hd, Hm.
  apply rmatch_prefix in Hd, Hm. apply rmatch_year in HY as HY'.
  apply rmatch_prefix in HY.
  destruct Hd as (-> & Ld). destruct Hm as (-> & Lm). destruct HY as (-> & _).
  destruct HY' as (LY & FY).
  split; [reflexivity|]. repeat split; try assumption;
    first [apply Ld | apply Lm].
Qed.

(** X18.  A text that makes a birthday is a day, a dot, a month, a dot
    and a year and nothing more: the day and the month have one or two
    characters, the year has four characters that are decimal digits,
    and the birthday holds the date that [int] reads in the three parts,
    which is a date of the calendar.  So the text has 8 to 10
    characters. *)
Theorem Birthday_text_shape (s : str) (dt : datetime) :
  Birthday_init (ArgStr s) = Ok dt ->
  exists gd gm gY y m d,
    s = gd ++ [chr_dot] ++ gm ++ [chr_dot] ++ gY
    /\ (1 <= List.length gd <= 2)%nat
    /\ (1 <= List.length gm <= 2)%nat
    /\ List.length gY = 4%nat
    /\ Forall (fun c => Unicode.isdecimal_char c = true) gY
    /\ int gd = Ok d /\ int gm = Ok m /\ int gY = Ok y
    /\ check_date_fields y m d = true
    /\ dt = at_midnight y m d
    /\ (8 <= List.length s <= 10)%nat.
Proof.
  rewrite Birthday_init_of_strptime.
  destruct (strptime_dmY s) as [dt'|] eqn:P; [|discriminate].
  intros H. injection H as <-. unfold strptime_dmY in P.
  destruct (format_matches s) as [|[[[gd gm] gY] rest] tl] eqn:F;
    [discriminate|].
  assert (Hin : In (gd, gm, gY, rest) (format_matches s))
    by (rewrite F; now left).
  apply format_matches_In in Hin.
  destruct Hin as (Hs & Ld & Lm & LY & FY).
  destruct rest; [|discriminate]. rewrite app_nil_r in Hs.
  destruct (int gY) as [y|] eqn:EY; [|discriminate].
  destruct (int gm) as [m|] eqn:EM; [|discriminate].
  destruct (int gd) as [d|] eqn:ED; [|discriminate].
  cbn [bind] in P. destruct (date_new y m d) as [dd|] eqn:N; [|discriminate].
  cbn [bind] in P. injection P as <-.
  apply date_new_Ok in N. destruct N as [C ->].
  exists gd, gm, gY, y, m, d. repeat split; try assumption; try lia.
  - subst s. rewrite !length_app. simpl. lia.
  - subst s. rewrite !length_app. simpl. lia.
Qed.

Lemma Birthday_text_shape_witness :
  exists gd gm gY y m d,
    py "5.03.1991" = gd ++ [chr_dot] ++ gm ++ [chr_dot] ++ gY
    /\ (1 <= List.length gd <= 2)%nat
    /\ (1 <= List.length gm <= 2)%nat
    /\ List.length gY = 4%nat
    /\ Forall (fun c => Unicode.isdecimal_char c = true) gY
    /\ int gd = Ok d /\ int gm = Ok m /\ int gY = Ok y
    /\ check_date_fields y m d = true
    /\ at_midnight 1991 3 5 = at_midnight y m d
    /\ (8 <= List.length (py "5.03.1991") <= 10)%nat.
Proof.
  apply (Birthday_text_shape (py "5.03.1991") (at_midnight 1991 3 5)).
  vm_compute. reflexivity.
Defined.

(** ** The commands *)

Lemma call_only_object_changed {A : Type} (r : ref) (m : method A)
  (st : Bot) :
  only_object_changed r (snd (m (objects (world st) r))) st
    (mkBot (book st) (snd (call r m (world st)))).
Proof.
  unfold call, only_object_changed.
  destruct (m (objects (world st) r)) as [res v]. cbn.
  rewrite Nat.eqb_refl. repeat split; try reflexivity.
  intros r' Hr'. apply Nat.eqb_neq in Hr'. now rewrite Hr'.
Qed.

Lemma call_fst {A : Type} (r : ref) (m : method A) (w : World) :
  fst (call r m w) = fst (m (objects w r)).
Proof. unfold call. destruct (m (objects w r)); reflexivity. Qed.

Lemma new_object_fresh (self : AddressBook) :
  ~ In (new_object self) (dict_values self).
Proof.
  unfold new_object. intros H.
  assert (L : forall l x, In x l -> (x <= list_max l)%nat).
  { induction l as [|y l IH]; intros x Hx; simpl in *; [contradiction|].
    destruct Hx as [<-|Hx]; [lia|]. specialize (IH x Hx). lia. }
  apply L in H. lia.
Qed.

Lemma contains_app_r (sub a b : str) :
  contains sub b = true -> contains sub (a ++ b) = true.
Proof.
  intros H. induction a as [|c a IH]; [exact H|].
  cbn [app contains]. rewrite IH. apply orb_true_r.
Qed.

Lemma find_In_values (name_str : str) (self : AddressBook) (r : ref) :
  find name_str self = Some r -> In r (dict_values self).
Proof.
  unfold find, dict_values. induction self as [|[k v] d IH]; simpl.
  - discriminate.
  - destruct (eqb k name_str); [intros H; injection H as <-; now left|].
    intros H. right. now apply IH.
Qed.

(** X19.  [add] for a name that is not in the book makes the contact
    whether the phone is valid or not: the book gets a new record of
    that name at its end and every record it had stays as it was.  With
    a valid phone the new record has this one phone and the text tells
    of the contact and its phone; with a phone that is not valid the
    text is the error of the phone, and the new record is left in the
    book without a phone. *)
Theorem add_contact_new_name (repr : str -> str) (name_str phone_str : str)
  (st : Bot) :
  find name_str (book st) = None -> name_str <> [] ->
  let '(text, st', printed) :=
    Handlers.add_contact repr [name_str; phone_str] st in
  let r := new_object (book st) in
  book st' = book st ++ [(name_str, r)]
  /\ find name_str (book st') = Some r
  /\ (forall r', In r' (dict_values (book st)) ->
        objects (world st') r' = objects (world st) r')
  /\ printed = []
  /\ (is_valid Phone phone_str = true ->
      objects (world st') r = mkRecord name_str [phone_str] None
      /\ text = py "Контакт " ++ name_str ++ py " успішно додано."
                   ++ py " з телефоном " ++ phone_str ++ py ".")
  /\ (is_valid Phone phone_str = false ->
      objects (world st') r = mkRecord name_str [] None
      /\ text = py "Помилка! "
                  ++ (py "Не вдалося додати телефон " ++ phone_str ++ py ": "
                         ++ (py "Телефон має містити 10 цифр" ++ py ": '"
                                ++ phone_str ++ py "'"))).
Proof.
  intros F Hname. unfold Handlers.add_contact. rewrite F.
  assert (RI : Record_init name_str = Ok (mkRecord name_str [] None)).
  { unfold Record_init, Field_init, Field_set_value.
    destruct name_str; [congruence | reflexivity]. }
  rewrite RI.
  set (r := new_object (book st)).
  set (w := set_object r (mkRecord name_str [] None) (world st)).
  assert (C : dict_contains name_str (book st) = false).
  { unfold dict_contains. unfold find in F. now rewrite F. }
  assert (Hobj : objects w r = mkRecord name_str [] None).
  { unfold w, set_object. cbn. now rewrite Nat.eqb_refl. }
  unfold add_record. rewrite Hobj. cbn [name]. rewrite C.
  rewrite (dict_set_new _ _ _ C).
  assert (Hfresh : forall r', In r' (dict_values (book st)) -> r' <> r).
  { intros r' Hin ->. now apply (new_object_fresh (book st)). }
  assert (Hfind : find name_str (book st ++ [(name_str, r)]) = Some r).
  { rewrite <- (dict_set_new _ _ _ C). apply dict_get_set_same. }
  unfold call. cbn [world book]. rewrite Hobj.
  destruct (is_valid Phone phone_str) eqn:V.
  - unfold add_phone at 1. rewrite (Phone_init_valid _ V). cbn [phones mem existsb negb].
    cbn [set_phones name phones birthday app].
    assert (K : contains (py "додано")
                  (py "Контакт " ++ name_str ++ py " успішно додано.") = true).
    { rewrite app_assoc. apply contains_app_r. vm_compute. reflexivity. }
    rewrite K. unfold Handlers.answer, Handlers.input_error. cbn [book world].
    split; [reflexivity|]. split; [exact Hfind|]. split.
    { intros r' Hin. cbn. pose proof (Hfresh r' Hin) as Hne.
      apply Nat.eqb_neq in Hne. now rewrite !Hne. }
    split; [reflexivity|]. split; [|discriminate].
    intros _. split.
    + cbn. now rewrite Nat.eqb_refl.
    + now rewrite <- !app_assoc.
  - unfold add_phone at 1. rewrite (Phone_init_invalid _ V). unfold Phone_error.
    unfold Handlers.answer, Handlers.input_error. cbn [book world].
    split; [reflexivity|]. split; [exact Hfind|]. split.
    { intros r' Hin. cbn. pose proof (Hfresh r' Hin) as Hne.
      apply Nat.eqb_neq in Hne. now rewrite !Hne. }
    split; [reflexivity|]. split; [discriminate|].
    intros _. split.
    + cbn. now rewrite Nat.eqb_refl.
    + reflexivity.
Qed.

Lemma add_contact_new_name_witness :
  let reply := Handlers.add_contact quoted [py "Zoe"; py "12-34"] sample_bot in
  book (snd (fst reply)) = sample_book ++ [(py "Zoe", 4%nat)]
  /\ objects (world (snd (fst reply))) 4%nat = mkRecord (py "Zoe") [] None
  /\ fst (fst reply)
     = py "Помилка! Не вдалося додати телефон 12-34: Телефон має містити 10 цифр: '12-34'".
Proof.
  intros reply.
  pose proof (add_contact_new_name quoted (py "Zoe") (py "12-34") sample_bot)
    as H.
  fold reply in H. destruct reply as [[text st'] printed].
  destruct H as (B & _ & _ & _ & _ & Bad).
  - reflexivity.
  - vm_compute. discriminate.
  - destruct (Bad eq_refl) as [O T]. cbn [fst snd].
    split; [exact B|]. split; [exact O|]. rewrite T. reflexivity.
Defined.

(** X20.  [add] for a name of the book works on the record that the
    book holds: the record is after the command what [add_phone] makes
    of it, the book and every other record are as before, nothing is
    printed.  The text is the error of the phone for a phone that is
    not valid; otherwise, when the notice of the update does not have
    the word that the command looks for, it tells of the new phone, or
    that the phone is there already. *)
Theorem add_contact_known_name (repr : str -> str) (name_str phone_str : str)
  (st : Bot) (r : ref) :
  find name_str (book st) = Some r ->
  let before := objects (world st) r in
  let '(text, st', printed) :=
    Handlers.add_contact repr [name_str; phone_str] st in
  only_object_changed r (snd (add_phone phone_str before)) st st'
  /\ printed = []
  /\ (is_valid Phone phone_str = false ->
      text = py "Помилка! "
               ++ (py "Не вдалося додати телефон " ++ phone_str ++ py ": "
                      ++ (py "Телефон має містити 10 цифр" ++ py ": '"
                             ++ phone_str ++ py "'")))
  /\ (is_valid Phone phone_str = true ->
      contains (py "додано")
        (py "Телефон " ++ phone_str ++ py " оновлено для контакту "
            ++ name_str ++ py ".") = false ->
      text = if mem phone_str (phones before)
             then py "Телефон " ++ phone_str ++ py " вже існує для контакту "
                     ++ name_str ++ py "."
             else py "До контакту " ++ name_str
                     ++ py " додано новий телефон " ++ phone_str ++ py ".").
Proof.
  intros F before. unfold Handlers.add_contact. rewrite F.
  pose proof (call_only_object_changed r (add_phone phone_str) st) as O.
  pose proof (call_fst r (add_phone phone_str) (world st)) as E.
  fold before in O, E.
  destruct (call r (add_phone phone_str) (world st)) as [res w] eqn:Cl.
  cbn [fst snd] in O, E.
  unfold add_phone in E.
  destruct (is_valid Phone phone_str) eqn:V.
  - rewrite (Phone_init_valid _ V) in E.
    destruct (mem phone_str (phones before)) eqn:M; cbn [negb] in E;
      subst res;
      destruct (contains (py "додано") _) eqn:K;
      (split; [exact O|]; split; [reflexivity|];
       split; [discriminate|]; intros _ K'; try discriminate; reflexivity).
  - rewrite (Phone_init_invalid _ V) in E. unfold Phone_error in E.
    subst res. split; [exact O|]. split; [reflexivity|].
    split; [reflexivity | discriminate].
Qed.

Lemma add_contact_known_name_witness :
  let reply :=
    Handlers.add_contact quoted [py "Ann"; py "0501234567"] sample_bot in
  phones (objects (world (snd (fst reply))) 0%nat) = [py "0501234567"]
  /\ snd reply = []
  /\ fst (fst reply) = py "До контакту Ann додано новий телефон 0501234567.".
Proof.
  intros reply.
  pose proof (add_contact_known_name quoted (py "Ann") (py "0501234567")
                sample_bot 0%nat) as H.
  fold reply in H. destruct reply as [[text st'] printed].
  destruct H as (O & P & _ & T); [reflexivity|].
  destruct O as (_ & O & _). cbn [fst snd].
  split; [rewrite O; reflexivity|]. split; [exact P|].
  rewrite T; reflexivity.
Defined.

(** X21.  [change] for a name of the book works on the record that the
    book holds: the record is after the command what [edit_phone] makes
    of it, the book and every other record are as before.  When the old
    phone is there and the new one is valid and free, the text tells of
    the change and the phone is replaced in its place; when the old
    phone is not there, the text is the error of the old phone and the
    record is as before. *)
Theorem change_contact_known_name (repr : str -> str)
  (name_str old_phone new_phone : str) (st : Bot) (r : ref) :
  find name_str (book st) = Some r ->
  let before := objects (world st) r in
  let '(text, st', printed) :=
    Handlers.change_contact repr [name_str; old_phone; new_phone] st in
  only_object_changed r (snd (edit_phone old_phone new_phone before)) st st'
  /\ printed = []
  /\ (forall i,
        find_phone old_phone before = Some i ->
        is_valid Phone new_phone = true ->
        new_phone = old_phone \/ ~ In new_phone (phones before) ->
        objects (world st') r
        = set_phones before (list_set i new_phone (phones before))
        /\ text = py "Телефон для " ++ name_str ++ py " успішно змінено з "
                     ++ old_phone ++ py " на " ++ new_phone ++ py ".")
  /\ (~ In old_phone (phones before) ->
      objects (world st') r = before
      /\ text = py "Помилка! "
                  ++ (py "Старий телефон " ++ old_phone
                         ++ py " не знайдено.")).
Proof.
  intros F before. unfold Handlers.change_contact. rewrite F.
  pose proof (call_only_object_changed r (edit_phone old_phone new_phone) st)
    as O.
  pose proof (call_fst r (edit_phone old_phone new_phone) (world st)) as E.
  fold before in O, E.
  destruct (call r (edit_phone old_phone new_phone) (world st))
    as [res w] eqn:Cl.
  cbn [fst snd] in O, E.
  assert (Good : forall i,
             find_phone old_phone before = Some i ->
             is_valid Phone new_phone = true ->
             new_phone = old_phone \/ ~ In new_phone (phones before) ->
             edit_phone old_phone new_phone before
             = (Ok tt, set_phones before
                         (list_set i new_phone (phones before)))).
  { intros i Fi V Hnew. unfold edit_phone.
    rewrite Fi, (Phone_init_valid _ V).
    unfold Field_set_value. rewrite V. cbn [negb].
    assert (G : negb (eqb new_phone old_phone)
                && mem new_phone (phones before) = false).
    { destruct Hnew as [->|Hn].
      - now rewrite eqb_refl.
      - apply mem_not_In in Hn. rewrite Hn. apply andb_false_r. }
    now rewrite G. }
  assert (Bad : ~ In old_phone (phones before) ->
                edit_phone old_phone new_phone before
                = (Raise (ValueError (py "Старий телефон " ++ old_phone
                                        ++ py " не знайдено.")), before)).
  { intros Hn. apply find_phone_in_None in Hn.
    unfold edit_phone, find_phone. now rewrite Hn. }
  destruct res as [u|e]; cbn [Handlers.answer fst snd];
    (split; [exact O|]; split; [reflexivity|]; split;
     [intros i Fi V Hnew; rewrite (Good i Fi V Hnew) in *;
      destruct O as (_ & O & _); cbn [snd] in O; split; [exact O|];
      cbn [fst] in E; try discriminate; reflexivity
     |intros Hn; rewrite (Bad Hn) in *;
      destruct O as (_ & O & _); cbn [snd] in O; split; [exact O|];
      cbn [fst] in E; try discriminate; injection E as ->; reflexivity]).
Qed.

Lemma change_contact_known_name_witness :
  let st :=
    mkBot sample_book
      (set_object 0%nat (mkRecord (py "Ann") [py "0501234567"] None)
         (world_at 2024 1 10)) in
  let reply :=
    Handlers.change_contact quoted
      [py "Ann"; py "0501234567"; py "0930000000"] st in
  phones (objects (world (snd (fst reply))) 0%nat) = [py "0930000000"]
  /\ fst (fst reply)
     = py "Телефон для Ann успішно змінено з 0501234567 на 0930000000."
  /\ fst (fst (Handlers.change_contact quoted
                 [py "Ann"; py "0670000000"; py "0930000000"] st))
     = py "Помилка! Старий телефон 0670000000 не знайдено.".
Proof.
  intros st reply.
  pose proof (change_contact_known_name quoted (py "Ann") (py "0501234567")
                (py "0930000000") st 0%nat) as H.
  fold reply in H. destruct reply as [[text st'] printed].
  destruct H as (_ & _ & Good & _); [vm_compute; reflexivity|].
  destruct (Good 0%nat) as [O T].
  { vm_compute; reflexivity. }
  { vm_compute; reflexivity. }
  { right. vm_compute. intros [H|[]]. discriminate. }
  pose proof (change_contact_known_name quoted (py "Ann") (py "0670000000")
                (py "0930000000") st 0%nat) as H'.
  destruct (Handlers.change_contact quoted
              [py "Ann"; py "0670000000"; py "0930000000"] st)
    as [[text2 st2] printed2].
  destruct H' as (_ & _ & _ & Bad); [vm_compute; reflexivity|].
  destruct Bad as [_ T2].
  { vm_compute. intros [H|[]]. discriminate. }
  cbn [fst snd]. split; [rewrite O; vm_compute; reflexivity|].
  split; [rewrite T; vm_compute; reflexivity
         | rewrite T2; vm_compute; reflexivity].
Defined.

(** X22.  The four commands that need a contact give, for a name that
    is not in the book, the text of the contact not found, with the
    [repr] of the name between quotes, and change nothing. *)
Theorem commands_unknown_name (repr : str -> str) (name_str : str)
  (st : Bot) :
  find name_str (book st) = None ->
  let not_found :=
    py "На жаль, контакт '" ++ repr name_str ++ py "' не знайдено." in
  (forall old new,
      Handlers.change_contact repr [name_str; old; new] st
      = (not_found, st, []))
  /\ Handlers.show_phone repr [name_str] st = (not_found, st, [])
  /\ (forall s, Handlers.add_birthday repr [name_str; s] st
                = (not_found, st, []))
  /\ Handlers.show_birthday repr [name_str] st = (not_found, st, []).
Proof.
  intros F not_found.
  unfold Handlers.change_contact, Handlers.show_phone,
    Handlers.add_birthday, Handlers.show_birthday.
  rewrite F.
  split; [intros; reflexivity|]. split; [reflexivity|].
  split; [intros; reflexivity|]. reflexivity.
Qed.

Lemma commands_unknown_name_witness :
  Handlers.show_phone quoted [py "Zoe"] sample_bot
  = (py "На жаль, контакт ''Zoe'' не знайдено.", sample_bot, [])
  /\ Handlers.show_birthday quoted [py "Zoe"] sample_bot
     = (py "На жаль, контакт ''Zoe'' не знайдено.", sample_bot, []).
Proof.
  destruct (commands_unknown_name quoted (py "Zoe") sample_bot)
    as (_ & A & _ & B); [vm_compute; reflexivity|].
  split; [rewrite A | rewrite B]; vm_compute; reflexivity.
Defined.

(** X23.  Every command checks the number of its arguments first: with
    another number it gives its own text of usage, after [Помилка!],
    and changes nothing. *)
Theorem commands_wrong_arity (repr : str -> str) (args : list str)
  (st : Bot) :
  (List.length args <> 2%nat ->
   Handlers.add_contact repr args st
   = (py "Помилка! " ++ py "Потрібно вказати ім'я та телефон (10 цифр).",
      st, [])
   /\ Handlers.add_birthday repr args st
      = (py "Помилка! "
            ++ py "Вкажіть ім'я та день народження у форматі DD.MM.YYYY.",
         st, []))
  /\ (List.length args <> 3%nat ->
      Handlers.change_contact repr args st
      = (py "Помилка! "
            ++ py "Вкажіть ім'я, старий телефон та новий телефон.",
         st, []))
  /\ (List.length args <> 1%nat ->
      Handlers.show_phone repr args st
      = (py "Помилка! " ++ py "Потрібно вказати ім'я контакту.", st, [])
      /\ Handlers.show_birthday repr args st
         = (py "Помилка! " ++ py "Вкажіть ім'я контакту.", st, []))
  /\ (List.length args <> 0%nat ->
      Handlers.birthdays repr args st
      = (py "Помилка! " ++ py "Команда 'birthdays' не приймає аргументів.",
         st, [])).
Proof.
  split; [|split; [|split]]; intros H.
  - destruct args as [|a [|b [|c l]]]; simpl in H; try lia;
      split; reflexivity.
  - destruct args as [|a [|b [|c [|d l]]]]; simpl in H; try lia; reflexivity.
  - destruct args as [|a [|b l]]; simpl in H; try lia; split; reflexivity.
  - destruct args as [|a l]; simpl in H; try lia; reflexivity.
Qed.

Lemma commands_wrong_arity_witness :
  Handlers.add_contact quoted [py "Ann"] sample_bot
  = (py "Помилка! " ++ py "Потрібно вказати ім'я та телефон (10 цифр).",
     sample_bot, [])
  /\ Handlers.birthdays quoted [py "soon"] sample_bot
     = (py "Помилка! " ++ py "Команда 'birthdays' не приймає аргументів.",
        sample_bot, []).
Proof.
  destruct (commands_wrong_arity quoted [py "Ann"] sample_bot) as (A & _).
  destruct (commands_wrong_arity quoted [py "soon"] sample_bot)
    as (_ & _ & _ & B).
  destruct A as [A _]; [vm_compute; discriminate|].
  split; [exact A|]. apply B. vm_compute. discriminate.
Defined.

(** *** Birthdays through the commands *)

Lemma Birthday_str_exact (sty : year_style)
  (d1 d2 m1 m2 y1 y2 y3 y4 : codepoint) :
  ascii_digits [d1; d2; m1; m2; y1; y2; y3; y4] ->
  sty = YearPadded \/ 1000 <= four_digits y1 y2 y3 y4 ->
  Birthday_str sty
    (at_midnight (four_digits y1 y2 y3 y4) (two_digits m1 m2)
       (two_digits d1 d2))
  = exact_text d1 d2 m1 m2 y1 y2 y3 y4.
Proof.
  intros H S.
  assert (Hd : ascii_digits [d1; d2]).
  { inversion H as [|? ? A H1]; subst. inversion H1 as [|? ? B _]; subst.
    repeat constructor; assumption. }
  assert (Hm : ascii_digits [m1; m2]).
  { do 2 apply ascii_digits_tail in H.
    inversion H as [|? ? A H1]; subst. inversion H1 as [|? ? B _]; subst.
    repeat constructor; assumption. }
  assert (Hy : ascii_digits [y1; y2; y3; y4]).
  { now do 4 apply ascii_digits_tail in H. }
  unfold Birthday_str, at_midnight, strftime_dmY.
  cbn [dt_date year month day].
  rewrite !render_two_digits, render_four_digits by assumption.
  reflexivity.
Qed.

Lemma find_same_book (name_str : str) (st st' : Bot) (r : ref) :
  book st' = book st -> find name_str (book st) = Some r ->
  find name_str (book st') = Some r.
Proof. now intros ->. Qed.

(** X24.  The birthday that [add-birthday] sets is the one that
    [show-birthday] shows.  For a name of the book and a text
    [DD.MM.YYYY] of ASCII digits that writes a date of the calendar,
    [add-birthday] tells that the birthday is added, the record of that
    name holds the date at midnight and nothing else has changed;
    [show-birthday] then answers with the very text that was given,
    when the year has four digits without a leading zero or the C
    library pads the year.  For a text that makes no birthday the
    answer is the error of the birthday, and the record is as it was. *)
Theorem birthday_commands_round_trip (repr : str -> str) (name_str : str)
  (st : Bot) (r : ref) :
  find name_str (book st) = Some r ->
  let before := objects (world st) r in
  (forall d1 d2 m1 m2 y1 y2 y3 y4 : codepoint,
      ascii_digits [d1; d2; m1; m2; y1; y2; y3; y4] ->
      let s := exact_text d1 d2 m1 m2 y1 y2 y3 y4 in
      let y := four_digits y1 y2 y3 y4 in
      let m := two_digits m1 m2 in
      let d := two_digits d1 d2 in
      check_date_fields y m d = true ->
      let '(text, st', printed) :=
        Handlers.add_birthday repr [name_str; s] st in
      text = py "День народження " ++ s ++ py " додано для контакту "
                ++ name_str ++ py "."
      /\ printed = []
      /\ only_object_changed r
           (set_birthday before (Some (at_midnight y m d))) st st'
      /\ (libc (world st) = YearPadded \/ 1000 <= y ->
          Handlers.show_birthday repr [name_str] st'
          = (py "День народження " ++ name_str ++ py ": " ++ s, st', [])))
  /\ (forall s : str,
         is_ok (Birthday_init (ArgStr s)) = false ->
         let '(text, st', printed) :=
           Handlers.add_birthday repr [name_str; s] st in
         text = py "Помилка! "
                  ++ (py "Не вдалося встановити день народження: "
                        ++ (Birthday_message ++ py ": '" ++ s ++ py "'"))
         /\ printed = []
         /\ only_object_changed r before st st').
Proof.
  intros F before. split.
  - intros d1 d2 m1 m2 y1 y2 y3 y4 H s y m d C.
    pose proof (strptime_exact _ _ _ _ _ _ _ _ H) as P.
    cbv zeta in P. fold s y m d in P. rewrite C in P.
    assert (E : add_birthday s before
                = (Ok tt, set_birthday before (Some (at_midnight y m d)))).
    { unfold add_birthday. now rewrite Birthday_init_of_strptime, P. }
    unfold Handlers.add_birthday, Record_add_birthday. rewrite F.
    pose proof (call_only_object_changed r (add_birthday s) st) as O.
    pose proof (call_fst r (add_birthday s) (world st)) as R.
    fold before in O, R. rewrite E in O, R.
    destruct (call r (add_birthday s) (world st)) as [res w].
    cbn [fst snd] in O, R. subst res.
    cbn [Handlers.answer Handlers.input_error].
    split; [reflexivity|]. split; [reflexivity|]. split; [exact O|].
    intros S. unfold Handlers.show_birthday.
    destruct O as (Ob & Oo & _ & _ & Ol).
    rewrite (find_same_book name_str st _ r Ob F).
    cbn [world] in Oo, Ol |- *. rewrite Oo. cbn [set_birthday birthday].
    rewrite Ol. unfold y, m, d.
    rewrite Birthday_str_exact by assumption. reflexivity.
  - intros s B.
    assert (E : add_birthday s before
                = (Raise (ValueError
                            (py "Не вдалося встановити день народження: "
                               ++ (Birthday_message ++ py ": '" ++ s
                                     ++ py "'"))), before)).
    { unfold add_birthday. rewrite Birthday_init_of_strptime in *.
      destruct (strptime_dmY s); [discriminate | reflexivity]. }
    unfold Handlers.add_birthday, Record_add_birthday. rewrite F.
    pose proof (call_only_object_changed r (add_birthday s) st) as O.
    pose proof (call_fst r (add_birthday s) (world st)) as R.
    fold before in O, R. rewrite E in O, R.
    destruct (call r (add_birthday s) (world st)) as [res w].
    cbn [fst snd] in O, R. subst res.
    cbn [Handlers.answer Handlers.input_error].
    split; [reflexivity|]. split; [reflexivity|]. exact O.
Qed.

Lemma birthday_commands_round_trip_witness :
  let added :=
    Handlers.add_birthday quoted [py "Eve"; py "05.03.1991"] sample_bot in
  fst (fst added) = py "День народження 05.03.1991 додано для контакту Eve."
  /\ Handlers.show_birthday quoted [py "Eve"] (snd (fst added))
     = (py "День народження Eve: 05.03.1991", snd (fst added), [])
  /\ fst (fst (Handlers.add_birthday quoted [py "Eve"; py "31.02.2024"]
                 sample_bot))
     = py "Помилка! Не вдалося встановити день народження: Невірний формат дати. Використовуйте DD.MM.YYYY: '31.02.2024'".
Proof.
  intros added.
  destruct (birthday_commands_round_trip quoted (py "Eve") sample_bot 3%nat)
    as [Good Bad]; [vm_compute; reflexivity|].
  assert (A : ascii_digits [48; 53; 48; 51; 49; 57; 57; 49]%N)
    by (repeat constructor).
  assert (C : check_date_fields (four_digits 49%N 57%N 57%N 49%N)
                (two_digits 48%N 51%N) (two_digits 48%N 53%N) = true)
    by (vm_compute; reflexivity).
  pose proof (Good 48%N 53%N 48%N 51%N 49%N 57%N 57%N 49%N A C) as G.
  change (exact_text 48%N 53%N 48%N 51%N 49%N 57%N 57%N 49%N)
    with (py "05.03.1991") in G.
  fold added in G. destruct added as [[text st'] printed].
  destruct G as (T & _ & _ & S).
  specialize (Bad (py "31.02.2024")).
  destruct (Handlers.add_birthday quoted [py "Eve"; py "31.02.2024"]
              sample_bot) as [[text2 st2] printed2].
  destruct Bad as (T2 & _); [vm_compute; reflexivity|].
  cbn [fst snd]. split; [rewrite T; vm_compute; reflexivity|].
  split.
  - rewrite S; [reflexivity|]. right. vm_compute. discriminate.
  - rewrite T2. vm_compute. reflexivity.
Defined.

(** *** Phones through the commands *)





(** *** The command of the upcoming birthdays *)

Lemma toordinal_before_last_year (d : date) :
  valid_date d -> year d < 9999 -> toordinal d + 6 <= _MAXORDINAL.
Proof.
  unfold valid_date. rewrite check_date_fields_true.
  intros (Hy & Hm & Hd) Hlast.
  pose proof (day_of_year_bound _ _ _ Hm Hd) as B.
  pose proof (days_before_year_mono (year d) 9998 ltac:(lia)) as M.
  unfold toordinal, _ymd2ord, _MAXORDINAL.
  change (_days_before_year 9998) with 3651329 in M.
  destruct (_is_leap (year d)); lia.
Qed.

(** X26.  When no birthday is coming up, [birthdays] names the first
    Monday that is not before today: on a Monday it tells that this
    week has none, on another day it tells the date of the Monday of
    the next week, which is from one to six days ahead.  The book and
    the records are as before. *)
Theorem birthdays_none_names_next_monday (repr : str -> str) (st : Bot) :
  let today := dt_date (clock (world st)) in
  valid_date today -> year today < 9999 ->
  get_upcoming_birthdays (book st) (world st) = Ok [] ->
  exists monday,
    valid_date monday
    /\ weekday monday = 0
    /\ 0 <= sub_days monday today <= 6
    /\ (sub_days monday today = 0 <-> weekday today = 0)
    /\ Handlers.birthdays repr [] st
       = (if weekday today =? 0
          then py "Цього тижня (до наступного понеділка) днів народження немає."
          else py "На наступному тижні (з "
                  ++ strftime_dmY (libc (world st)) monday
                  ++ py ") днів народження немає.",
          st, []).
Proof.
  intros today V Hlast Q.
  pose proof (toordinal_bounds today V) as B.
  pose proof (toordinal_before_last_year today V Hlast) as L.
  pose proof (weekday_range today) as W.
  set (k := (7 - weekday today) mod 7).
  assert (Hk : 0 <= k <= 6)
    by (pose proof (Z.mod_pos_bound (7 - weekday today) 7); unfold k; lia).
  destruct (add_days_Ok today k ltac:(lia)) as (monday & A & T & VM).
  exists monday. split; [exact VM|].
  assert (WM : weekday monday = 0).
  { unfold weekday in *. rewrite T. unfold k.
    Z.to_euclidean_division_equations; lia. }
  split; [exact WM|]. unfold sub_days. rewrite T.
  split; [lia|]. split.
  { unfold k. Z.to_euclidean_division_equations; lia. }
  unfold Handlers.birthdays. rewrite Q. unfold datetime_add_days.
  fold today. fold k. rewrite A. cbn [bind dt_date].
  destruct (weekday today =? 0); reflexivity.
Qed.

Lemma birthdays_none_names_next_monday_witness :
  exists monday,
    valid_date monday
    /\ weekday monday = 0
    /\ 0 <= sub_days monday (mkdate 2024 3 13) <= 6
    /\ (sub_days monday (mkdate 2024 3 13) = 0
        <-> weekday (mkdate 2024 3 13) = 0)
    /\ Handlers.birthdays quoted [] (mkBot sample_book (world_at 2024 3 13))
       = (py "На наступному тижні (з "
             ++ strftime_dmY YearPlain monday
             ++ py ") днів народження немає.",
          mkBot sample_book (world_at 2024 3 13), []).
Proof.
  set (st := mkBot sample_book (world_at 2024 3 13)).
  assert (V : valid_date (dt_date (clock (world st))))
    by (vm_compute; reflexivity).
  assert (Hl : year (dt_date (clock (world st))) < 9999)
    by (vm_compute; reflexivity).
  assert (Q : get_upcoming_birthdays (book st) (world st) = Ok [])
    by (vm_compute; reflexivity).
  destruct (birthdays_none_names_next_monday quoted st V Hl Q)
    as (monday & VM & WM & S & I & R).
  assert (W : (weekday (dt_date (clock (world st))) =? 0) = false)
    by (vm_compute; reflexivity).
  rewrite W in R.
  change (dt_date (clock (world st))) with (mkdate 2024 3 13) in S, I.
  change (libc (world st)) with YearPlain in R.
  exists monday.
  split; [exact VM|]. split; [exact WM|]. split; [exact S|].
  split; [exact I|]. exact R.
Defined.

Lemma upcoming_loop_raises (sty : year_style) (today : date)
  (rs : list record) (r : record) (e : exn) :
  In r rs -> upcoming_of sty today r = Raise e ->
  forall acc, exists e', upcoming_loop sty today rs acc = Raise e'.
Proof.
  induction rs as [|r0 rs IH]; intros Hin U acc; [contradiction|].
  cbn [upcoming_loop].
  destruct (upcoming_of sty today r0) as [o|e0] eqn:E0; cbn [bind].
  - destruct Hin as [->|Hin]; [congruence|]. now apply IH.
  - eexists; reflexivity.
Qed.

Lemma date_new_raises_day (y m d : Z) (e : exn) :
  1 <= y <= 9999 -> 1 <= m <= 12 ->
  date_new y m d = Raise e ->
  e = ValueError (py "day is out of range for month").
Proof.
  intros Hy Hm. unfold date_new, MINYEAR, MAXYEAR.
  assert (Y : (1 <=? y) && (y <=? 9999) = true).
  { apply andb_true_iff. split; apply Z.leb_le; lia. }
  assert (M : (1 <=? m) && (m <=? 12) = true).
  { apply andb_true_iff. split; apply Z.leb_le; lia. }
  rewrite Y, M. cbn [negb].
  destruct (negb _); [|discriminate]. intros H. now injection H as <-.
Qed.

Lemma upcoming_of_raises_day (sty : year_style) (today : date) (r : record)
  (e : exn) :
  1 <= year today < 9999 ->
  (forall value, birthday r = Some value -> valid_date (dt_date value)) ->
  upcoming_of sty today r = Raise e ->
  e = ValueError (py "day is out of range for month").
Proof.
  intros Hy Hv. unfold upcoming_of.
  destruct (birthday r) as [value|]; [|discriminate].
  specialize (Hv value eq_refl). unfold valid_date in Hv.
  rewrite check_date_fields_true in Hv. destruct Hv as (_ & Hm & _).
  destruct (birthday_this_year today (dt_date value)) as [ty|e0] eqn:T;
    cbn [bind].
  - pose proof (birthday_this_year_valid _ _ _ T) as V.
    destruct ((0 <=? _) && _); [|discriminate].
    destruct (congratulation_date_spec ty V) as (c & -> & _). discriminate.
  - intros H. injection H as <-.
    unfold birthday_this_year, replace_year in T.
    destruct (date_new (year today) (month (dt_date value))
                (day (dt_date value))) as [x|e1] eqn:N1; cbn [bind] in T.
    + destruct (date_ltb x today); [|discriminate].
      apply (date_new_raises_day (year today + 1) (month (dt_date value))
               (day (dt_date value))); [lia | lia | exact T].
    + injection T as <-.
      apply (date_new_raises_day (year today) (month (dt_date value))
               (day (dt_date value))); [lia | lia | exact N1].
Qed.

(** X27.  One birthday on 29 February stops [birthdays] in every year
    that is not a leap year: whatever else the book holds and whatever
    the day of that year, the command answers with the error of
    [replace] and lists no one. *)
Theorem leap_day_birthday_stops_birthdays (repr : str -> str) (st : Bot)
  (r : record) (value : datetime) :
  let today := dt_date (clock (world st)) in
  let records := map (objects (world st)) (dict_values (book st)) in
  1 <= year today < 9999 -> _is_leap (year today) = false ->
  (forall r' value', In r' records -> birthday r' = Some value' ->
                     valid_date (dt_date value')) ->
  In r records -> birthday r = Some value ->
  month (dt_date value) = 2 -> day (dt_date value) = 29 ->
  Handlers.birthdays repr [] st
  = (py "Помилка! " ++ py "day is out of range for month", st, []).
Proof.
  intros today records Hy Leap Hv Hin B Hm Hd.
  assert (U : exists e, upcoming_of (libc (world st)) today r = Raise e).
  { unfold upcoming_of, birthday_this_year, replace_year. rewrite B, Hm, Hd.
    unfold date_new, MINYEAR, MAXYEAR, _days_in_month. rewrite Leap.
    assert (Y : (1 <=? year today) && (year today <=? 9999) = true).
    { apply andb_true_iff. split; apply Z.leb_le; lia. }
    rewrite Y. cbn. eexists; reflexivity. }
  destruct U as [e U].
  destruct (upcoming_loop_raises _ _ records r e Hin U []) as [e' L].
  assert (E : e' = ValueError (py "day is out of range for month")).
  { destruct (upcoming_loop_Raise _ _ _ _ _ L) as (r' & Hr' & U').
    apply (upcoming_of_raises_day _ _ _ _ Hy (fun v => Hv r' v Hr') U'). }
  subst e'.
  unfold Handlers.birthdays, get_upcoming_birthdays, upcoming_groups.
  fold today records. rewrite L. reflexivity.
Qed.

Lemma leap_day_birthday_stops_birthdays_witness :
  Handlers.birthdays quoted [] (mkBot leap_day_book (world_at 2025 1 10))
  = (py "Помилка! " ++ py "day is out of range for month",
     mkBot leap_day_book (world_at 2025 1 10), []).
Proof.
  apply (leap_day_birthday_stops_birthdays quoted
           (mkBot leap_day_book (world_at 2025 1 10))
           (sample_objects 2%nat) (at_midnight 2024 2 29)).
  - cbn. lia.
  - vm_compute. reflexivity.
  - intros r' value' Hin Hb. cbn in Hin.
    destruct Hin as [<-|[<-|[]]]; injection Hb as <-; vm_compute; reflexivity.
  - right. left. reflexivity.
  - reflexivity.
  - reflexivity.
  - reflexivity.
Defined.

(** ** Reading a line *)

Lemma split_from_words (s word0 : str) :
  no_space word0 -> Forall word (Input.split_from word0 s).
Proof.
  revert word0. induction s as [|c rest IH]; intros word0 H; cbn.
  - destruct word0; constructor; [|constructor]. split; [discriminate|exact H].
  - destruct (Input.isspace_char c) eqn:S.
    + destruct word0 as [|a w].
      * apply IH. constructor.
      * constructor; [split; [discriminate | exact H]|]. apply IH. constructor.
    + apply IH. apply Forall_app. split; [exact H|].
      constructor; [exact S | constructor].
Qed.

Lemma split_from_nil (s word0 : str) :
  Input.split_from word0 s = [] <-> word0 = [] /\ blank s.
Proof.
  revert word0. induction s as [|c rest IH]; intros word0; cbn.
  - destruct word0; split.
    + intros _. split; [reflexivity | constructor].
    + reflexivity.
    + discriminate.
    + intros [H _]. discriminate.
  - destruct (Input.isspace_char c) eqn:S.
    + destruct word0 as [|a w].
      * rewrite IH. split.
        -- intros [_ B]. split; [reflexivity|]. now constructor.
        -- intros [_ B]. split; [reflexivity|]. now inversion B.
      * split; [discriminate | intros [H _]; discriminate].
    + rewrite IH. split.
      * intros [H _]. now destruct word0.
      * intros [_ B]. inversion B; congruence.
Qed.

Lemma lstrip_nil (s : str) : Input.lstrip s = [] <-> blank s.
Proof.
  induction s as [|c rest IH]; cbn.
  - split; [constructor | reflexivity].
  - destruct (Input.isspace_char c) eqn:S.
    + rewrite IH. split; [now constructor | now inversion 1].
    + split; [discriminate | inversion 1; congruence].
Qed.

Lemma lstrip_blank_suffix (s : str) :
  exists b, blank b /\ s = b ++ Input.lstrip s.
Proof.
  induction s as [|c rest (b & B & E)]; cbn.
  - exists []. split; [constructor | reflexivity].
  - destruct (Input.isspace_char c) eqn:S.
    + exists (c :: b). split; [now constructor|]. cbn. now f_equal.
    + exists []. split; [constructor | reflexivity].
Qed.

Lemma blank_rev (s : str) : blank (rev s) <-> blank s.
Proof.
  unfold blank. rewrite !Forall_forall. split; intros H c Hc; apply H.
  - now apply in_rev in Hc.
  - now apply in_rev.
Qed.

Lemma strip_nil (s : str) : Input.strip s = [] <-> blank s.
Proof.
  unfold Input.strip, Input.rstrip. split.
  - intros H. apply (f_equal (@rev _)) in H. rewrite rev_involutive in H.
    cbn in H. apply (proj1 (lstrip_nil _)) in H.
    apply (proj1 (blank_rev _)) in H.
    destruct (lstrip_blank_suffix s) as (b & B & E). rewrite E.
    apply Forall_app. now split.
  - intros B. apply lstrip_nil in B. rewrite B. reflexivity.
Qed.

Lemma lstrip_no_space (s : str) : no_space s -> Input.lstrip s = s.
Proof.
  intros H. destruct s as [|c rest]; [reflexivity|]. cbn.
  inversion H as [|? ? S _]; subst. now rewrite S.
Qed.

Lemma strip_no_space (s : str) : no_space s -> Input.strip s = s.
Proof.
  intros H. unfold Input.strip, Input.rstrip.
  rewrite (lstrip_no_space s H), lstrip_no_space.
  - apply rev_involutive.
  - unfold no_space in *. rewrite Forall_forall in *. intros c Hc.
    apply H. now apply in_rev.
Qed.

(** X28.  [parse_input] fails, with the IndexError of [parts[0]], on
    the blank lines and on no other line; [main] skips exactly these
    lines, for which [strip] leaves nothing.  On every other line it
    gives the first word of the line in lower case as the command and
    the other words as the arguments: no argument is empty or has white
    space in it, and the [strip] of the command does nothing. *)
Theorem parse_input_outcomes (lower : str -> str) (user_input : str) :
  (Input.parse_input lower user_input = None
   <-> Input.strip user_input = [])
  /\ (Input.strip user_input = [] <-> blank user_input)
  /\ forall command args,
       Input.parse_input lower user_input = Some (command, args) ->
       exists first,
         Input.split user_input = first :: args
         /\ command = lower first /\ word first /\ Forall word args.
Proof.
  pose proof (split_from_words user_input [] (Forall_nil _)) as W.
  pose proof (split_from_nil user_input []) as N.
  fold (Input.split user_input) in W, N.
  unfold Input.parse_input. cbv zeta.
  split; [|split; [apply strip_nil|]].
  - rewrite strip_nil. destruct (Input.split user_input) as [|first args].
    + split; [intros _; now apply N | reflexivity].
    + split; [discriminate|]. intros B.
      assert (E : first :: args = []) by (apply N; auto). discriminate.
  - intros command args H.
    destruct (Input.split user_input) as [|first args0]; [discriminate|].
    injection H as <- <-. inversion W as [|? ? Wf Wa]; subst.
    exists first. split; [reflexivity|].
    rewrite (strip_no_space first (proj2 Wf)). auto.
Qed.
